(** * The translator hook [useTranslator] as an event-driven state machine

    Source: [src/frontend/src/hooks/useTranslator.ts].

    The hook is single threaded: every piece of its logic runs inside a
    callback (a UI handler, a timer, a socket or recognizer event, the
    continuation of an [await]).  Each callback is embedded as a function
    from [World] to [World].  A [World] holds

    - the committed React state ([RState], one field per [useState]);
    - the objects behind the [useRef] cells (recognizers, abort
      controllers) as small heaps indexed by allocation order, so that
      aliasing through a ref is visible;
    - the runtime's timer heap and a clock in milliseconds;
    - the suspended [async] invocations of [performTranslation];
    - the requests sent to the translation service.

    Closures.  A function defined during a render closes over that
    render's state values.  Such reads are taken from an explicit snapshot
    argument [snap : RState]; reads through a ref and all writes go to the
    world.  An object that stores a closure (a recognizer with its [onend]
    handler, a debounce timer with its callback) stores the values the
    closure captured.

    Awaits.  [performTranslation] is cut at its two awaits:
    [performTranslation] runs to the first one, [detectSettled] and
    [translateSettled] are the continuations, driven by how the awaited
    call settles.

    What the platform decides (whether a constructor or [start()] throws,
    how a request is answered, which capabilities the page has) enters as
    an argument or through [Env]. *)

From Stdlib Require Import Strings.String Strings.Ascii.
From Stdlib Require Import NArith List Lia Bool.
From stdpp Require Import base decidable option numbers list.
Import ListNotations.

Set Default Proof Using "Type".

(** ** JavaScript strings

    A JavaScript string is a sequence of UTF-16 code units; [.length]
    counts code units. *)

Abbreviation jsstring := (list N).

Module Js.

(** An ASCII literal as code units. *)
Definition lit (s : String.string) : jsstring :=
  map (fun a => Ascii.N_of_ascii a) (String.list_ascii_of_string s).

(** White space and line terminators removed by [String.prototype.trim]. *)
Definition is_space (c : N) : bool :=
  ((9 <=? c) && (c <=? 13) || (c =? 32) || (c =? 160) || (c =? 5760)
   || (8192 <=? c) && (c <=? 8202) || (c =? 8232) || (c =? 8233)
   || (c =? 8239) || (c =? 8287) || (c =? 12288) || (c =? 65279))%N.

Fixpoint trimStart (s : jsstring) : jsstring :=
  match s with
  | c :: s' => if is_space c then trimStart s' else s
  | [] => []
  end.

Definition trim (s : jsstring) : jsstring :=
  rev (trimStart (rev (trimStart s))).

(** Truthiness of a string: only the empty string is falsy. *)
Definition truthy (s : jsstring) : bool :=
  match s with [] => false | _ :: _ => true end.

Definition digit (d : N) : N := (48 + d)%N.

Fixpoint of_uint (u : Decimal.uint) : jsstring :=
  match u with
  | Decimal.Nil => []
  | Decimal.D0 u => digit 0 :: of_uint u
  | Decimal.D1 u => digit 1 :: of_uint u
  | Decimal.D2 u => digit 2 :: of_uint u
  | Decimal.D3 u => digit 3 :: of_uint u
  | Decimal.D4 u => digit 4 :: of_uint u
  | Decimal.D5 u => digit 5 :: of_uint u
  | Decimal.D6 u => digit 6 :: of_uint u
  | Decimal.D7 u => digit 7 :: of_uint u
  | Decimal.D8 u => digit 8 :: of_uint u
  | Decimal.D9 u => digit 9 :: of_uint u
  end.

(** Template-literal rendering of a non-negative integer. *)
Definition of_N (n : N) : jsstring := of_uint (N.to_uint n).

End Js.

(** ** String constants of the source, as code units *)

Module Str.
Definition RU : jsstring := Js.lit "RU"%string.
Definition DE : jsstring := Js.lit "DE"%string.
Definition ru_RU : jsstring := Js.lit "ru-RU"%string.
Definition de_DE : jsstring := Js.lit "de-DE"%string.
Definition AbortError : jsstring := Js.lit "AbortError"%string.
Definition no_speech : jsstring := Js.lit "no-speech"%string.
Definition audio_capture : jsstring := Js.lit "audio-capture"%string.

(** '🟢 Готов' *)
Definition ready : jsstring :=
  [55357; 57314; 32; 1043; 1086; 1090; 1086; 1074]%N.
(** '🟢 Подключено' *)
Definition connected : jsstring :=
  [55357; 57314; 32; 1055; 1086; 1076; 1082; 1083; 1102; 1095; 1077; 1085;
   1086]%N.
(** '🔴 Переподключение через ' *)
Definition reconnect_in : jsstring :=
  [55357; 56628; 32; 1055; 1077; 1088; 1077; 1087; 1086; 1076; 1082; 1083;
   1102; 1095; 1077; 1085; 1080; 1077; 32; 1095; 1077; 1088; 1077; 1079;
   32]%N.
(** 's...' *)
Definition seconds : jsstring := Js.lit "s..."%string.
(** '🎤 Запись...' *)
Definition recording : jsstring :=
  [55356; 57252; 32; 1047; 1072; 1087; 1080; 1089; 1100; 46; 46; 46]%N.
(** '❌ Ошибка: ' *)
Definition error_colon : jsstring :=
  [10060; 32; 1054; 1096; 1080; 1073; 1082; 1072; 58; 32]%N.
(** '🔄 Перевод...' *)
Definition translating : jsstring :=
  [55357; 56580; 32; 1055; 1077; 1088; 1077; 1074; 1086; 1076; 46; 46;
   46]%N.
(** '✅ ' *)
Definition check : jsstring := [9989; 32]%N.
(** ' → ' *)
Definition arrow : jsstring := [32; 8594; 32]%N.
(** '❌ Ошибка перевода' *)
Definition translation_failed : jsstring :=
  [10060; 32; 1054; 1096; 1080; 1073; 1082; 1072; 32; 1087; 1077; 1088;
   1077; 1074; 1086; 1076; 1072]%N.
(** 'Ошибка: ' *)
Definition failure_prefix : jsstring :=
  [1054; 1096; 1080; 1073; 1082; 1072; 58; 32]%N.
(** '❌ Микрофон недоступен' *)
Definition no_microphone : jsstring :=
  [10060; 32; 1052; 1080; 1082; 1088; 1086; 1092; 1086; 1085; 32; 1085;
   1077; 1076; 1086; 1089; 1090; 1091; 1087; 1077; 1085]%N.
(** '❌ Speech recognition не готов' *)
Definition speech_not_ready : jsstring :=
  [10060; 32; 83; 112; 101; 101; 99; 104; 32; 114; 101; 99; 111; 103; 110;
   105; 116; 105; 111; 110; 32; 1085; 1077; 32; 1075; 1086; 1090; 1086;
   1074]%N.
(** '⏹️ Остановлено' *)
Definition stopped : jsstring :=
  [9209; 65039; 32; 1054; 1089; 1090; 1072; 1085; 1086; 1074; 1083; 1077;
   1085; 1086]%N.
(** '🤖 Auto режим' *)
Definition auto_mode : jsstring :=
  [55358; 56598; 32; 65; 117; 116; 111; 32; 1088; 1077; 1078; 1080;
   1084]%N.
(** '🎯 Manual режим' *)
Definition manual_mode : jsstring :=
  [55356; 57263; 32; 77; 97; 110; 117; 97; 108; 32; 1088; 1077; 1078; 1080;
   1084]%N.

(** ["<source> → <target>"] *)
Definition pair (fromLang toLang : jsstring) : jsstring :=
  fromLang ++ arrow ++ toLang.

(** The status published after a successful translation:
    [`✅ ${fromLang} → ${toLang}`]. *)
Definition translated (fromLang toLang : jsstring) : jsstring :=
  check ++ fromLang ++ arrow ++ toLang.

(** [`🔴 Переподключение через ${delay/1000}s...`] *)
Definition reconnecting (delay : N) : jsstring :=
  reconnect_in ++ Js.of_N (delay / 1000) ++ seconds.
End Str.

(** ** React state *)

Inductive TranslationMode := manual | auto.
Inductive Role := user | steuerberater.

Record ConnectionStatus := mkConn { ai : bool; ws : bool; speech : bool }.

(** One field per [useState] cell that the hook's logic reads or writes
    ([currentMode] and [autoTranslate] are only stored and handed back). *)
Record RState := mkRState {
  translationMode : TranslationMode;
  currentRole : Role;
  inputText : jsstring;
  originalText : jsstring;
  translatedText : jsstring;
  isRecording : bool;
  status : jsstring;
  isTranslating : bool;
  recognitionLang : jsstring;
  connectionStatus : ConnectionStatus
}.

#[global] Instance TranslationMode_eq_dec : EqDecision TranslationMode.
Proof. solve_decision. Defined.
#[global] Instance Role_eq_dec : EqDecision Role.
Proof. solve_decision. Defined.

(** The values of the first render. *)
Definition initial_state : RState :=
  {| translationMode := auto; currentRole := user;
     inputText := []; originalText := []; translatedText := [];
     isRecording := false; status := Str.ready; isTranslating := false;
     recognitionLang := Str.ru_RU;
     connectionStatus := mkConn false false false |}.

(** Functional record update for [RState], one per field. *)

Definition with_translationMode (v : TranslationMode) (s : RState) : RState :=
  mkRState v (currentRole s) (inputText s) (originalText s)
    (translatedText s) (isRecording s) (status s) (isTranslating s)
    (recognitionLang s) (connectionStatus s).

Definition with_currentRole (v : Role) (s : RState) : RState :=
  mkRState (translationMode s) v (inputText s) (originalText s)
    (translatedText s) (isRecording s) (status s) (isTranslating s)
    (recognitionLang s) (connectionStatus s).

Definition with_inputText (v : jsstring) (s : RState) : RState :=
  mkRState (translationMode s) (currentRole s) v (originalText s)
    (translatedText s) (isRecording s) (status s) (isTranslating s)
    (recognitionLang s) (connectionStatus s).

Definition with_originalText (v : jsstring) (s : RState) : RState :=
  mkRState (translationMode s) (currentRole s) (inputText s) v
    (translatedText s) (isRecording s) (status s) (isTranslating s)
    (recognitionLang s) (connectionStatus s).

Definition with_translatedText (v : jsstring) (s : RState) : RState :=
  mkRState (translationMode s) (currentRole s) (inputText s)
    (originalText s) v (isRecording s) (status s) (isTranslating s)
    (recognitionLang s) (connectionStatus s).

Definition with_isRecording (v : bool) (s : RState) : RState :=
  mkRState (translationMode s) (currentRole s) (inputText s)
    (originalText s) (translatedText s) v (status s) (isTranslating s)
    (recognitionLang s) (connectionStatus s).

Definition with_status (v : jsstring) (s : RState) : RState :=
  mkRState (translationMode s) (currentRole s) (inputText s)
    (originalText s) (translatedText s) (isRecording s) v (isTranslating s)
    (recognitionLang s) (connectionStatus s).

Definition with_isTranslating (v : bool) (s : RState) : RState :=
  mkRState (translationMode s) (currentRole s) (inputText s)
    (originalText s) (translatedText s) (isRecording s) (status s) v
    (recognitionLang s) (connectionStatus s).

Definition with_recognitionLang (v : jsstring) (s : RState) : RState :=
  mkRState (translationMode s) (currentRole s) (inputText s)
    (originalText s) (translatedText s) (isRecording s) (status s)
    (isTranslating s) v (connectionStatus s).

Definition with_connectionStatus (v : ConnectionStatus) (s : RState) : RState :=
  mkRState (translationMode s) (currentRole s) (inputText s)
    (originalText s) (translatedText s) (isRecording s) (status s)
    (isTranslating s) (recognitionLang s) v.

(** ** Runtime objects *)

(** A [SpeechRecognition] instance.  [rec_onend_isRecording] is the value
    of [isRecording] in the render whose [initSpeechRecognition] built the
    instance: the [onend] closure reads that constant, not the state. *)
Record Recognizer := mkRecognizer {
  rec_lang : jsstring;
  rec_onend_isRecording : bool;
  rec_started : bool;
  rec_stop_requested : bool
}.

(** What a rejected promise carries. *)
Record JsError := mkError { err_name : jsstring; err_message : jsstring }.

(** How an awaited call settles. *)
Inductive Settled (A : Type) :=
| Fulfilled (body : A)
| Rejected (e : JsError).
Arguments Fulfilled {A} body.
Arguments Rejected {A} e.

(** Parsed response bodies; [None] is an absent field.  The services
    declare both fields as strings. *)
Record DetectBody := mkDetectBody { detected_language : option jsstring }.
Record TranslateBody := mkTranslateBody { translated_text : option jsstring }.

(** A suspended invocation of [performTranslation], at one of its two
    awaits, with the locals its continuation reads. *)
Inductive Task :=
| AwaitDetect (text : jsstring)
| AwaitTranslate (text fromLang toLang : jsstring) (signal : nat).

(** Requests sent to the translation service. *)
Inductive NetCall :=
| GetHealth
| PostDetect (text : jsstring)
| PostTranslate (text source_language target_language : jsstring)
    (signal : nat).

(** What a [setTimeout] callback of the hook does. *)
Inductive TimerAction :=
| TDebounce (snap : RState) (text : jsstring)
| TReconnect.

Record Timer := mkTimer { t_id : nat; t_due : N; t_action : TimerAction }.

(** A call of [speechSynthesis.speak], immediate or deferred to
    [voiceschanged]. *)
Record Utterance := mkUtterance {
  u_text : jsstring; u_lang : jsstring; u_deferred : bool
}.

(** Capabilities of the page, fixed for its lifetime. *)
Record Env := mkEnv {
  hasSpeechRecognition : bool;
  hasSpeechSynthesis : bool;
  voicesLoaded : bool;
  wsConstructorThrows : bool
}.

Record World := mkWorld {
  st : RState;
  env : Env;
  (** [recognitionRef] and the recognizers ever built *)
  recognizers : list Recognizer;
  recognitionRef : option nat;
  (** [websocketRef] and the number of sockets ever built *)
  socketsCreated : nat;
  websocketRef : option nat;
  (** [abortControllerRef] and the [aborted] flag of every controller *)
  controllers : list bool;
  abortControllerRef : option nat;
  reconnectAttemptsRef : nat;
  reconnectTimeoutRef : option nat;
  (** clock in milliseconds and pending timers, oldest first *)
  now : N;
  timers : list Timer;
  nextTimer : nat;
  (** timer that the cleanup of the last [originalText] effect clears *)
  debounceCleanup : option nat;
  (** suspended [performTranslation] invocations, by invocation number *)
  tasks : list (option Task);
  fetchLog : list NetCall;
  spoken : list Utterance
}.
(** Functional record update for [World], one per field. *)

Definition put_st (v : RState) (w : World) : World :=
  mkWorld v (env w) (recognizers w) (recognitionRef w) (socketsCreated w)
    (websocketRef w) (controllers w) (abortControllerRef w)
    (reconnectAttemptsRef w) (reconnectTimeoutRef w) (now w) (timers w)
    (nextTimer w) (debounceCleanup w) (tasks w) (fetchLog w) (spoken w).

Definition put_env (v : Env) (w : World) : World :=
  mkWorld (st w) v (recognizers w) (recognitionRef w) (socketsCreated w)
    (websocketRef w) (controllers w) (abortControllerRef w)
    (reconnectAttemptsRef w) (reconnectTimeoutRef w) (now w) (timers w)
    (nextTimer w) (debounceCleanup w) (tasks w) (fetchLog w) (spoken w).

Definition put_recognizers (v : list Recognizer) (w : World) : World :=
  mkWorld (st w) (env w) v (recognitionRef w) (socketsCreated w)
    (websocketRef w) (controllers w) (abortControllerRef w)
    (reconnectAttemptsRef w) (reconnectTimeoutRef w) (now w) (timers w)
    (nextTimer w) (debounceCleanup w) (tasks w) (fetchLog w) (spoken w).

Definition put_recognitionRef (v : option nat) (w : World) : World :=
  mkWorld (st w) (env w) (recognizers w) v (socketsCreated w)
    (websocketRef w) (controllers w) (abortControllerRef w)
    (reconnectAttemptsRef w) (reconnectTimeoutRef w) (now w) (timers w)
    (nextTimer w) (debounceCleanup w) (tasks w) (fetchLog w) (spoken w).

Definition put_socketsCreated (v : nat) (w : World) : World :=
  mkWorld (st w) (env w) (recognizers w) (recognitionRef w) v
    (websocketRef w) (controllers w) (abortControllerRef w)
    (reconnectAttemptsRef w) (reconnectTimeoutRef w) (now w) (timers w)
    (nextTimer w) (debounceCleanup w) (tasks w) (fetchLog w) (spoken w).

Definition put_websocketRef (v : option nat) (w : World) : World :=
  mkWorld (st w) (env w) (recognizers w) (recognitionRef w)
    (socketsCreated w) v (controllers w) (abortControllerRef w)
    (reconnectAttemptsRef w) (reconnectTimeoutRef w) (now w) (timers w)
    (nextTimer w) (debounceCleanup w) (tasks w) (fetchLog w) (spoken w).

Definition put_controllers (v : list bool) (w : World) : World :=
  mkWorld (st w) (env w) (recognizers w) (recognitionRef w)
    (socketsCreated w) (websocketRef w) v (abortControllerRef w)
    (reconnectAttemptsRef w) (reconnectTimeoutRef w) (now w) (timers w)
    (nextTimer w) (debounceCleanup w) (tasks w) (fetchLog w) (spoken w).

Definition put_abortControllerRef (v : option nat) (w : World) : World :=
  mkWorld (st w) (env w) (recognizers w) (recognitionRef w)
    (socketsCreated w) (websocketRef w) (controllers w) v
    (reconnectAttemptsRef w) (reconnectTimeoutRef w) (now w) (timers w)
    (nextTimer w) (debounceCleanup w) (tasks w) (fetchLog w) (spoken w).

Definition put_reconnectAttemptsRef (v : nat) (w : World) : World :=
  mkWorld (st w) (env w) (recognizers w) (recognitionRef w)
    (socketsCreated w) (websocketRef w) (controllers w)
    (abortControllerRef w) v (reconnectTimeoutRef w) (now w) (timers w)
    (nextTimer w) (debounceCleanup w) (tasks w) (fetchLog w) (spoken w).

Definition put_reconnectTimeoutRef (v : option nat) (w : World) : World :=
  mkWorld (st w) (env w) (recognizers w) (recognitionRef w)
    (socketsCreated w) (websocketRef w) (controllers w)
    (abortControllerRef w) (reconnectAttemptsRef w) v (now w) (timers w)
    (nextTimer w) (debounceCleanup w) (tasks w) (fetchLog w) (spoken w).

Definition put_now (v : N) (w : World) : World :=
  mkWorld (st w) (env w) (recognizers w) (recognitionRef w)
    (socketsCreated w) (websocketRef w) (controllers w)
    (abortControllerRef w) (reconnectAttemptsRef w) (reconnectTimeoutRef w)
    v (timers w) (nextTimer w) (debounceCleanup w) (tasks w) (fetchLog w)
    (spoken w).

Definition put_timers (v : list Timer) (w : World) : World :=
  mkWorld (st w) (env w) (recognizers w) (recognitionRef w)
    (socketsCreated w) (websocketRef w) (controllers w)
    (abortControllerRef w) (reconnectAttemptsRef w) (reconnectTimeoutRef w)
    (now w) v (nextTimer w) (debounceCleanup w) (tasks w) (fetchLog w)
    (spoken w).

Definition put_nextTimer (v : nat) (w : World) : World :=
  mkWorld (st w) (env w) (recognizers w) (recognitionRef w)
    (socketsCreated w) (websocketRef w) (controllers w)
    (abortControllerRef w) (reconnectAttemptsRef w) (reconnectTimeoutRef w)
    (now w) (timers w) v (debounceCleanup w) (tasks w) (fetchLog w)
    (spoken w).

Definition put_debounceCleanup (v : option nat) (w : World) : World :=
  mkWorld (st w) (env w) (recognizers w) (recognitionRef w)
    (socketsCreated w) (websocketRef w) (controllers w)
    (abortControllerRef w) (reconnectAttemptsRef w) (reconnectTimeoutRef w)
    (now w) (timers w) (nextTimer w) v (tasks w) (fetchLog w) (spoken w).

Definition put_tasks (v : list (option Task)) (w : World) : World :=
  mkWorld (st w) (env w) (recognizers w) (recognitionRef w)
    (socketsCreated w) (websocketRef w) (controllers w)
    (abortControllerRef w) (reconnectAttemptsRef w) (reconnectTimeoutRef w)
    (now w) (timers w) (nextTimer w) (debounceCleanup w) v (fetchLog w)
    (spoken w).

Definition put_fetchLog (v : list NetCall) (w : World) : World :=
  mkWorld (st w) (env w) (recognizers w) (recognitionRef w)
    (socketsCreated w) (websocketRef w) (controllers w)
    (abortControllerRef w) (reconnectAttemptsRef w) (reconnectTimeoutRef w)
    (now w) (timers w) (nextTimer w) (debounceCleanup w) (tasks w) v
    (spoken w).

Definition put_spoken (v : list Utterance) (w : World) : World :=
  mkWorld (st w) (env w) (recognizers w) (recognitionRef w)
    (socketsCreated w) (websocketRef w) (controllers w)
    (abortControllerRef w) (reconnectAttemptsRef w) (reconnectTimeoutRef w)
    (now w) (timers w) (nextTimer w) (debounceCleanup w) (tasks w)
    (fetchLog w) v.

(** The world in which the component mounts. *)
Definition initial_world (e : Env) : World :=
  {| st := initial_state; env := e;
     recognizers := []; recognitionRef := None;
     socketsCreated := 0; websocketRef := None;
     controllers := []; abortControllerRef := None;
     reconnectAttemptsRef := 0; reconnectTimeoutRef := None;
     now := 0; timers := []; nextTimer := 0; debounceCleanup := None;
     tasks := []; fetchLog := []; spoken := [] |}.

(** ** State setters without effects *)

Definition setStatus (v : jsstring) (w : World) : World :=
  put_st (with_status v (st w)) w.
Definition setTranslatedText (v : jsstring) (w : World) : World :=
  put_st (with_translatedText v (st w)) w.
Definition setIsTranslating (v : bool) (w : World) : World :=
  put_st (with_isTranslating v (st w)) w.
Definition setIsRecording (v : bool) (w : World) : World :=
  put_st (with_isRecording v (st w)) w.
Definition setInputText (v : jsstring) (w : World) : World :=
  put_st (with_inputText v (st w)) w.
Definition setCurrentRole (v : Role) (w : World) : World :=
  put_st (with_currentRole v (st w)) w.
Definition setTranslationMode (v : TranslationMode) (w : World) : World :=
  put_st (with_translationMode v (st w)) w.
Definition setConnectionStatus (f : ConnectionStatus -> ConnectionStatus)
    (w : World) : World :=
  put_st (with_connectionStatus (f (connectionStatus (st w))) (st w)) w.

Definition with_ai (b : bool) (c : ConnectionStatus) : ConnectionStatus :=
  mkConn b (ws c) (speech c).
Definition with_ws (b : bool) (c : ConnectionStatus) : ConnectionStatus :=
  mkConn (ai c) b (speech c).
Definition with_speech (b : bool) (c : ConnectionStatus) : ConnectionStatus :=
  mkConn (ai c) (ws c) b.

(** ** Timers

    [setTimeout] appends to the heap, so the heap lists timers in creation
    order; [clearTimeout] of an id that already fired does nothing. *)

Definition setTimeout (a : TimerAction) (delay : N) (w : World)
    : nat * World :=
  let id := nextTimer w in
  (id, put_nextTimer (S id)
         (put_timers (timers w ++ [mkTimer id (now w + delay) a]) w)).

Definition clearTimeout (id : nat) (w : World) : World :=
  put_timers (List.filter (fun t => negb (Nat.eqb (t_id t) id)) (timers w)) w.

Definition timer_pending (id : nat) (w : World) : bool :=
  existsb (fun t => Nat.eqb (t_id t) id) (timers w).

(** ** Abort controllers *)

(** [controller.abort()] *)
Definition abort (c : nat) (w : World) : World :=
  put_controllers (<[c := true]> (controllers w)) w.

(** [controller.signal.aborted] *)
Definition aborted (c : nat) (w : World) : bool :=
  match controllers w !! c with Some b => b | None => false end.

(** [abortControllerRef.current = new AbortController()] *)
Definition newAbortController (w : World) : World :=
  put_abortControllerRef (Some (length (controllers w)))
    (put_controllers (controllers w ++ [false]) w).

(** ** Recognition locale (lines 61-65)

    [setRecognitionLang] re-renders when the value changes, and the effect
    on [recognitionLang] then copies it into the live recognizer. *)

Definition recognizer_put_lang (l : jsstring) (r : Recognizer) : Recognizer :=
  mkRecognizer l (rec_onend_isRecording r) (rec_started r)
    (rec_stop_requested r).

Definition recognitionLang_effect (w : World) : World :=
  match recognitionRef w with
  | Some r =>
      put_recognizers
        (alter (recognizer_put_lang (recognitionLang (st w))) r
           (recognizers w)) w
  | None => w
  end.

Definition setRecognitionLang (l : jsstring) (w : World) : World :=
  if decide (recognitionLang (st w) = l) then w
  else recognitionLang_effect (put_st (with_recognitionLang l (st w)) w).

(** ** Translation pipeline (lines 176-270) *)

(** [detectLanguage]: what the awaited call evaluates to.
    [result.detected_language || 'RU'], and ['RU'] from the [catch]. *)
Definition detectLanguage (r : Settled DetectBody) : jsstring :=
  match r with
  | Fulfilled b =>
      match detected_language b with
      | Some s => if Js.truthy s then s else Str.RU
      | None => Str.RU
      end
  | Rejected _ => Str.RU
  end.

(** Lines 211-217: the pair chosen from a detection result. *)
Definition autoPair (detected : jsstring) : jsstring * jsstring :=
  if decide (detected = Str.RU) then (Str.RU, Str.DE) else (detected, Str.RU).

(** Lines 219-220: the pair chosen from the role. *)
Definition manualPair (r : Role) : jsstring * jsstring :=
  (if decide (r = user) then Str.RU else Str.DE,
   if decide (r = user) then Str.DE else Str.RU).

(** The [finally] block. *)
Definition finalize (w : World) : World := setIsTranslating false w.

(** The [catch] block, followed by [finally]. *)
Definition onTranslationError (e : JsError) (w : World) : World :=
  if decide (err_name e = Str.AbortError) then finalize w
  else
    finalize
      (setTranslatedText (Str.failure_prefix ++ err_message e)
         (setStatus Str.translation_failed w)).

Definition put_task (tid : nat) (t : option Task) (w : World) : World :=
  if decide (tid < length (tasks w)) then put_tasks (<[tid := t]> (tasks w)) w
  else put_tasks (tasks w ++ [t]) w.

(** Reading [.signal] of an empty ref throws; the ref is never emptied
    once a call has passed the guard. *)
Definition nullSignal : JsError :=
  mkError (Js.lit "TypeError")
    (Js.lit "Cannot read properties of null (reading 'signal')").

(** Lines 223-232: the translate request is sent with the signal of the
    controller that [abortControllerRef] holds when this line runs, and the
    invocation suspends. *)
Definition sendTranslate (tid : nat) (text fromLang toLang : jsstring)
    (w : World) : World :=
  match abortControllerRef w with
  | Some c =>
      put_task tid (Some (AwaitTranslate text fromLang toLang c))
        (put_fetchLog
           (fetchLog w ++ [PostTranslate text fromLang toLang c]) w)
  | None =>
      onTranslationError nullSignal (put_task tid None w)
  end.

(** Lines 190-221, up to the first await.  [snap] is the render whose
    [performTranslation] is called. *)
Definition performTranslation (snap : RState) (text : jsstring) (w : World)
    : World :=
  if negb (Js.truthy (Js.trim text)) || (length text <? 3) then w
  else
    let w := match abortControllerRef w with
             | Some c => abort c w
             | None => w
             end in
    let w := newAbortController w in
    let w := setStatus Str.translating (setIsTranslating true w) in
    let tid := length (tasks w) in
    match translationMode snap with
    | auto =>
        put_task tid (Some (AwaitDetect text))
          (put_fetchLog (fetchLog w ++ [PostDetect text]) w)
    | manual =>
        let '(fromLang, toLang) := manualPair (currentRole snap) in
        sendTranslate tid text fromLang toLang w
    end.

(** Lines 208-217 and on: the continuation after [await detectLanguage]. *)
Definition detectSettled (tid : nat) (r : Settled DetectBody) (w : World)
    : World :=
  match tasks w !! tid with
  | Some (Some (AwaitDetect text)) =>
      let detected := detectLanguage r in
      let w :=
        setRecognitionLang
          (if decide (detected = Str.RU) then Str.ru_RU else Str.de_DE) w in
      let '(fromLang, toLang) := autoPair detected in
      sendTranslate tid text fromLang toLang w
  | _ => w
  end.

(** ASCII lower-casing; the source applies [toLowerCase] to ['RU'] and
    ['DE'] only. *)
Definition toLowerCase (s : jsstring) : jsstring :=
  map (fun c => if (65 <=? c) && (c <=? 90) then c + 32 else c)%N s.

(** Lines 241-259: playback of the result. *)
Definition speak (translation toLang : jsstring) (w : World) : World :=
  if hasSpeechSynthesis (env w) && Js.truthy translation then
    let lang := if decide (toLowerCase toLang = Js.lit "ru")
                then Str.ru_RU else Str.de_DE in
    put_spoken
      (spoken w
       ++ [mkUtterance translation lang (negb (voicesLoaded (env w)))]) w
  else w.

(** Lines 234-269: the continuation after the translate request settles.
    A request whose signal is aborted rejects with an [AbortError],
    whatever the service answered. *)
Definition translateSettled (tid : nat) (r : Settled TranslateBody)
    (w : World) : World :=
  match tasks w !! tid with
  | Some (Some (AwaitTranslate text fromLang toLang signal)) =>
      let w := put_task tid None w in
      let r := if aborted signal w
               then Rejected (mkError Str.AbortError []) else r in
      match r with
      | Fulfilled b =>
          let translation :=
            match translated_text b with
            | Some s => s
            | None => []
            end in
          finalize
            (speak translation toLang
               (setStatus (Str.translated fromLang toLang)
                  (setTranslatedText translation w)))
      | Rejected e => onTranslationError e w
      end
  | _ => w
  end.

(** Lines 340-344. *)
Definition translateText (snap : RState) (w : World) : World :=
  if Js.truthy (Js.trim (inputText snap))
  then performTranslation snap (Js.trim (inputText snap)) w
  else w.

(** ** Debounced translation of the utterance (lines 46-59)

    React runs the cleanup of the previous run of the effect, then the
    effect body of the new render.  The timer callback calls the
    [performTranslation] of that render. *)

Definition debounce_ms : N := 500.

Definition originalText_effect (w : World) : World :=
  let w := match debounceCleanup w with
           | Some id => put_debounceCleanup None (clearTimeout id w)
           | None => w
           end in
  let text := originalText (st w) in
  if negb (Js.truthy text) || (length text <? 3) then
    if length text =? 0 then setTranslatedText [] w else w
  else
    let '(id, w) := setTimeout (TDebounce (st w) text) debounce_ms w in
    put_debounceCleanup (Some id) w.

(** [setOriginalText]: a state change re-renders and re-runs the effect;
    setting the value the state already has does neither. *)
Definition setOriginalText (text : jsstring) (w : World) : World :=
  if decide (originalText (st w) = text) then w
  else originalText_effect (put_st (with_originalText text (st w)) w).

(** ** Channel manager (lines 90-126) *)

Definition delays : list N := [1000; 2000; 5000; 10000; 30000]%N.

(** [delays[Math.min(reconnectAttemptsRef.current, delays.length - 1)]];
    the index is always in range, see [reconnectDelay_in_schedule]. *)
Definition reconnectDelay (attempts : nat) : N :=
  default 0%N (delays !! Nat.min attempts (length delays - 1)).

Definition scheduleReconnect (w : World) : World :=
  let delay := reconnectDelay (reconnectAttemptsRef w) in
  let w := setStatus (Str.reconnecting delay) w in
  let '(id, w) := setTimeout TReconnect delay w in
  put_reconnectTimeoutRef (Some id) w.

Definition initWebSocket (w : World) : World :=
  if wsConstructorThrows (env w) then
    scheduleReconnect (setConnectionStatus (with_ws false) w)
  else
    put_websocketRef (Some (socketsCreated w))
      (put_socketsCreated (S (socketsCreated w)) w).

Definition ws_onopen (w : World) : World :=
  setStatus Str.connected
    (put_reconnectAttemptsRef 0 (setConnectionStatus (with_ws true) w)).

Definition ws_onclose (w : World) : World :=
  scheduleReconnect (setConnectionStatus (with_ws false) w).

Definition ws_onerror (w : World) : World :=
  setConnectionStatus (with_ws false) w.

(** The callback of the reconnect timer (lines 122-125). *)
Definition reconnectNow (w : World) : World :=
  initWebSocket (put_reconnectAttemptsRef (S (reconnectAttemptsRef w)) w).

(** ** The event loop's clock

    A timer fires when the clock reaches its due time.  Every delay of the
    hook is positive, so a callback never creates a timer that is due in
    the tick that runs it. *)

Definition fire (t : Timer) (w : World) : World :=
  let w := clearTimeout (t_id t) w in
  match t_action t with
  | TDebounce snap text => performTranslation snap text w
  | TReconnect => reconnectNow w
  end.

Definition runDue (w : World) : World :=
  fold_left
    (fun w t => if timer_pending (t_id t) w then fire t w else w)
    (List.filter (fun t => (t_due t <=? now w)%N) (timers w)) w.

Definition tick (w : World) : World := runDue (put_now (now w + 1) w).

(** [ms] milliseconds pass with no other event. *)
Definition elapse (ms : nat) (w : World) : World := Nat.iter ms tick w.

(** ** Capture source (lines 128-174, 273-310) *)

Definition initSpeechRecognition (snap : RState) (w : World) : World :=
  if negb (hasSpeechRecognition (env w)) then
    setConnectionStatus (with_speech false) w
  else
    let r := mkRecognizer (recognitionLang snap) (isRecording snap)
               false false in
    setConnectionStatus (with_speech true)
      (put_recognitionRef (Some (length (recognizers w)))
         (put_recognizers (recognizers w ++ [r]) w)).

(** [recognition.start()] when it does not throw. *)
Definition recognizer_start (r : nat) (w : World) : World :=
  put_recognizers
    (alter (fun x => mkRecognizer (rec_lang x) (rec_onend_isRecording x)
                       true false) r (recognizers w)) w.

(** [recognition.stop()] asks the recognizer to end; the [end] event
    follows later. *)
Definition recognizer_stop (r : nat) (w : World) : World :=
  put_recognizers
    (alter (fun x => mkRecognizer (rec_lang x) (rec_onend_isRecording x)
                       (rec_started x) true) r (recognizers w)) w.

(** The recognizer has ended (the [end] event is being dispatched). *)
Definition recognizer_ended (r : nat) (w : World) : World :=
  put_recognizers
    (alter (fun x => mkRecognizer (rec_lang x) (rec_onend_isRecording x)
                       false false) r (recognizers w)) w.

Definition recognition_onstart (w : World) : World :=
  setStatus Str.recording (setConnectionStatus (with_speech true) w).

(** [results] are the transcripts [event.results[i][0].transcript]. *)
Definition recognition_onresult (results : list jsstring) (w : World)
    : World :=
  let transcript := concat results in
  if Js.truthy (Js.trim transcript) then setOriginalText transcript w else w.

Definition recognition_onerror (error : jsstring) (w : World) : World :=
  if negb (bool_decide (error = Str.no_speech))
     && negb (bool_decide (error = Str.audio_capture))
  then setStatus (Str.error_colon ++ error) w
  else w.

(** The [end] event of recognizer [r] and its [onend] handler (lines
    162-170).  The handler tests the [isRecording] of the render that built
    the recognizer; [throws] says whether [recognition.start()] throws. *)
Definition recognition_onend (r : nat) (throws : bool) (w : World) : World :=
  let w := recognizer_ended r w in
  match recognizers w !! r with
  | Some x =>
      if rec_onend_isRecording x then
        if throws then setIsRecording false w else recognizer_start r w
      else w
  | None => w
  end.

Definition startRecording (snap : RState) (throws : bool) (w : World)
    : World :=
  match recognitionRef w with
  | None => setStatus Str.no_microphone w
  | Some r =>
      if negb (speech (connectionStatus snap)) then
        setStatus Str.speech_not_ready w
      else
        let w := setStatus Str.recording (setIsRecording true w) in
        if throws then setIsRecording false w else recognizer_start r w
  end.

Definition stopRecording (w : World) : World :=
  let w := setStatus Str.stopped (setIsRecording false w) in
  match recognitionRef w with
  | Some r => recognizer_stop r w
  | None => w
  end.

Definition toggleRecording (snap : RState) (throws : bool) (w : World)
    : World :=
  if isRecording snap then stopRecording w else startRecording snap throws w.

(** ** Session controller (lines 67-79, 312-352) *)

Definition toggleTranslationMode (snap : RState) (w : World) : World :=
  let newMode := if decide (translationMode snap = manual)
                 then auto else manual in
  let w := setTranslationMode newMode w in
  let w := setStatus (if decide (newMode = auto)
                      then Str.auto_mode else Str.manual_mode) w in
  let newLang :=
    if decide (newMode = manual)
    then (if decide (currentRole snap = user) then Str.ru_RU else Str.de_DE)
    else Str.ru_RU in
  let changed := negb (bool_decide (recognitionLang (st w) = newLang)) in
  let w := put_st (with_recognitionLang newLang (st w)) w in
  let w := match recognitionRef w with
           | Some r =>
               recognizer_stop r
                 (put_recognizers
                    (alter (recognizer_put_lang newLang) r (recognizers w)) w)
           | None => w
           end in
  let w := initSpeechRecognition snap w in
  if changed then recognitionLang_effect w else w.

Definition handleRoleChange (snap : RState) (role : Role) (w : World)
    : World :=
  if decide (translationMode snap = manual) then
    let w := setCurrentRole role w in
    match recognitionRef w with
    | Some r =>
        put_recognizers
          (alter (recognizer_put_lang
                    (if decide (role = user) then Str.ru_RU else Str.de_DE))
             r (recognizers w)) w
    | None => w
    end
  else w.

Definition clearAll (w : World) : World :=
  let w := stopRecording w in
  let w := setInputText [] w in
  let w := setOriginalText [] w in
  setStatus Str.ready (setTranslatedText [] w).

(** [initSystem] after its [await checkAIServer()]: [healthy] is
    [response.ok], or [false] when the probe threw. *)
Definition initSystem (snap : RState) (healthy : bool) (w : World) : World :=
  let w := setConnectionStatus (with_ai healthy) w in
  let w := initWebSocket w in
  let w := initSpeechRecognition snap w in
  setStatus Str.ready w.

(** The component mounted in environment [e], its health probe answered. *)
Definition mounted (e : Env) (healthy : bool) : World :=
  initSystem initial_state healthy
    (put_fetchLog [GetHealth] (initial_world e)).

(** [websocketRef.current.close()] changes no field of the world; the
    socket's [close] event is a later [ws_onclose]. *)
Definition cleanup (w : World) : World :=
  let w := match recognitionRef w with
           | Some r => recognizer_stop r w
           | None => w
           end in
  let w := match reconnectTimeoutRef w with
           | Some id => clearTimeout id w
           | None => w
           end in
  match abortControllerRef w with
  | Some c => abort c w
  | None => w
  end.

(** ** Vocabulary of the statements *)

(** The guard of [performTranslation] (line 191) lets [text] through. *)
Definition accepted (text : jsstring) : bool :=
  Js.truthy (Js.trim text) && (3 <=? length text).

(** The world after the synchronous prefix of an accepted call: previous
    controller aborted, fresh controller installed, flags published. *)
Definition started (w : World) : World :=
  setStatus Str.translating
    (setIsTranslating true
       (newAbortController
          match abortControllerRef w with
          | Some c => abort c w
          | None => w
          end)).


(** The detection result as the service contract words it: the field of
    the response when it is a non-empty string, ["RU"] when the field is
    absent or empty or when the call failed. *)
Definition detectionResult (r : Settled DetectBody) : jsstring :=
  match r with
  | Fulfilled (mkDetectBody (Some (c :: s))) => c :: s
  | Fulfilled (mkDetectBody (Some [])) => Str.RU
  | Fulfilled (mkDetectBody None) => Str.RU
  | Rejected _ => Str.RU
  end.

(** The socket closes and the delay that was scheduled passes. *)
Definition connectionLost (w : World) : World :=
  elapse (N.to_nat (reconnectDelay (reconnectAttemptsRef w))) (ws_onclose w).

(** The request with which an accepted call reaches the service first:
    detection in auto mode, translation for the role's pair in manual
    mode. *)
Definition firstRequest (mode : TranslationMode) (role : Role)
    (text : jsstring) (c : nat) : NetCall :=
  match mode with
  | auto => PostDetect text
  | manual =>
      match role with
      | user => PostTranslate text Str.RU Str.DE c
      | steuerberater => PostTranslate text Str.DE Str.RU c
      end
  end.

(** A burst of utterance updates: each [(gap, text)] arrives [gap]
    milliseconds after the update before it. *)
Definition typeBurst (rest : list (nat * jsstring)) (w : World) : World :=
  fold_left (fun w u => setOriginalText u.2 (elapse u.1 w)) rest w.

(** Every update of the burst changes the text. *)
Fixpoint changing (prev : jsstring) (rest : list (nat * jsstring)) : Prop :=
  match rest with
  | [] => True
  | u :: rest => prev <> u.2 /\ changing u.2 rest
  end.

(** What a burst leaves alone. *)
Definition sameRequests (w0 w : World) : Prop :=
  fetchLog w = fetchLog w0 /\ controllers w = controllers w0
  /\ translationMode (st w) = translationMode (st w0)
  /\ currentRole (st w) = currentRole (st w0).

(** Right after an update to [text]: no timer for a short text, otherwise
    exactly the debounce timer for [text], due in 500 ms and registered
    for cleanup. *)
Definition debouncing (w0 : World) (text : jsstring) (w : World) : Prop :=
  sameRequests w0 w /\ originalText (st w) = text
  /\ (length text < 3 /\ timers w = []
      \/ exists id snap,
           3 <= length text
           /\ timers w = [mkTimer id (now w + 500) (TDebounce snap text)]
           /\ debounceCleanup w = Some id
           /\ translationMode snap = translationMode (st w0)
           /\ currentRole snap = currentRole (st w0)).

(** At most one controller is live, and it is the one in the ref. *)
Definition oneLiveToken (w : World) : Prop :=
  forall c, controllers w !! c = Some false -> abortControllerRef w = Some c.

(** ** Concrete scenarios *)

Module Scenario.

(** A browser with speech recognition and synthesis and a well-formed
    socket URL. *)
Definition browser : Env := mkEnv true true true false.

(** 'Привет' *)
Definition privet : jsstring := [1055; 1088; 1080; 1074; 1077; 1090]%N.

Definition hallo : jsstring := Js.lit "Hallo".

(** The page after mount, health probe answered. *)
Definition page : World := mounted browser true.

Definition detects (lang : jsstring) : Settled DetectBody :=
  Fulfilled (mkDetectBody (Some lang)).

Definition answers (translation : jsstring) : Settled TranslateBody :=
  Fulfilled (mkTranslateBody (Some translation)).

(** The service answers [{}]. *)
Definition emptyAnswer : Settled TranslateBody :=
  Fulfilled (mkTranslateBody None).

(** "Hallo" was translated in auto mode: the recognition locale is now
    "de-DE". *)
Definition afterHallo : World :=
  translateSettled 0 (answers privet)
    (detectSettled 0 (detects Str.DE)
       (performTranslation (st page) hallo page)).

(** Then "Привет" is submitted and detected as "RU". *)
Definition afterPrivetDetected : World :=
  detectSettled 1 (detects Str.RU)
    (performTranslation (st afterHallo) privet afterHallo).

(** With that translation on screen, "Hallo" is typed into the utterance
    box: a debounce timer is pending. *)
Definition typingHallo : World := setOriginalText hallo afterHallo.

(** The page in manual mode. *)
Definition manualPage : World := toggleTranslationMode (st page) page.

(** In manual mode with role [user], "Привет" is submitted and the service
    answers [{}]. *)
Definition afterEmptyAnswer : World :=
  translateSettled 0 emptyAnswer
    (performTranslation (st manualPage) privet manualPage).

(** *** Capture *)

(** Capture was started on the mounted page and the recognizer reported
    its start. *)
Definition recordingPage : World :=
  recognition_onstart (startRecording (st page) false page).

(** The recognizer then ends on its own. *)
Definition afterUnsolicitedEnd : World :=
  recognition_onend 0 false recordingPage.

(** While recording, the translation mode is toggled: recognizer 0 is
    asked to stop and recognizer 1 is built by the current render. *)
Definition toggledWhileRecording : World :=
  recognition_onend 0 false
    (toggleTranslationMode (st recordingPage) recordingPage).

(** The user stops, starts again (recognizer 1 starts), and stops. *)
Definition stoppedAgain : World :=
  let w := stopRecording toggledWhileRecording in
  let w := recognition_onstart (startRecording (st w) false w) in
  stopRecording w.

(** Recognizer 1 ends as asked and its [onend] handler runs. *)
Definition afterStopEnd : World := recognition_onend 1 false stoppedAgain.

(** *** Overlapping requests in auto mode *)

(** Request A ("Привет") is made and waits for detection. *)
Definition requestA : World := performTranslation (st page) privet page.

(** Request B ("Hallo") is made while A waits. *)
Definition requestB : World :=
  performTranslation (st requestA) hallo requestA.

(** Detection answers B, then A: both send their translate request. *)
Definition bothDetected : World :=
  detectSettled 0 (detects Str.RU) (detectSettled 1 (detects Str.DE) requestB).

(** The service answers B with "Привет". *)
Definition answeredB : World :=
  translateSettled 1 (answers privet) bothDetected.

(** The service then answers A with "Hallo". *)
Definition answeredA : World := translateSettled 0 (answers hallo) answeredB.

(** *** Typing *)

(** "Hal", "Hall", "Hallo" typed 120 ms and 200 ms apart. *)
Definition typedHallo : World :=
  typeBurst [(120, Js.lit "Hall"); (200, hallo)]
    (setOriginalText (Js.lit "Hal") page).

(** The socket opened, then the connection failed six times in a row. *)
Definition sixFailures : World :=
  Nat.iter 6 connectionLost (ws_onopen page).

End Scenario.

(** ** The hook as one machine

    Everything that can happen to the hook, as one event type.  The
    snapshot of an event is the render whose function is called: handlers
    may be called from any render React has produced, a stale one
    included. *)

Inductive Event :=
| Tick
| SetOriginalText (text : jsstring)
| SetInputText (text : jsstring)
| SetRecognitionLang (lang : jsstring)
| PerformTranslation (snap : RState) (text : jsstring)
| TranslateText (snap : RState)
| DetectSettled (tid : nat) (r : Settled DetectBody)
| TranslateSettled (tid : nat) (r : Settled TranslateBody)
| WsOpen
| WsClose
| WsError
| RecognitionStart
| RecognitionResult (results : list jsstring)
| RecognitionError (error : jsstring)
| RecognitionEnd (r : nat) (throws : bool)
| StartRecording (snap : RState) (throws : bool)
| StopRecording
| ToggleRecording (snap : RState) (throws : bool)
| ToggleTranslationMode (snap : RState)
| HandleRoleChange (snap : RState) (role : Role)
| ClearAll
| Cleanup.

Definition handle (ev : Event) (w : World) : World :=
  match ev with
  | Tick => tick w
  | SetOriginalText text => setOriginalText text w
  | SetInputText text => setInputText text w
  | SetRecognitionLang lang => setRecognitionLang lang w
  | PerformTranslation snap text => performTranslation snap text w
  | TranslateText snap => translateText snap w
  | DetectSettled tid r => detectSettled tid r w
  | TranslateSettled tid r => translateSettled tid r w
  | WsOpen => ws_onopen w
  | WsClose => ws_onclose w
  | WsError => ws_onerror w
  | RecognitionStart => recognition_onstart w
  | RecognitionResult results => recognition_onresult results w
  | RecognitionError error => recognition_onerror error w
  | RecognitionEnd r throws => recognition_onend r throws w
  | StartRecording snap throws => startRecording snap throws w
  | StopRecording => stopRecording w
  | ToggleRecording snap throws => toggleRecording snap throws w
  | ToggleTranslationMode snap => toggleTranslationMode snap w
  | HandleRoleChange snap role => handleRoleChange snap role w
  | ClearAll => clearAll w
  | Cleanup => cleanup w
  end.

Definition run (evs : list Event) (w : World) : World :=
  fold_left (fun w ev => handle ev w) evs w.

(** The worlds the mounted hook can be in. *)
Definition reachable (w : World) : Prop :=
  exists e healthy evs, w = run evs (mounted e healthy).

(** *** Invariants *)

(** The slot and the controllers: the ref points into the heap, only the
    controller in the ref can be live, every waiting invocation has a
    controller in the ref, and every signal in use exists. *)
Definition tokensOk (w : World) : Prop :=
  (forall c, abortControllerRef w = Some c -> c < length (controllers w))
  /\ oneLiveToken w
  /\ (forall tid t,
        tasks w !! tid = Some (Some t) -> is_Some (abortControllerRef w))
  /\ (forall tid text fromLang toLang signal,
        tasks w !! tid
        = Some (Some (AwaitTranslate text fromLang toLang signal)) ->
        signal < length (controllers w)).

Definition isTargetLang (l : jsstring) : Prop := l = Str.RU \/ l = Str.DE.

Definition callOk (c : NetCall) : Prop :=
  match c with
  | GetHealth => True
  | PostDetect text => accepted text = true
  | PostTranslate text source target _ =>
      accepted text = true /\ source <> [] /\ isTargetLang target
  end.

Definition taskOk (t : option Task) : Prop :=
  match t with
  | None => True
  | Some (AwaitDetect text) => accepted text = true
  | Some (AwaitTranslate text fromLang toLang _) =>
      accepted text = true /\ fromLang <> [] /\ isTargetLang toLang
  end.

Definition utteranceOk (u : Utterance) : Prop :=
  u_text u <> [] /\ (u_lang u = Str.ru_RU \/ u_lang u = Str.de_DE).

(** Everything sent, waiting or spoken is well formed. *)
Definition requestsOk (w : World) : Prop :=
  Forall callOk (fetchLog w) /\ Forall taskOk (tasks w)
  /\ Forall utteranceOk (spoken w).

Definition isDebounce (t : Timer) : bool :=
  match t_action t with TDebounce _ _ => true | TReconnect => false end.

(** The debounce machinery's data. *)
Definition timerView (w : World) :=
  (timers w, nextTimer w, debounceCleanup w, originalText (st w)).

(** The timer heap: ids are distinct and below the next id, and a pending
    debounce timer is the one the effect registered, for the current
    utterance. *)
Definition timersOkView (v : list Timer * nat * option nat * jsstring)
    : Prop :=
  let '(ts, next, registered, utterance) := v in
  NoDup (map t_id ts)
  /\ Forall (fun t => t_id t < next) ts
  /\ (forall t snap text,
        In t ts -> t_action t = TDebounce snap text ->
        registered = Some (t_id t)
        /\ text = utterance /\ 3 <= length text).

Definition timersOk (w : World) : Prop := timersOkView (timerView w).

(** The pipeline's data: controllers, slot, invocations, requests,
    playback. *)
Definition pipelineView (w : World) :=
  (controllers w, abortControllerRef w, tasks w, fetchLog w, spoken w).


(** *** Event traces for the scenarios *)

Module Trace.

(** Requests A and B overlap in auto mode and both are detected. *)
Definition overlap : list Event :=
  [PerformTranslation (st Scenario.page) Scenario.privet;
   PerformTranslation (st Scenario.requestA) Scenario.hallo;
   DetectSettled 1 (Scenario.detects Str.DE);
   DetectSettled 0 (Scenario.detects Str.RU)].

(** "Hallo" is translated and spoken, then the page is torn down while
    "Привет" waits for detection. *)
Definition tornDown : list Event :=
  [PerformTranslation (st Scenario.page) Scenario.hallo;
   DetectSettled 0 (Scenario.detects Str.DE);
   TranslateSettled 0 (Scenario.answers Scenario.privet);
   PerformTranslation (st Scenario.page) Scenario.privet;
   Cleanup].

(** The socket closes, then "Hallo" is typed. *)
Definition typingOffline : list Event :=
  [WsClose; SetOriginalText (Js.lit "Hal"); Tick;
   SetOriginalText Scenario.hallo].

End Trace.

(** *** More scenarios *)

Module Scenario2.

(** In manual mode "Привет" is sent, then "Hallo" is submitted. *)
Definition manualA : World :=
  performTranslation (st Scenario.manualPage) Scenario.privet
    Scenario.manualPage.


(** The service fails with a network error. *)
Definition networkError : JsError :=
  mkError (Js.lit "TypeError") (Js.lit "Failed to fetch").

End Scenario2.

(** While the socket constructor keeps throwing, the pending reconnect
    timer is waited out. *)
Definition awaitRetry (w : World) : World :=
  elapse (N.to_nat (reconnectDelay (reconnectAttemptsRef w))) w.

(** The pending retry and what the failures so far have left. *)
Definition retrying (a sockets : nat) (socket : option nat) (w : World)
    : Prop :=
  reconnectAttemptsRef w = a
  /\ (exists id,
        timers w = [mkTimer id (now w + reconnectDelay a) TReconnect]
        /\ reconnectTimeoutRef w = Some id)
  /\ socketsCreated w = sockets /\ websocketRef w = socket
  /\ ws (connectionStatus (st w)) = false.


(** * The page (components/Dashboard/DualTranslator.tsx)

    The component calls the hook and adds state of its own: the dialect
    shown, the index into the dialect cycle, the room, the conversation
    history.  An event's state updates, those of the effects they trigger
    included, are applied together and followed by one render; the
    component's effects then run against the render before.

    A handler registered by an effect is the function of the render that
    ran the effect.  The [keydown] effect depends on [dialectIndex] and
    [isRecording] only, so the handler on [window] calls the hook
    functions of the last render in which one of the two changed:
    [keyRender] is the hook state of that render. *)

Module PageStr.
Definition de_AT : jsstring := Js.lit "de-AT"%string.
Definition ru : jsstring := Js.lit "ru"%string.
(** 'Перевод появится здесь...' *)
Definition placeholder : jsstring :=
  [1055; 1077; 1088; 1077; 1074; 1086; 1076; 32; 1087; 1086; 1103; 1074;
   1080; 1090; 1089; 1103; 32; 1079; 1076; 1077; 1089; 1100; 46; 46; 46]%N.
(** 'RU → DE' *)
Definition RU_DE : jsstring := [82; 85; 32; 8594; 32; 68; 69]%N.
(** 'DE → RU' *)
Definition DE_RU : jsstring := [68; 69; 32; 8594; 32; 82; 85]%N.
End PageStr.

(** [String.prototype.startsWith] *)
Fixpoint startsWith (s prefix : jsstring) : bool :=
  match prefix, s with
  | [], _ => true
  | _ :: _, [] => false
  | c :: prefix', d :: s' => (c =? d)%N && startsWith s' prefix'
  end.

(** An entry of the conversation history; [e_timestamp] is the clock when
    the entry was made (the source renders it as hours and minutes). *)
Record Entry := mkEntry {
  e_speaker : jsstring;
  e_lang : jsstring;
  e_text : jsstring;
  e_translation : jsstring;
  e_timestamp : N
}.

Record Page := mkPage {
  hook : World;
  dialect : jsstring;
  dialectIndex : nat;
  isConnected : bool;
  roomCode : jsstring;
  username : jsstring;
  conversationHistory : list Entry;
  (** the hook state of the render whose [handleKeyDown] is registered *)
  keyRender : RState;
  (** [join_room] messages sent on the socket: room and user name *)
  joinsSent : list (jsstring * jsstring)
}.

Definition put_hook (v : World) (p : Page) : Page :=
  mkPage v (dialect p) (dialectIndex p) (isConnected p) (roomCode p)
    (username p) (conversationHistory p) (keyRender p) (joinsSent p).

Definition setDialect (v : jsstring) (p : Page) : Page :=
  mkPage (hook p) v (dialectIndex p) (isConnected p) (roomCode p)
    (username p) (conversationHistory p) (keyRender p) (joinsSent p).

Definition setDialectIndex (v : nat) (p : Page) : Page :=
  mkPage (hook p) (dialect p) v (isConnected p) (roomCode p)
    (username p) (conversationHistory p) (keyRender p) (joinsSent p).

Definition setIsConnected (v : bool) (p : Page) : Page :=
  mkPage (hook p) (dialect p) (dialectIndex p) v (roomCode p)
    (username p) (conversationHistory p) (keyRender p) (joinsSent p).

Definition setRoomCode (v : jsstring) (p : Page) : Page :=
  mkPage (hook p) (dialect p) (dialectIndex p) (isConnected p) v
    (username p) (conversationHistory p) (keyRender p) (joinsSent p).

Definition setUsername (v : jsstring) (p : Page) : Page :=
  mkPage (hook p) (dialect p) (dialectIndex p) (isConnected p) (roomCode p)
    v (conversationHistory p) (keyRender p) (joinsSent p).

Definition setConversationHistory (f : list Entry -> list Entry) (p : Page)
    : Page :=
  mkPage (hook p) (dialect p) (dialectIndex p) (isConnected p) (roomCode p)
    (username p) (f (conversationHistory p)) (keyRender p) (joinsSent p).

Definition put_keyRender (v : RState) (p : Page) : Page :=
  mkPage (hook p) (dialect p) (dialectIndex p) (isConnected p) (roomCode p)
    (username p) (conversationHistory p) v (joinsSent p).

Definition put_joinsSent (v : list (jsstring * jsstring)) (p : Page) : Page :=
  mkPage (hook p) (dialect p) (dialectIndex p) (isConnected p) (roomCode p)
    (username p) (conversationHistory p) (keyRender p) v.

(** A hook function called on the page's hook. *)
Definition on_hook (f : World -> World) (p : Page) : Page :=
  put_hook (f (hook p)) p.

Definition dialects : list jsstring :=
  [Str.de_DE; PageStr.de_AT; Str.ru_RU].

(** The page after mount, health probe answered: the first render
    registered the key handler. *)
Definition mountedPage (e : Env) (healthy : bool) : Page :=
  {| hook := mounted e healthy;
     dialect := recognitionLang initial_state;
     dialectIndex := 0;
     isConnected := false; roomCode := []; username := [];
     conversationHistory := [];
     keyRender := initial_state;
     joinsSent := [] |}.

(** Lines 47-59.  [open] says whether the socket in the ref is in state
    [OPEN]. *)
Definition handleJoinRoom (code name : jsstring) (open : bool) (p : Page)
    : Page :=
  let p := setUsername name (setRoomCode code p) in
  if match websocketRef (hook p) with Some _ => open | None => false end
  then setIsConnected true (put_joinsSent (joinsSent p ++ [(code, name)]) p)
  else p.

(** *** Hotkeys (lines 62-107) *)

Inductive KeyCode := Enter | KeyL | Escape | OtherKey.

#[global] Instance KeyCode_eq_dec : EqDecision KeyCode.
Proof. solve_decision. Defined.

Record KeyboardEvent := mkKey {
  k_code : KeyCode;
  (** [e.target.tagName === 'TEXTAREA'] *)
  k_textarea : bool;
  k_shift : bool;
  k_ctrl : bool;
  k_meta : bool
}.

(** The registered [handleKeyDown].  The hook functions it calls are
    those of [keyRender]; [dialectIndex] is a dependency of the effect, so
    the handler holds the current one.  [dialects[nextIndex]] is always in
    range, see [nextIndex_in_range]. *)
Definition handleKeyDown (e : KeyboardEvent) (throws : bool) (p : Page)
    : Page :=
  let isEnter := bool_decide (k_code e = Enter) in
  if isEnter && negb (k_textarea e) then
    on_hook (toggleRecording (keyRender p) throws) p
  else if isEnter && k_textarea e && k_shift e then
    p
  else if isEnter && k_textarea e && (k_ctrl e || k_meta e) then
    on_hook (translateText (keyRender p)) p
  else if bool_decide (k_code e = KeyL) && (k_ctrl e || k_meta e) then
    let nextIndex := (dialectIndex p + 1) mod length dialects in
    let p := setDialectIndex nextIndex p in
    let newDialect := default [] (dialects !! nextIndex) in
    let p := setDialect newDialect p in
    on_hook (setRecognitionLang newDialect) p
  else if bool_decide (k_code e = Escape) then
    on_hook stopRecording p
  else p.

(** *** Effects *)

(** The history effect (lines 109-123), run by a render in which
    [translatedText] changed. *)
Definition historyEffect (p : Page) : Page :=
  let s := st (hook p) in
  if Js.truthy (translatedText s)
     && negb (bool_decide (translatedText s = PageStr.placeholder))
     && Js.truthy (originalText s)
  then
    let newEntry :=
      mkEntry (if Js.truthy (username p) then username p
               else if startsWith (dialect p) PageStr.ru then Str.RU
                    else Str.DE)
        (dialect p) (originalText s) (translatedText s) (now (hook p)) in
    setConversationHistory
      (fun prev =>
         if (0 <? length prev)
            && match prev !! (length prev - 1) with
               | Some last => bool_decide (e_text last = originalText s)
               | None => false
               end
         then prev else prev ++ [newEntry])
      p
  else p.

(** The render after an event and its effects: [before] is the page as
    last rendered, [after] the page with the event's updates.  The effects
    run in the order of the source: key handler, history, dialect. *)
Definition commit (before after : Page) : Page :=
  let s0 := st (hook before) in
  let s := st (hook after) in
  let p :=
    if bool_decide (dialectIndex after = dialectIndex before)
       && Bool.eqb (isRecording s) (isRecording s0)
    then after else put_keyRender s after in
  let p :=
    if bool_decide (translatedText s = translatedText s0) then p
    else historyEffect p in
  if bool_decide (recognitionLang s = recognitionLang s0) then p
  else setDialect (recognitionLang s) p.

(** Line 144. *)
Definition getLanguageDirection (p : Page) : jsstring :=
  if startsWith (dialect p) PageStr.ru then PageStr.RU_DE else PageStr.DE_RU.

(** *** The page as one machine *)

(** What the platform calls back: timers, settled requests, socket and
    recognizer events. *)
Inductive Callback :=
| TimePasses
| Detected (tid : nat) (r : Settled DetectBody)
| Translated (tid : nat) (r : Settled TranslateBody)
| SocketOpen
| SocketClose
| SocketError
| CaptureStart
| CaptureResult (results : list jsstring)
| CaptureError (error : jsstring)
| CaptureEnd (r : nat) (throws : bool).

Definition callbackEvent (c : Callback) : Event :=
  match c with
  | TimePasses => Tick
  | Detected tid r => DetectSettled tid r
  | Translated tid r => TranslateSettled tid r
  | SocketOpen => WsOpen
  | SocketClose => WsClose
  | SocketError => WsError
  | CaptureStart => RecognitionStart
  | CaptureResult results => RecognitionResult results
  | CaptureError error => RecognitionError error
  | CaptureEnd r throws => RecognitionEnd r throws
  end.

(** What happens to the page.  The Start/Stop button is disabled while
    [connectionStatus.speech] is false, and the room form is shown only
    while [isConnected] is false. *)
Inductive PageEvent :=
| Platform (c : Callback)
| KeyDown (e : KeyboardEvent) (throws : bool)
| ClickToggle (throws : bool)
| ClickClear
| Typed (text : jsstring)
| JoinRoom (code name : jsstring) (open : bool).

(** The handler of an event, before the render. *)
Definition dispatch (ev : PageEvent) (p : Page) : Page :=
  match ev with
  | Platform c => on_hook (handle (callbackEvent c)) p
  | KeyDown e throws => handleKeyDown e throws p
  | ClickToggle throws =>
      if speech (connectionStatus (st (hook p)))
      then on_hook (toggleRecording (st (hook p)) throws) p
      else p
  | ClickClear => on_hook clearAll p
  | Typed text => on_hook (setOriginalText text) p
  | JoinRoom code name open =>
      if isConnected p then p else handleJoinRoom code name open p
  end.

Definition pageStep (ev : PageEvent) (p : Page) : Page :=
  commit p (dispatch ev p).

Definition pageRun (evs : list PageEvent) (p : Page) : Page :=
  fold_left (fun p ev => pageStep ev p) evs p.

Definition pageReachable (p : Page) : Prop :=
  exists e healthy evs, p = pageRun evs (mountedPage e healthy).

(** What the page never changes of the hook: mode, role and input. *)
Definition settingsView (w : World) :=
  (translationMode (st w), currentRole (st w), inputText (st w)).

(** The recognizer in the ref and the platform. *)
Definition captureView (w : World) := (recognitionRef w, env w).

Definition capturing (w : World) : bool := isRecording (st w).

(** Every entry pairs a non-empty text with a non-empty translation that
    is not the placeholder. *)
Definition entryOk (e : Entry) : Prop :=
  e_text e <> [] /\ e_translation e <> []
  /\ e_translation e <> PageStr.placeholder.

(** No entry of the history repeats the text of the entry before it. *)
Definition historyOk (h : list Entry) : Prop :=
  Forall entryOk h
  /\ (forall i e1 e2,
        h !! i = Some e1 -> h !! S i = Some e2 -> e_text e1 <> e_text e2).

(** The key presses of the source's comments. *)
Definition pressEnter : KeyboardEvent := mkKey Enter false false false false.
Definition pressCtrlL : KeyboardEvent := mkKey KeyL false false true false.
Definition pressCtrlEnterInTextarea : KeyboardEvent :=
  mkKey Enter true false true false.

(** Whether speech capture was found available. *)
Definition speechReady (w : World) : bool :=
  speech (connectionStatus (st w)).

(** The invariant of the page. *)
Definition pageOk (p : Page) : Prop :=
  settingsView (hook p) = (auto, user, [])
  /\ inputText (keyRender p) = []
  /\ isRecording (keyRender p) = isRecording (st (hook p))
  /\ dialect p = recognitionLang (st (hook p))
  /\ dialectIndex p < length dialects.

(** An event after which the key handler may be registered anew: the
    Start/Stop button, and the dialect hotkey. *)
Definition mayRebind (ev : PageEvent) : bool :=
  match ev with
  | ClickToggle _ => true
  | KeyDown e _ => bool_decide (k_code e = KeyL) && (k_ctrl e || k_meta e)
  | _ => false
  end.

(** The key handler on [window] is still the one of the first render. *)
Definition firstHandler (e : Env) (p : Page) : Prop :=
  keyRender p = initial_state /\ capturing (hook p) = false
  /\ dialectIndex p = 0
  /\ captureView (hook p)
     = (if hasSpeechRecognition e then Some 0 else None, e)
  /\ (hasSpeechRecognition e = true -> speechReady (hook p) = true).

Module PageScenario.

(** "Hallo" is typed into the textarea, the debounce delay passes,
    detection answers "DE" and the service answers "Привет". *)
Definition translatedHallo : Page :=
  pageRun
    ([Typed Scenario.hallo] ++ repeat (Platform TimePasses) 500
     ++ [Platform (Detected 0 (Scenario.detects Str.DE));
         Platform (Translated 0 (Scenario.answers Scenario.privet))])
    (mountedPage Scenario.browser true).

(** Typing, a tick, the dialect hotkey, the Start button and the clear
    button. *)
Definition busy : list PageEvent :=
  [Typed Scenario.hallo; Platform TimePasses; KeyDown pressCtrlL false;
   ClickToggle false; ClickClear].

End PageScenario.

(** The room: a join message was sent exactly when the page shows itself
    connected, and then for the room and name on display. *)
Definition roomOk (p : Page) : Prop :=
  joinsSent p
  = if isConnected p then [(roomCode p, username p)] else [].

(** A debounce timer set by a render in auto mode. *)
Definition autoRender (t : Timer) : Prop :=
  match t_action t with
  | TDebounce snap _ => translationMode snap = auto
  | TReconnect => True
  end.

(** The hook has only ever worked in auto mode: every translate request
    follows a detection request for its text. *)
Definition detectsFirst (w : World) : Prop :=
  translationMode (st w) = auto
  /\ Forall autoRender (timers w)
  /\ (forall text source target signal,
        In (PostTranslate text source target signal) (fetchLog w) ->
        In (PostDetect text) (fetchLog w))
  /\ (forall tid text,
        tasks w !! tid = Some (Some (AwaitDetect text)) ->
        In (PostDetect text) (fetchLog w)).

(** For each recognizer, the [isRecording] its [onend] handler holds. *)
Definition onendFlags (w : World) : list bool :=
  map rec_onend_isRecording (recognizers w).
(** * Properties *)

(** ** Frame facts about the small steps *)

Section Frames.
Implicit Types (w : World) (tid : nat) (t : option Task).

Lemma put_task_fetchLog tid t w : fetchLog (put_task tid t w) = fetchLog w.
Proof. unfold put_task. case_decide; reflexivity. Qed.

Lemma put_task_st tid t w : st (put_task tid t w) = st w.
Proof. unfold put_task. case_decide; reflexivity. Qed.

Lemma put_task_controllers tid t w :
  controllers (put_task tid t w) = controllers w.
Proof. unfold put_task. case_decide; reflexivity. Qed.

Lemma put_task_abortControllerRef tid t w :
  abortControllerRef (put_task tid t w) = abortControllerRef w.
Proof. unfold put_task. case_decide; reflexivity. Qed.

Lemma put_task_timers tid t w : timers (put_task tid t w) = timers w.
Proof. unfold put_task. case_decide; reflexivity. Qed.

Lemma put_task_recognizers tid t w :
  recognizers (put_task tid t w) = recognizers w.
Proof. unfold put_task. case_decide; reflexivity. Qed.

Lemma put_task_lookup tid t w :
  tid <= length (tasks w) -> tasks (put_task tid t w) !! tid = Some t.
Proof.
  intros Hle. unfold put_task. case_decide as Hlt; cbn.
  - by apply list_lookup_insert_eq.
  - assert (tid = length (tasks w)) as -> by lia.
    rewrite lookup_app_r by lia. by rewrite Nat.sub_diag.
Qed.

Lemma setRecognitionLang_recognitionLang l w :
  recognitionLang (st (setRecognitionLang l w)) = l.
Proof.
  unfold setRecognitionLang, recognitionLang_effect.
  case_decide as Heq; [exact Heq|]. now destruct (recognitionRef _).
Qed.

Lemma setRecognitionLang_frame l w :
  let w' := setRecognitionLang l w in
  fetchLog w' = fetchLog w /\ tasks w' = tasks w
  /\ controllers w' = controllers w
  /\ abortControllerRef w' = abortControllerRef w
  /\ timers w' = timers w
  /\ translatedText (st w') = translatedText (st w)
  /\ status (st w') = status (st w)
  /\ currentRole (st w') = currentRole (st w)
  /\ translationMode (st w') = translationMode (st w).
Proof.
  cbn. unfold setRecognitionLang, recognitionLang_effect.
  case_decide; [tauto|]. cbn. destruct (recognitionRef w); cbn; tauto.
Qed.

Lemma sendTranslate_fetchLog tid text fromLang toLang c w :
  abortControllerRef w = Some c ->
  fetchLog (sendTranslate tid text fromLang toLang w)
  = fetchLog w ++ [PostTranslate text fromLang toLang c].
Proof.
  intros Href. unfold sendTranslate. rewrite Href.
  now rewrite put_task_fetchLog.
Qed.

Lemma sendTranslate_st tid text fromLang toLang c w :
  abortControllerRef w = Some c ->
  st (sendTranslate tid text fromLang toLang w) = st w.
Proof.
  intros Href. unfold sendTranslate. rewrite Href.
  now rewrite put_task_st.
Qed.

End Frames.

Lemma accepted_guard text :
  negb (Js.truthy (Js.trim text)) || (length text <? 3) = negb (accepted text).
Proof.
  unfold accepted. rewrite negb_andb. f_equal.
  destruct (Nat.ltb_spec (length text) 3), (Nat.leb_spec 3 (length text));
    (reflexivity || lia).
Qed.

Lemma started_controllers_length w :
  length (controllers (started w)) = S (length (controllers w)).
Proof.
  unfold started; cbn. destruct (abortControllerRef w); cbn;
    rewrite ?length_app, ?length_insert; cbn; lia.
Qed.

Lemma started_abortControllerRef w :
  abortControllerRef (started w) = Some (length (controllers w)).
Proof.
  unfold started; cbn. destruct (abortControllerRef w); cbn;
    rewrite ?length_insert; reflexivity.
Qed.

Lemma started_frame w :
  fetchLog (started w) = fetchLog w /\ tasks (started w) = tasks w
  /\ timers (started w) = timers w
  /\ translatedText (st (started w)) = translatedText (st w).
Proof. unfold started. destruct (abortControllerRef w); cbn; tauto. Qed.

Lemma performTranslation_accepted snap text w :
  accepted text = true ->
  performTranslation snap text w
  = match translationMode snap with
    | auto =>
        put_task (length (tasks w)) (Some (AwaitDetect text))
          (put_fetchLog (fetchLog w ++ [PostDetect text]) (started w))
    | manual =>
        sendTranslate (length (tasks w)) text
          (manualPair (currentRole snap)).1 (manualPair (currentRole snap)).2
          (started w)
    end.
Proof.
  intros Hacc. unfold performTranslation.
  rewrite accepted_guard, Hacc. cbn [negb].
  unfold started. destruct (abortControllerRef w), (translationMode snap);
    reflexivity.
Qed.

Lemma performTranslation_rejected snap text w :
  accepted text = false -> performTranslation snap text w = w.
Proof.
  intros Hacc. unfold performTranslation. now rewrite accepted_guard, Hacc.
Qed.

(** ** Language pair of a request *)

Lemma detectLanguage_detectionResult r : detectLanguage r = detectionResult r.
Proof. destruct r as [[[[|c s]|]]|e]; reflexivity. Qed.

Lemma awaiting_detection snap text w :
  accepted text = true -> translationMode snap = auto ->
  let w1 := performTranslation snap text w in
  tasks w1 !! length (tasks w) = Some (Some (AwaitDetect text))
  /\ abortControllerRef w1 = Some (length (controllers w))
  /\ fetchLog w1 = fetchLog w ++ [PostDetect text].
Proof.
  intros Hacc Hmode. cbn zeta.
  rewrite (performTranslation_accepted _ _ _ Hacc), Hmode.
  destruct (started_frame w) as (Hlog & Htasks & _).
  split; [|split].
  - apply put_task_lookup.
    change (length (tasks w) <= length (tasks (started w))).
    rewrite Htasks. lia.
  - rewrite put_task_abortControllerRef. apply started_abortControllerRef.
  - now rewrite put_task_fetchLog.
Qed.

Lemma detectSettled_awaiting tid text r w :
  tasks w !! tid = Some (Some (AwaitDetect text)) ->
  detectSettled tid r w
  = let detected := detectLanguage r in
    sendTranslate tid text (autoPair detected).1 (autoPair detected).2
      (setRecognitionLang
         (if decide (detected = Str.RU) then Str.ru_RU else Str.de_DE) w).
Proof.
  intros Htask. unfold detectSettled. rewrite Htask. cbn zeta.
  now destruct (autoPair (detectLanguage r)).
Qed.

(** The request and the locale that follow detection, in any world where
    the invocation still waits for it. *)
Lemma detection_outcome tid text r c w :
  tasks w !! tid = Some (Some (AwaitDetect text)) ->
  abortControllerRef w = Some c ->
  let w' := detectSettled tid r w in
  let detected := detectionResult r in
  fetchLog w'
  = fetchLog w
    ++ [PostTranslate text (autoPair detected).1 (autoPair detected).2 c]
  /\ recognitionLang (st w')
     = if decide (detected = Str.RU) then Str.ru_RU else Str.de_DE.
Proof.
  intros Htask Href w' detected. unfold w', detected.
  rewrite (detectSettled_awaiting _ _ _ _ Htask). cbn zeta.
  rewrite detectLanguage_detectionResult.
  set (l := if decide (detectionResult r = Str.RU) then _ else _).
  destruct (setRecognitionLang_frame l w) as (Hlog' & _ & _ & Href' & _).
  rewrite (sendTranslate_fetchLog _ _ _ _ c) by (now rewrite Href').
  rewrite (sendTranslate_st _ _ _ _ c) by (now rewrite Href').
  split.
  - now rewrite Hlog'.
  - apply setRecognitionLang_recognitionLang.
Qed.

(** C3.  The pair of every request is resolved when the request is made.
    Manual mode: the call sends RU -> DE for role [user] and DE -> RU for
    the counterpart, whatever the text.  Auto mode: the call asks for
    detection and suspends; whenever detection settles, the request sent
    is RU -> DE if the detection result is "RU" (also when the response
    has no field, and when the detection call failed) and detected -> RU
    otherwise. *)
Theorem language_pair_resolution snap text (r : Settled DetectBody) w :
  accepted text = true ->
  match translationMode snap with
  | manual =>
      fetchLog (performTranslation snap text w)
      = fetchLog w
        ++ [match currentRole snap with
            | user =>
                PostTranslate text Str.RU Str.DE (length (controllers w))
            | steuerberater =>
                PostTranslate text Str.DE Str.RU (length (controllers w))
            end]
  | auto =>
      fetchLog (performTranslation snap text w)
      = fetchLog w ++ [PostDetect text]
      /\ tasks (performTranslation snap text w) !! length (tasks w)
         = Some (Some (AwaitDetect text))
      /\ forall tid c w',
           tasks w' !! tid = Some (Some (AwaitDetect text)) ->
           abortControllerRef w' = Some c ->
           fetchLog (detectSettled tid r w')
           = fetchLog w'
             ++ [match r with
                 | Fulfilled (mkDetectBody (Some (u :: s))) =>
                     if decide (u :: s = Str.RU)
                     then PostTranslate text Str.RU Str.DE c
                     else PostTranslate text (u :: s) Str.RU c
                 | Fulfilled (mkDetectBody (Some []))
                 | Fulfilled (mkDetectBody None)
                 | Rejected _ => PostTranslate text Str.RU Str.DE c
                 end]
  end.
Proof.
  intros Hacc. destruct (translationMode snap) eqn:Hmode.
  - rewrite (performTranslation_accepted _ _ _ Hacc), Hmode.
    rewrite (sendTranslate_fetchLog _ _ _ _ (length (controllers w)))
      by apply started_abortControllerRef.
    destruct (started_frame w) as (-> & _).
    now destruct (currentRole snap).
  - destruct (awaiting_detection snap text w Hacc Hmode)
      as (Htask & _ & Hlog).
    split; [exact Hlog|]. split; [exact Htask|].
    intros tid c w' Htask' Href'.
    destruct (detection_outcome tid text r c w' Htask' Href') as (-> & _).
    unfold autoPair.
    destruct r as [[[[|u s]|]]|e]; cbn [detectionResult];
      try (rewrite decide_True by reflexivity; reflexivity).
    now destruct (decide (u :: s = Str.RU)).
Qed.

(** Detection fails for "Привет"; "Hallo" is sent in manual mode. *)
Lemma language_pair_resolution_witness :
  fetchLog (detectSettled 0 (Rejected (mkError [] [])) Scenario.requestA)
  = fetchLog Scenario.requestA
    ++ [PostTranslate Scenario.privet Str.RU Str.DE 0]
  /\ fetchLog (performTranslation (st Scenario.manualPage) Scenario.hallo
                 Scenario.manualPage)
     = [GetHealth; PostTranslate Scenario.hallo Str.RU Str.DE 0].
Proof.
  split.
  - exact (proj2 (proj2 (language_pair_resolution (st Scenario.page)
                           Scenario.privet (Rejected (mkError [] []))
                           Scenario.page eq_refl))
             0 0 Scenario.requestA eq_refl eq_refl).
  - exact (language_pair_resolution (st Scenario.manualPage) Scenario.hallo
             (Rejected (mkError [] [])) Scenario.manualPage eq_refl).
Defined.

(** ** Recognition locale after detection *)

(** C2, as the code has it.  In auto mode, when detection settles for a
    waiting call, a detection result of "RU" makes the request RU -> DE
    and sets the recognition locale to "ru-RU"; any other detection result
    sets the locale to "de-DE". *)
Theorem detection_sets_recognition_locale tid text r c w :
  tasks w !! tid = Some (Some (AwaitDetect text)) ->
  abortControllerRef w = Some c ->
  let w' := detectSettled tid r w in
  if decide (detectionResult r = Str.RU) then
    recognitionLang (st w') = Str.ru_RU
    /\ fetchLog w' = fetchLog w ++ [PostTranslate text Str.RU Str.DE c]
  else recognitionLang (st w') = Str.de_DE.
Proof.
  intros Htask Href w'.
  destruct (detection_outcome tid text r c w Htask Href) as (Hlog & Hlang).
  fold w' in Hlog, Hlang. unfold autoPair in Hlog.
  destruct (decide (detectionResult r = Str.RU)); [split|]; assumption.
Qed.

(** "Привет" detected as "RU" after the locale had moved to "de-DE". *)
Lemma detection_sets_recognition_locale_witness :
  recognitionLang (st Scenario.afterPrivetDetected) = Str.ru_RU
  /\ fetchLog Scenario.afterPrivetDetected
     = fetchLog (performTranslation (st Scenario.afterHallo) Scenario.privet
                   Scenario.afterHallo)
       ++ [PostTranslate Scenario.privet Str.RU Str.DE 1].
Proof.
  exact (detection_sets_recognition_locale 1 Scenario.privet
           (Scenario.detects Str.RU) 1
           (performTranslation (st Scenario.afterHallo) Scenario.privet
              Scenario.afterHallo)
           eq_refl eq_refl).
Defined.

(** C2 as the specification words it fails: with the locale at "de-DE", a
    text detected as "RU" is sent as RU -> DE and the recognition locale,
    state and live recognizer alike, becomes "ru-RU". *)
Lemma detection_RU_updates_locale :
  recognitionLang (st Scenario.afterHallo) = Str.de_DE
  /\ translationMode (st Scenario.afterHallo) = auto
  /\ last (fetchLog Scenario.afterPrivetDetected)
     = Some (PostTranslate Scenario.privet Str.RU Str.DE 1)
  /\ recognitionLang (st Scenario.afterPrivetDetected) = Str.ru_RU
  /\ rec_lang <$> (recognizers Scenario.afterPrivetDetected !! 0)
     = Some Str.ru_RU
  /\ recognitionLang (st Scenario.afterPrivetDetected)
     <> recognitionLang (st Scenario.afterHallo).
Proof.
  do 5 (split; [vm_compute; reflexivity|]). vm_compute. discriminate.
Qed.

(** ** Outcome of a translation request *)

Lemma put_task_aborted tid t c w : aborted c (put_task tid t w) = aborted c w.
Proof. unfold aborted. now rewrite put_task_controllers. Qed.

Lemma speak_st translation toLang w : st (speak translation toLang w) = st w.
Proof. unfold speak. now destruct (_ && _). Qed.

Lemma translateSettled_awaiting tid text fromLang toLang signal r w :
  tasks w !! tid = Some (Some (AwaitTranslate text fromLang toLang signal)) ->
  translateSettled tid r w
  = let w1 := put_task tid None w in
    match (if aborted signal w
           then Rejected (mkError Str.AbortError []) else r) with
    | Fulfilled b =>
        finalize
          (speak (default [] (translated_text b)) toLang
             (setStatus (Str.translated fromLang toLang)
                (setTranslatedText (default [] (translated_text b)) w1)))
    | Rejected e => onTranslationError e w1
    end.
Proof.
  intros Htask. unfold translateSettled. rewrite Htask. cbn zeta.
  rewrite put_task_aborted. destruct (aborted signal w); [reflexivity|].
  destruct r as [[[s|]]|e]; reflexivity.
Qed.

(** C9, as the code has it.  When a live request is answered, the
    published result is the [translated_text] field, or the empty string
    when the field is absent, and the status is "✅ <source> → <target>"
    for the pair that was sent. *)
Theorem successful_translation_published
    tid text fromLang toLang signal body w :
  tasks w !! tid = Some (Some (AwaitTranslate text fromLang toLang signal)) ->
  aborted signal w = false ->
  let w' := translateSettled tid (Fulfilled body) w in
  translatedText (st w')
  = match translated_text body with Some s => s | None => [] end
  /\ status (st w') = Str.check ++ Str.pair fromLang toLang
  /\ isTranslating (st w') = false.
Proof.
  intros Htask Hlive w'. unfold w'.
  rewrite (translateSettled_awaiting _ _ _ _ _ _ _ Htask), Hlive. cbn zeta.
  unfold finalize, setIsTranslating. cbn [st put_st].
  rewrite speak_st. cbn.
  now destruct (translated_text body).
Qed.

(** The answer [{}] to "Привет" sent as RU -> DE. *)
Lemma successful_translation_published_witness :
  translatedText (st Scenario.afterEmptyAnswer) = []
  /\ status (st Scenario.afterEmptyAnswer)
     = Str.check ++ Str.pair Str.RU Str.DE
  /\ isTranslating (st Scenario.afterEmptyAnswer) = false.
Proof.
  exact (successful_translation_published 0 Scenario.privet Str.RU Str.DE 0
           (mkTranslateBody None)
           (performTranslation (st Scenario.manualPage) Scenario.privet
              Scenario.manualPage)
           eq_refl eq_refl).
Defined.

(** C9 as the specification words it fails: for the answer [{}] to a
    request RU -> DE the result is the empty string, and the status is not
    "RU → DE" but "✅ RU → DE". *)
Lemma success_status_has_check_mark :
  fetchLog (performTranslation (st Scenario.manualPage) Scenario.privet
              Scenario.manualPage)
  = [GetHealth; PostTranslate Scenario.privet Str.RU Str.DE 0]
  /\ translatedText (st Scenario.afterEmptyAnswer) = []
  /\ status (st Scenario.afterEmptyAnswer) <> Str.pair Str.RU Str.DE
  /\ status (st Scenario.afterEmptyAnswer)
     = [9989; 32; 82; 85; 32; 8594; 32; 68; 69]%N.
Proof.
  split; [vm_compute; reflexivity|]. split; [vm_compute; reflexivity|].
  split; [|vm_compute; reflexivity]. vm_compute. discriminate.
Qed.

(** ** Role changes *)

(** C10.  In a render whose translation mode is auto, [handleRoleChange]
    changes nothing for any requested role: the role, the recognition
    locale and the rest of the world are as before. *)
Theorem handleRoleChange_auto_noop snap role w :
  translationMode snap = auto -> handleRoleChange snap role w = w.
Proof. intros Hmode. unfold handleRoleChange. now rewrite Hmode. Qed.

(** The freshly mounted page is in auto mode. *)
Lemma handleRoleChange_auto_noop_witness :
  handleRoleChange (st Scenario.page) steuerberater Scenario.page
  = Scenario.page.
Proof.
  exact (handleRoleChange_auto_noop (st Scenario.page) steuerberater
           Scenario.page eq_refl).
Defined.

(** In a manual render the requested role is stored. *)
Lemma handleRoleChange_manual snap role w :
  translationMode snap = manual ->
  currentRole (st (handleRoleChange snap role w)) = role.
Proof.
  intros Hmode. unfold handleRoleChange. rewrite Hmode. cbn.
  now destruct (recognitionRef w).
Qed.

(** ** Short utterances *)

Lemma originalText_effect_short w :
  length (originalText (st w)) < 3 ->
  originalText_effect w
  = let w1 := match debounceCleanup w with
              | Some id => put_debounceCleanup None (clearTimeout id w)
              | None => w
              end in
    if length (originalText (st w)) =? 0 then setTranslatedText [] w1 else w1.
Proof.
  intros Hshort. unfold originalText_effect.
  set (w1 := match debounceCleanup w with Some _ => _ | None => _ end).
  assert (originalText (st w1) = originalText (st w)) as Heq
    by (unfold w1; destruct (debounceCleanup w); reflexivity).
  cbv zeta. rewrite Heq.
  assert ((length (originalText (st w)) <? 3) = true) as ->
    by (apply Nat.ltb_lt; lia).
  now rewrite orb_true_r.
Qed.

Lemma clearTimeout_not_pending id w :
  timer_pending id (clearTimeout id w) = false.
Proof.
  unfold timer_pending, clearTimeout. cbn [timers put_timers].
  induction (timers w) as [|t ts IH]; [reflexivity|].
  cbn [List.filter]. destruct (Nat.eqb (t_id t) id) eqn:Heq; cbn [negb].
  - exact IH.
  - cbn [existsb]. now rewrite Heq, IH.
Qed.

(** C5.  An utterance of fewer than three code units issues no request,
    creates no timer (and cancels the one pending for the text before it),
    starts no invocation and leaves the status alone; the shown
    translation is cleared exactly when the text changes to the empty
    string.  Passed to [performTranslation] directly, such a text changes
    nothing at all. *)
Theorem short_utterance_ignored snap text w :
  length text < 3 ->
  let w' := setOriginalText text w in
  fetchLog w' = fetchLog w
  /\ tasks w' = tasks w
  /\ controllers w' = controllers w
  /\ nextTimer w' = nextTimer w
  /\ (forall t, In t (timers w') -> In t (timers w))
  /\ (forall id, originalText (st w) <> text ->
        debounceCleanup w = Some id -> timer_pending id w' = false)
  /\ status (st w') = status (st w)
  /\ isTranslating (st w') = isTranslating (st w)
  /\ translatedText (st w')
     = (if bool_decide (text = [])
           && negb (bool_decide (originalText (st w) = []))
        then [] else translatedText (st w))
  /\ performTranslation snap text w = w.
Proof.
  intros Hshort w'.
  assert (performTranslation snap text w = w) as Hguard.
  { apply performTranslation_rejected. unfold accepted.
    destruct (Nat.leb_spec 3 (length text)); [lia|]. apply andb_false_r. }
  unfold w', setOriginalText. case_decide as Hsame.
  { repeat split; try done.
    subst text. destruct (originalText (st w)); reflexivity. }
  rewrite originalText_effect_short by exact Hshort.
  cbn [st put_st originalText with_originalText].
  assert (forall id t, In t (timers (clearTimeout id w)) -> In t (timers w))
    as Hsub.
  { intros id t Hin. cbn in Hin. apply filter_In in Hin. tauto. }
  pose proof (fun id => clearTimeout_not_pending id w) as Hgone.
  destruct text as [|c text].
  - destruct (originalText (st w)) as [|c0 old]; [done|].
    cbn. destruct (debounceCleanup w) as [id|]; cbn;
      repeat split; try done; try apply Hsub;
      intros id' _ [= <-]; apply Hgone.
  - cbn. destruct (debounceCleanup w) as [id|]; cbn;
      repeat split; try done; try apply Hsub;
      intros id' _ [= <-]; apply Hgone.
Qed.

(** The utterance is emptied while a timer for "Hallo" is pending and a
    translation is on screen. *)
Lemma short_utterance_ignored_witness :
  fetchLog (setOriginalText [] Scenario.typingHallo)
  = fetchLog Scenario.typingHallo
  /\ status (st (setOriginalText [] Scenario.typingHallo))
     = status (st Scenario.typingHallo)
  /\ timers Scenario.typingHallo <> []
  /\ timers (setOriginalText [] Scenario.typingHallo) = []
  /\ translatedText (st Scenario.typingHallo) = Scenario.privet
  /\ translatedText (st (setOriginalText [] Scenario.typingHallo)) = [].
Proof.
  assert (@length N [] < 3) as Hshort by (cbn; lia).
  destruct (short_utterance_ignored initial_state [] Scenario.typingHallo
              Hshort)
    as (Hlog & _ & _ & _ & _ & _ & Hstatus & _ & Htr & _).
  split; [exact Hlog|]. split; [exact Hstatus|].
  split; [vm_compute; discriminate|].
  split; [vm_compute; reflexivity|].
  split; [vm_compute; reflexivity|].
  rewrite Htr. vm_compute. reflexivity.
Defined.

(** ** The clock *)

Lemma put_now_same w : put_now (now w) w = w.
Proof. now destruct w. Qed.

Lemma put_now_put_now a b w : put_now a (put_now b w) = put_now a w.
Proof. reflexivity. Qed.

Lemma tick_idle w : timers w = [] -> tick w = put_now (now w + 1) w.
Proof.
  intros Hnone. unfold tick, runDue.
  change (timers (put_now (now w + 1) w)) with (timers w).
  now rewrite Hnone.
Qed.

Lemma tick_single_wait t w :
  timers w = [t] -> (now w + 1 < t_due t)%N ->
  tick w = put_now (now w + 1) w.
Proof.
  intros Hone Hlater. unfold tick, runDue.
  change (timers (put_now (now w + 1) w)) with (timers w).
  change (now (put_now (now w + 1) w)) with (now w + 1)%N.
  rewrite Hone. cbn [List.filter].
  destruct (N.leb_spec (t_due t) (now w + 1)); [lia|reflexivity].
Qed.

Lemma tick_single_fire t w :
  timers w = [t] -> (t_due t <= now w + 1)%N ->
  tick w = fire t (put_now (now w + 1) w).
Proof.
  intros Hone Hdue. unfold tick, runDue.
  change (timers (put_now (now w + 1) w)) with (timers w).
  change (now (put_now (now w + 1) w)) with (now w + 1)%N.
  rewrite Hone. cbn [List.filter].
  destruct (N.leb_spec (t_due t) (now w + 1)); [|lia].
  cbn [fold_left]. unfold timer_pending.
  change (timers (put_now (now w + 1) w)) with (timers w).
  rewrite Hone. cbn. now rewrite Nat.eqb_refl.
Qed.

Lemma elapse_S k w : elapse (S k) w = tick (elapse k w).
Proof. reflexivity. Qed.

Lemma elapse_add a b w : elapse (a + b) w = elapse a (elapse b w).
Proof. apply Nat.iter_add. Qed.

Lemma elapse_idle k w :
  timers w = [] -> elapse k w = put_now (now w + N.of_nat k) w.
Proof.
  intros Hnone. induction k as [|k IH].
  - cbn. rewrite N.add_0_r. symmetry. apply put_now_same.
  - rewrite elapse_S, IH, tick_idle by exact Hnone.
    rewrite put_now_put_now. cbn [now put_now]. f_equal. lia.
Qed.

Lemma elapse_single_wait t k w :
  timers w = [t] -> (now w + N.of_nat k < t_due t)%N ->
  elapse k w = put_now (now w + N.of_nat k) w.
Proof.
  intros Hone. induction k as [|k IH]; intros Hlater.
  - cbn. rewrite N.add_0_r. symmetry. apply put_now_same.
  - rewrite elapse_S, IH by lia.
    rewrite (tick_single_wait t) by (cbn; (exact Hone || lia)).
    rewrite put_now_put_now. cbn [now put_now]. f_equal. lia.
Qed.

(** A lone timer fires when its delay has passed, not before. *)
Lemma elapse_single_fire t k w :
  timers w = [t] -> t_due t = (now w + N.of_nat (S k))%N ->
  elapse (S k) w = fire t (put_now (t_due t) w).
Proof.
  intros Hone Hdue.
  rewrite elapse_S, (elapse_single_wait t) by (exact Hone || lia).
  rewrite (tick_single_fire t) by (cbn; (exact Hone || lia)).
  rewrite put_now_put_now. cbn [now put_now]. do 2 f_equal. lia.
Qed.

(** ** Reconnect backoff *)

Lemma reconnectDelay_in_schedule n :
  delays !! Nat.min n (length delays - 1) = Some (reconnectDelay n).
Proof.
  unfold reconnectDelay.
  destruct (delays !! Nat.min n (length delays - 1)) eqn:Hnth; [reflexivity|].
  apply lookup_ge_None in Hnth. cbn in Hnth. lia.
Qed.

Lemma reconnectDelay_positive n : (0 < reconnectDelay n)%N.
Proof.
  do 5 (destruct n as [|n]; [cbn; lia|]). cbn. lia.
Qed.

Lemma ws_onclose_schedules w :
  timers (ws_onclose w)
  = timers w
    ++ [mkTimer (nextTimer w)
          (now w + reconnectDelay (reconnectAttemptsRef w)) TReconnect]
  /\ reconnectTimeoutRef (ws_onclose w) = Some (nextTimer w)
  /\ status (st (ws_onclose w))
     = Str.reconnecting (reconnectDelay (reconnectAttemptsRef w))
  /\ reconnectAttemptsRef (ws_onclose w) = reconnectAttemptsRef w
  /\ now (ws_onclose w) = now w
  /\ env (ws_onclose w) = env w.
Proof. repeat split. Qed.

Lemma connectionLost_retries w :
  wsConstructorThrows (env w) = false -> timers w = [] ->
  reconnectAttemptsRef (connectionLost w) = S (reconnectAttemptsRef w)
  /\ timers (connectionLost w) = [] /\ env (connectionLost w) = env w
  /\ now (connectionLost w)
     = (now w + reconnectDelay (reconnectAttemptsRef w))%N
  /\ socketsCreated (connectionLost w) = S (socketsCreated w).
Proof.
  intros Hctor Hnone. unfold connectionLost.
  destruct (ws_onclose_schedules w)
    as (Htimers & _ & _ & Hattempts & Hnow & Henv).
  rewrite Hnone in Htimers. cbn [app] in Htimers.
  pose proof (reconnectDelay_positive (reconnectAttemptsRef w)) as Hpos.
  destruct (N.to_nat (reconnectDelay (reconnectAttemptsRef w))) as [|k] eqn:Hk;
    [lia|].
  rewrite (elapse_single_fire _ k _ Htimers) by (cbn [t_due]; lia).
  cbn [t_due]. unfold fire. cbn [t_action t_id].
  unfold reconnectNow, initWebSocket. cbn [env put_reconnectAttemptsRef].
  change (env (clearTimeout (nextTimer w) (put_now _ (ws_onclose w))))
    with (env w).
  rewrite Hctor. cbn. rewrite Hnone. cbn. rewrite Nat.eqb_refl.
  repeat split.
Qed.

Lemma reconnectDelay_schedule k :
  reconnectDelay k = nth (Nat.min k 4) [1000; 2000; 5000; 10000; 30000]%N 0%N.
Proof. do 5 (destruct k as [|k]; [reflexivity|]). reflexivity. Qed.

(** The timer callback counts the attempt before it reconnects: when the
    socket constructor throws, the next delay is already taken at the
    incremented counter. *)
Lemma reconnectNow_counts_first w :
  reconnectAttemptsRef (reconnectNow w) = S (reconnectAttemptsRef w)
  /\ (wsConstructorThrows (env w) = true ->
      timers (reconnectNow w)
      = timers w
        ++ [mkTimer (nextTimer w)
              (now w + reconnectDelay (S (reconnectAttemptsRef w)))
              TReconnect]).
Proof.
  unfold reconnectNow, initWebSocket. cbn [env put_reconnectAttemptsRef].
  destruct (wsConstructorThrows (env w)); split; try reflexivity; discriminate.
Qed.

(** C6.  Every close schedules the reconnect after [schedule[min(a, 4)]]
    milliseconds, [a] being the attempt counter and the schedule 1 s, 2 s,
    5 s, 10 s, 30 s; the timer increments the counter before it
    reconnects, and a successful open sets it to zero.  Hence after [n]
    consecutive failures since the last open the counter is [n] and the
    next delay is [schedule[min(n, 4)]]: 30 s from the fourth failure on,
    for ever. *)
Theorem reconnect_backoff n w :
  let schedule k :=
    nth (Nat.min k 4) [1000; 2000; 5000; 10000; 30000]%N 0%N in
  timers (ws_onclose w)
  = timers w
    ++ [mkTimer (nextTimer w) (now w + schedule (reconnectAttemptsRef w))
          TReconnect]
  /\ status (st (ws_onclose w))
     = Str.reconnecting (schedule (reconnectAttemptsRef w))
  /\ reconnectAttemptsRef (reconnectNow w) = S (reconnectAttemptsRef w)
  /\ reconnectAttemptsRef (ws_onopen w) = 0
  /\ (4 <= n -> schedule n = 30000%N)
  /\ (wsConstructorThrows (env w) = false -> timers w = [] ->
      let wn := Nat.iter n connectionLost (ws_onopen w) in
      reconnectAttemptsRef wn = n
      /\ timers (ws_onclose wn)
         = [mkTimer (nextTimer wn) (now wn + schedule n) TReconnect]
      /\ reconnectAttemptsRef (connectionLost wn) = S n
      /\ socketsCreated (connectionLost wn) = S (socketsCreated wn)).
Proof.
  intros schedule.
  destruct (ws_onclose_schedules w) as (Hsched & _ & Hstatus & _).
  rewrite reconnectDelay_schedule in Hsched, Hstatus.
  split; [exact Hsched|]. split; [exact Hstatus|].
  split; [apply reconnectNow_counts_first|]. split; [reflexivity|].
  split.
  { intros Hplateau. unfold schedule.
    now rewrite Nat.min_r by exact Hplateau. }
  intros Hctor Hnone wn.
  assert (reconnectAttemptsRef wn = n /\ timers wn = []
          /\ env wn = env w) as (Hn & Htimers & Henv).
  { unfold wn. clear wn. induction n as [|n IH].
    - repeat split. exact Hnone.
    - destruct IH as (Hn & Htimers & Henv). rewrite Nat.iter_succ.
      set (wn := Nat.iter n connectionLost (ws_onopen w)) in *.
      destruct (connectionLost_retries wn) as (Hn' & Htimers' & Henv' & _);
        [now rewrite Henv|exact Htimers|].
      rewrite Hn', Hn, Henv', Henv. repeat split. exact Htimers'. }
  destruct (ws_onclose_schedules wn) as (Hsched' & _).
  destruct (connectionLost_retries wn) as (Hn' & _ & _ & _ & Hsock);
    [now rewrite Henv|exact Htimers|].
  rewrite Hsched', Htimers, Hn', Hn, Hsock, reconnectDelay_schedule.
  repeat split.
Qed.

(** Six failures take 1 + 2 + 5 + 10 + 30 + 30 seconds; the seventh wait
    is 30 s again. *)
Lemma reconnect_backoff_witness :
  reconnectAttemptsRef Scenario.sixFailures = 6
  /\ timers (ws_onclose Scenario.sixFailures)
     = [mkTimer 6 (78000 + 30000) TReconnect].
Proof.
  destruct (reconnect_backoff 6 Scenario.page)
    as (_ & _ & _ & _ & _ & Hchain).
  destruct (Hchain eq_refl eq_refl) as (Hn & Hsched & _).
  split; [exact Hn|].
  unfold Scenario.sixFailures. rewrite Hsched. vm_compute. reflexivity.
Defined.

(** ** Capture: the [onend] handler *)

Lemma recognizer_ended_lookup r x w :
  recognizers w !! r = Some x ->
  recognizers (recognizer_ended r w) !! r
  = Some (mkRecognizer (rec_lang x) (rec_onend_isRecording x) false false).
Proof.
  intros Hx. unfold recognizer_ended. cbn [recognizers put_recognizers].
  rewrite list_lookup_alter_eq. now rewrite Hx.
Qed.

(** What the handler does is decided by the flag value the recognizer
    was built with. *)
Lemma recognition_onend_closure r x throws w :
  recognizers w !! r = Some x ->
  recognition_onend r throws w
  = if rec_onend_isRecording x then
      if throws then setIsRecording false (recognizer_ended r w)
      else recognizer_start r (recognizer_ended r w)
    else recognizer_ended r w.
Proof.
  intros Hx. unfold recognition_onend.
  now rewrite (recognizer_ended_lookup _ _ _ Hx).
Qed.

(** A restart that throws clears the flag and publishes no error. *)
Lemma restart_throws_clears_flag r x w :
  recognizers w !! r = Some x -> rec_onend_isRecording x = true ->
  isRecording (st (recognition_onend r true w)) = false
  /\ status (st (recognition_onend r true w)) = status (st w).
Proof.
  intros Hx Hflag. rewrite (recognition_onend_closure _ _ _ _ Hx), Hflag.
  split; reflexivity.
Qed.

(** The recognizer built at mount never restarts: its handler closes over
    the first render, where [isRecording] is [false]. *)
Lemma mounted_recognizer_closure e healthy :
  hasSpeechRecognition e = true ->
  recognitionRef (mounted e healthy) = Some 0
  /\ rec_onend_isRecording <$> (recognizers (mounted e healthy) !! 0)
     = Some false.
Proof.
  intros Hcap. unfold mounted, initSystem, initSpeechRecognition.
  destruct e as [sr ss vl throws]. cbn in Hcap. subst sr.
  destruct throws; split; reflexivity.
Qed.

(** C8 at a failing input.  Capture is on and the recognizer of the
    mounted page ends on its own: the handler attempts no restart, the
    recognizer stays ended and the flag stays on. *)
Theorem unsolicited_end_not_restarted :
  isRecording (st Scenario.recordingPage) = true
  /\ rec_started <$> (recognizers Scenario.recordingPage !! 0) = Some true
  /\ (forall throws,
        recognition_onend 0 throws Scenario.recordingPage
        = recognizer_ended 0 Scenario.recordingPage)
  /\ rec_started <$> (recognizers Scenario.afterUnsolicitedEnd !! 0)
     = Some false
  /\ isRecording (st Scenario.afterUnsolicitedEnd) = true.
Proof.
  split; [vm_compute; reflexivity|]. split; [vm_compute; reflexivity|].
  split; [intros []; vm_compute; reflexivity|].
  split; vm_compute; reflexivity.
Qed.

(** C7 at a failing input.  The recognizer was rebuilt while capture was
    on.  [stopRecording] clears the flag and asks it to stop; its [onend]
    handler still sees the flag on and starts it again. *)
Theorem stop_then_end_resumes_capture :
  recognitionRef Scenario.stoppedAgain = Some 1
  /\ isRecording (st Scenario.stoppedAgain) = false
  /\ recognizers Scenario.stoppedAgain !! 1
     = Some (mkRecognizer Str.ru_RU true true true)
  /\ isRecording (st Scenario.afterStopEnd) = false
  /\ recognizers Scenario.afterStopEnd !! 1
     = Some (mkRecognizer Str.ru_RU true true false).
Proof. repeat (split; [vm_compute; reflexivity|]). vm_compute. reflexivity. Qed.

(** ** Supersession of translation requests *)

Lemma performTranslation_supersedes snap text c w :
  accepted text = true ->
  abortControllerRef w = Some c -> c < length (controllers w) ->
  let w' := performTranslation snap text w in
  aborted c w' = true
  /\ abortControllerRef w' = Some (length (controllers w))
  /\ aborted (length (controllers w)) w' = false.
Proof.
  intros Hacc Href Hc w'.
  assert (controllers w' = <[c := true]> (controllers w) ++ [false]
          /\ abortControllerRef w' = Some (length (controllers w)))
    as (Hctl & Href').
  { unfold w'. rewrite (performTranslation_accepted _ _ _ Hacc).
    destruct (translationMode snap).
    - unfold sendTranslate. rewrite started_abortControllerRef.
      rewrite put_task_controllers, put_task_abortControllerRef.
      cbn [controllers abortControllerRef put_fetchLog].
      rewrite started_abortControllerRef. unfold started. rewrite Href.
      split; reflexivity.
    - rewrite put_task_controllers, put_task_abortControllerRef.
      cbn [controllers abortControllerRef put_fetchLog].
      rewrite started_abortControllerRef. unfold started. rewrite Href.
      split; reflexivity. }
  unfold aborted. rewrite Hctl. repeat split.
  - rewrite lookup_app_l by (rewrite length_insert; lia).
    now rewrite list_lookup_insert_eq by lia.
  - exact Href'.
  - rewrite lookup_app_r by (rewrite length_insert; lia).
    now rewrite length_insert, Nat.sub_diag.
Qed.

(** The slot never holds more than one live token. *)
Lemma performTranslation_oneLiveToken snap text w :
  oneLiveToken w -> oneLiveToken (performTranslation snap text w).
Proof.
  intros Hone. destruct (accepted text) eqn:Hacc;
    [|now rewrite performTranslation_rejected].
  assert (controllers (performTranslation snap text w)
          = match abortControllerRef w with
            | Some c => <[c := true]> (controllers w)
            | None => controllers w
            end ++ [false]
          /\ abortControllerRef (performTranslation snap text w)
             = Some (length (controllers w))) as (Hctl & Href).
  { rewrite (performTranslation_accepted _ _ _ Hacc).
    destruct (translationMode snap).
    - unfold sendTranslate. rewrite started_abortControllerRef.
      rewrite put_task_controllers, put_task_abortControllerRef.
      cbn [controllers abortControllerRef put_fetchLog].
      rewrite started_abortControllerRef. unfold started.
      destruct (abortControllerRef w); split; reflexivity.
    - rewrite put_task_controllers, put_task_abortControllerRef.
      cbn [controllers abortControllerRef put_fetchLog].
      rewrite started_abortControllerRef. unfold started.
      destruct (abortControllerRef w); split; reflexivity. }
  intros c Hlive. rewrite Href. rewrite Hctl in Hlive.
  destruct (decide (c = length (controllers w))) as [->|Hne]; [reflexivity|].
  exfalso.
  assert (c < length (controllers w)) as Hlt.
  { apply lookup_lt_Some in Hlive. rewrite length_app in Hlive.
    destruct (abortControllerRef w); rewrite ?length_insert in Hlive;
      cbn in Hlive; lia. }
  destruct (abortControllerRef w) as [c0|] eqn:Hc0.
  - rewrite lookup_app_l in Hlive by (rewrite length_insert; lia).
    destruct (decide (c0 = c)) as [->|Hne0].
    + rewrite list_lookup_insert_eq in Hlive by lia. discriminate.
    + rewrite list_lookup_insert_ne in Hlive by exact Hne0.
      specialize (Hone c Hlive). congruence.
  - rewrite lookup_app_l in Hlive by lia.
    specialize (Hone c Hlive). congruence.
Qed.

(** The rejection of an aborted request is dropped: it changes neither
    the result nor the status, whatever the service answered. *)
Lemma aborted_request_discarded tid text fromLang toLang signal r w :
  tasks w !! tid = Some (Some (AwaitTranslate text fromLang toLang signal)) ->
  aborted signal w = true ->
  let w' := translateSettled tid r w in
  translatedText (st w') = translatedText (st w)
  /\ status (st w') = status (st w)
  /\ fetchLog w' = fetchLog w
  /\ isTranslating (st w') = false.
Proof.
  intros Htask Hab w'. unfold w'.
  rewrite (translateSettled_awaiting _ _ _ _ _ _ _ Htask), Hab. cbn zeta.
  unfold onTranslationError. cbn [err_name].
  rewrite decide_True by reflexivity.
  unfold finalize, setIsTranslating. cbn.
  now rewrite put_task_st, put_task_fetchLog.
Qed.

(** C1 at a failing input.  In auto mode request A waits for detection
    when request B starts.  B aborts A's controller, yet A's translate
    request is sent afterwards with the signal of B's controller, so it is
    not cancelled; answered after B, it replaces B's result and status. *)
Theorem superseded_request_overwrites :
  controllers Scenario.bothDetected = [true; false]
  /\ abortControllerRef Scenario.bothDetected = Some 1
  /\ fetchLog Scenario.bothDetected
     = [GetHealth; PostDetect Scenario.privet; PostDetect Scenario.hallo;
        PostTranslate Scenario.hallo Str.DE Str.RU 1;
        PostTranslate Scenario.privet Str.RU Str.DE 1]
  /\ translatedText (st Scenario.answeredB) = Scenario.privet
  /\ status (st Scenario.answeredB) = Str.translated Str.DE Str.RU
  /\ translatedText (st Scenario.answeredA) = Scenario.hallo
  /\ status (st Scenario.answeredA) = Str.translated Str.RU Str.DE.
Proof. repeat (split; [vm_compute; reflexivity|]). vm_compute. reflexivity. Qed.

(** ** Debounce *)

Lemma performTranslation_timers snap text w :
  timers (performTranslation snap text w) = timers w.
Proof.
  destruct (accepted text) eqn:Hacc;
    [|now rewrite performTranslation_rejected].
  rewrite (performTranslation_accepted _ _ _ Hacc).
  destruct (started_frame w) as (_ & _ & Htimers & _).
  destruct (translationMode snap).
  - unfold sendTranslate. rewrite started_abortControllerRef.
    now rewrite put_task_timers.
  - now rewrite put_task_timers.
Qed.

Lemma performTranslation_first_request snap text w :
  accepted text = true ->
  fetchLog (performTranslation snap text w)
  = fetchLog w
    ++ [firstRequest (translationMode snap) (currentRole snap) text
          (length (controllers w))].
Proof.
  intros Hacc. rewrite (performTranslation_accepted _ _ _ Hacc).
  destruct (started_frame w) as (Hlog & _).
  destruct (translationMode snap).
  - rewrite (sendTranslate_fetchLog _ _ _ _ (length (controllers w)))
      by apply started_abortControllerRef.
    rewrite Hlog. now destruct (currentRole snap).
  - now rewrite put_task_fetchLog.
Qed.

Lemma clearTimeout_single t w :
  timers w = [t] -> timers (clearTimeout (t_id t) w) = [].
Proof.
  intros Hone. cbn. rewrite Hone. cbn. now rewrite Nat.eqb_refl.
Qed.

(** In any world, a change to a text of three or more code units cancels
    the timer registered by the previous run of the effect and starts a
    fresh one, due in 500 ms. *)
Lemma setOriginalText_restarts_timer text w :
  originalText (st w) <> text -> 3 <= length text ->
  let w' := setOriginalText text w in
  exists snap,
    timers w'
    = match debounceCleanup w with
      | Some id => timers (clearTimeout id w)
      | None => timers w
      end ++ [mkTimer (nextTimer w) (now w + 500) (TDebounce snap text)]
    /\ debounceCleanup w' = Some (nextTimer w)
    /\ translationMode snap = translationMode (st w)
    /\ currentRole snap = currentRole (st w).
Proof.
  intros Hchange Hlong w'. unfold w', setOriginalText.
  rewrite decide_False by exact Hchange. unfold originalText_effect.
  set (w1 := put_st (with_originalText text (st w)) w).
  set (w2 := match debounceCleanup w1 with Some _ => _ | None => _ end).
  assert (st w2 = st w1) as Hst
    by (unfold w2; destruct (debounceCleanup w1); reflexivity).
  cbv zeta. rewrite Hst. change (originalText (st w1)) with text.
  assert (Js.truthy text = true) as ->
    by (destruct text; [cbn in Hlong; lia|reflexivity]).
  assert ((length text <? 3) = false) as -> by (apply Nat.ltb_ge; lia).
  cbn [negb orb]. unfold setTimeout. exists (st w1). unfold w2.
  change (debounceCleanup w1) with (debounceCleanup w).
  destruct (debounceCleanup w); repeat split.
Qed.

(** An update that changes the text replaces the pending timer. *)
Lemma setOriginalText_debouncing w0 text w :
  sameRequests w0 w -> originalText (st w) <> text ->
  (timers w = []
   \/ exists t, timers w = [t] /\ debounceCleanup w = Some (t_id t)) ->
  debouncing w0 text (setOriginalText text w).
Proof.
  intros (Hlog & Hctl & Hmode & Hrole) Hchange Hpending.
  unfold setOriginalText. rewrite decide_False by exact Hchange.
  set (w1 := put_st (with_originalText text (st w)) w).
  assert (exists w2,
            (match debounceCleanup w1 with
             | Some id => put_debounceCleanup None (clearTimeout id w1)
             | None => w1
             end) = w2
            /\ timers w2 = [] /\ st w2 = st w1 /\ fetchLog w2 = fetchLog w
            /\ controllers w2 = controllers w /\ now w2 = now w)
    as (w2 & Hw2 & Hnone & Hst & Hlog2 & Hctl2 & Hnow2).
  { eexists; split; [reflexivity|].
    destruct Hpending as [Hnone|(t & Hone & Hclean)].
    - change (debounceCleanup w1) with (debounceCleanup w).
      destruct (debounceCleanup w); cbn; rewrite Hnone; repeat split.
    - change (debounceCleanup w1) with (debounceCleanup w). rewrite Hclean.
      cbn. rewrite Hone. cbn. rewrite Nat.eqb_refl. repeat split. }
  unfold originalText_effect. rewrite Hw2. cbv zeta. rewrite Hst.
  change (originalText (st w1)) with text.
  destruct (Nat.ltb_spec (length text) 3) as [Hshort|Hlong].
  - rewrite orb_true_r.
    assert (debouncing w0 text w2) as Hdone.
    { repeat split; try (rewrite ?Hst, ?Hlog2, ?Hctl2; assumption).
      - now rewrite Hst.
      - left. split; assumption. }
    destruct (length text =? 0); [|exact Hdone].
    destruct Hdone as ((? & ? & ? & ?) & ? & ?). repeat split; assumption.
  - assert (Js.truthy text = true) as ->
      by (destruct text; [cbn in Hlong; lia|reflexivity]).
    cbn [negb orb]. unfold setTimeout. cbv zeta.
    split; [|split].
    + repeat split; cbn; rewrite ?Hst, ?Hlog2, ?Hctl2; assumption.
    + cbn. now rewrite Hst.
    + right. exists (nextTimer w2), (st w2). cbn.
      rewrite Hnone, Hst. repeat split; assumption.
Qed.

(** Less than 500 ms after an update nothing fires. *)
Lemma elapse_debouncing w0 text g w :
  debouncing w0 text w -> g < 500 ->
  elapse g w = put_now (now w + N.of_nat g) w.
Proof.
  intros (_ & _ & [(_ & Hnone)|(id & snap & _ & Hone & _)]) Hg.
  - now apply elapse_idle.
  - apply (elapse_single_wait _ _ _ Hone). cbn. lia.
Qed.

Lemma last_cons_default {A} (l : list A) (a d : A) :
  List.last (a :: l) d = List.last l a.
Proof.
  revert a d. induction l as [|b l IH]; intros a d; [reflexivity|].
  change (List.last (a :: b :: l) d) with (List.last (b :: l) d).
  now rewrite (IH b d), (IH b a).
Qed.

Lemma typeBurst_debouncing w0 rest :
  forall first w,
    debouncing w0 first w -> changing first rest ->
    Forall (fun u => u.1 < 500) rest ->
    debouncing w0 (List.last (map snd rest) first) (typeBurst rest w).
Proof.
  induction rest as [|[g text] rest IH]; intros first w Hinv Hchange Hgaps.
  - exact Hinv.
  - destruct Hchange as (Hne & Hchange).
    apply Forall_cons in Hgaps as (Hg & Hgaps). cbn in Hne, Hg.
    assert (List.last (map snd ((g, text) :: rest)) first
            = List.last (map snd rest) text) as ->.
    { cbn [map snd]. apply last_cons_default. }
    cbn [typeBurst fold_left]. apply (IH text); [|exact Hchange|exact Hgaps].
    cbn [fst snd]. rewrite (elapse_debouncing _ _ _ _ Hinv Hg).
    destruct Hinv as (Hsame & Htext & Hpending).
    apply setOriginalText_debouncing.
    + exact Hsame.
    + change (originalText (st w) <> text). rewrite Htext. exact Hne.
    + change (timers w = []
              \/ exists t, timers w = [t] /\ debounceCleanup w = Some (t_id t)).
      destruct Hpending as [(_ & Hnone)|(id & snap & _ & Hone & Hclean & _)];
        [left; exact Hnone|].
      right. eexists. split; [exact Hone|exact Hclean].
Qed.

(** Once the text has settled, the pending timer fires after 500 ms and
    makes the only call. *)
Lemma elapse_after_debouncing w0 text d w :
  debouncing w0 text w ->
  fetchLog (elapse d w)
  = fetchLog w0
    ++ (if (500 <=? d) && accepted text
        then [firstRequest (translationMode (st w0)) (currentRole (st w0))
                text (length (controllers w0))]
        else []).
Proof.
  intros ((Hlog & Hctl & _) & _ & Hpending).
  destruct Hpending
    as [(Hshort & Hnone)|(id & snap & Hlong & Hone & _ & Hmode & Hrole)].
  - rewrite (elapse_idle _ _ Hnone).
    assert (accepted text = false) as ->.
    { unfold accepted. destruct (Nat.leb_spec 3 (length text)); [lia|].
      apply andb_false_r. }
    rewrite andb_false_r, app_nil_r. exact Hlog.
  - destruct (Nat.leb_spec 500 d) as [Hd|Hd].
    + assert (exists e, d = e + 500) as (e & ->) by (exists (d - 500); lia).
      rewrite elapse_add.
      rewrite (elapse_single_fire _ 499 _ Hone) by (cbn [t_due]; lia).
      cbn [t_due]. unfold fire. cbn [t_action t_id].
      set (w1 := clearTimeout id (put_now (now w + 500) w)).
      assert (timers w1 = []) as Hnone1.
      { unfold w1. cbn. rewrite Hone. cbn. now rewrite Nat.eqb_refl. }
      rewrite elapse_idle by (now rewrite performTranslation_timers).
      change (fetchLog (put_now ?a ?x)) with (fetchLog x).
      cbn [andb]. destruct (accepted text) eqn:Hacc.
      * rewrite (performTranslation_first_request _ _ _ Hacc).
        change (fetchLog w1) with (fetchLog w).
        change (controllers w1) with (controllers w).
        now rewrite Hlog, Hctl, Hmode, Hrole.
      * rewrite (performTranslation_rejected _ _ _ Hacc).
        change (fetchLog w1) with (fetchLog w).
        now rewrite app_nil_r.
    + rewrite (elapse_single_wait _ _ _ Hone) by (cbn [t_due]; lia).
      cbn [andb]. rewrite app_nil_r. exact Hlog.
Qed.

(** C4.  Every change of the utterance to a text of three or more code
    units cancels the timer of the change before it and starts a timer due
    500 ms later.  So a burst of changes, each less than 500 ms after the
    one before, issues no call while it lasts; the one call it causes is
    made when 500 ms have passed after the last change, for the text of
    that last change (if the guard accepts it). *)
Theorem debounce_last_update_only first rest d w :
  originalText (st w) <> first ->
  (3 <= length first ->
   exists snap,
     timers (setOriginalText first w)
     = match debounceCleanup w with
       | Some id => timers (clearTimeout id w)
       | None => timers w
       end ++ [mkTimer (nextTimer w) (now w + 500) (TDebounce snap first)]
     /\ debounceCleanup (setOriginalText first w) = Some (nextTimer w))
  /\ (timers w = [] -> changing first rest ->
      Forall (fun u => u.1 < 500) rest ->
      let text := List.last (map snd rest) first in
      let typed := typeBurst rest (setOriginalText first w) in
      fetchLog typed = fetchLog w
      /\ (3 <= length text ->
          exists id snap,
            timers typed
            = [mkTimer id (now typed + 500) (TDebounce snap text)])
      /\ fetchLog (elapse d typed)
         = fetchLog w
           ++ (if (500 <=? d) && accepted text
               then [firstRequest (translationMode (st w))
                       (currentRole (st w)) text (length (controllers w))]
               else [])).
Proof.
  intros Hfirst. split.
  { intros Hlong.
    destruct (setOriginalText_restarts_timer first w Hfirst Hlong)
      as (snap & Htimers & Hclean & _).
    exists snap. split; assumption. }
  intros Hnone Hchange Hgaps text typed.
  assert (debouncing w text typed) as Hinv.
  { apply typeBurst_debouncing; [|exact Hchange|exact Hgaps].
    apply setOriginalText_debouncing; [|exact Hfirst|left; exact Hnone].
    repeat split. }
  split; [|split].
  - destruct Hinv as ((Hlog & _) & _). exact Hlog.
  - intros Hlong.
    destruct Hinv as (_ & _ & [(Hshort & _)|(id & snap & _ & Hone & _)]);
      [lia|].
    exists id, snap. exact Hone.
  - apply elapse_after_debouncing. exact Hinv.
Qed.

(** "Hal", "Hall", "Hallo" in quick succession: one detection request,
    for "Hallo", 500 ms after the last keystroke. *)
Lemma debounce_last_update_only_witness :
  fetchLog Scenario.typedHallo = [GetHealth]
  /\ fetchLog (elapse 499 Scenario.typedHallo) = [GetHealth]
  /\ fetchLog (elapse 500 Scenario.typedHallo)
     = [GetHealth; PostDetect Scenario.hallo].
Proof.
  assert (originalText (st Scenario.page) <> Js.lit "Hal") as Hfirst
    by (vm_compute; discriminate).
  assert (changing (Js.lit "Hal") [(120, Js.lit "Hall"); (200, Scenario.hallo)])
    as Hchange by (repeat split; vm_compute; discriminate).
  assert (Forall (fun u : nat * jsstring => u.1 < 500)
            [(120, Js.lit "Hall"); (200, Scenario.hallo)]) as Hgaps
    by (repeat constructor; cbn; lia).
  split; [|split].
  - exact (proj1 (proj2 (debounce_last_update_only (Js.lit "Hal") _ 0
                           Scenario.page Hfirst) eq_refl Hchange Hgaps)).
  - exact (proj2 (proj2 (proj2 (debounce_last_update_only (Js.lit "Hal") _ 499
                                  Scenario.page Hfirst)
                           eq_refl Hchange Hgaps))).
  - exact (proj2 (proj2 (proj2 (debounce_last_update_only (Js.lit "Hal") _ 500
                                  Scenario.page Hfirst)
                           eq_refl Hchange Hgaps))).
Defined.

(** * Beyond the pipeline's headline properties *)

(** ** What each event leaves alone *)

(** Case analysis on every test a handler makes. *)
Ltac split_tests :=
  repeat match goal with
    | |- context [match ?x with _ => _ end] =>
        match x with
        | context [match _ with _ => _ end] => fail 1
        | _ => destruct x eqn:?
        end
    end.

Ltac unfold_handlers :=
  cbv [handle setOriginalText originalText_effect setInputText
       setRecognitionLang recognitionLang_effect translateText
       ws_onopen ws_onclose ws_onerror scheduleReconnect initWebSocket
       reconnectNow recognition_onstart recognition_onresult
       recognition_onerror recognition_onend recognizer_ended
       recognizer_start recognizer_stop startRecording stopRecording
       toggleRecording toggleTranslationMode initSpeechRecognition
       handleRoleChange clearAll cleanup setTimeout clearTimeout abort
       setStatus setTranslatedText setIsTranslating setIsRecording
       setCurrentRole setTranslationMode setConnectionStatus].

Ltac unfold_pipeline :=
  cbv [performTranslation sendTranslate put_task detectSettled
       translateSettled onTranslationError finalize speak
       newAbortController].

Ltac head_of t := lazymatch t with ?f _ => head_of f | _ => t end.

(** Walks down a handler towards the world it started from: a layer the
    view does not see is skipped, a test is split, anything else is
    unfolded. *)
Ltac walk :=
  repeat first
    [ lazymatch goal with |- ?a = ?a => reflexivity end
    | lazymatch goal with
      | |- ?view (?layer ?x) = ?v =>
          let h := head_of layer in
          lazymatch h with
          | put_st => idtac
          | put_recognizers => idtac
          | put_recognitionRef => idtac
          | put_socketsCreated => idtac
          | put_websocketRef => idtac
          | put_controllers => idtac
          | put_abortControllerRef => idtac
          | put_reconnectAttemptsRef => idtac
          | put_reconnectTimeoutRef => idtac
          | put_now => idtac
          | put_timers => idtac
          | put_nextTimer => idtac
          | put_debounceCleanup => idtac
          | put_tasks => idtac
          | put_fetchLog => idtac
          | put_spoken => idtac
          | setStatus => idtac
          | setTranslatedText => idtac
          | setIsTranslating => idtac
          | setIsRecording => idtac
          | setInputText => idtac
          | setCurrentRole => idtac
          | setTranslationMode => idtac
          | setConnectionStatus => idtac
          | recognizer_start => idtac
          | recognizer_stop => idtac
          | recognizer_ended => idtac
          end;
          change (view x = v)
      end
    | lazymatch goal with
      | |- _ (match setTimeout _ _ _ with _ => _ end) = _ =>
          unfold setTimeout; cbv beta iota zeta
      | |- _ (match ?x with _ => _ end) = _ => destruct x
      end
    | lazymatch goal with |- _ ?x = _ => is_var x; subst x end
    | lazymatch goal with
      | |- _ (?layer ?x) = _ =>
          tryif is_var x then idtac
          else (let x' := fresh "w" in set (x' := x));
          let h := head_of layer in progress unfold h; cbv beta zeta
      end ].

Lemma setOriginalText_pipelineView text w :
  pipelineView (setOriginalText text w) = pipelineView w.
Proof. walk. Qed.

Lemma handle_pipelineView ev w :
  match ev with
  | Tick | PerformTranslation _ _ | TranslateText _ | DetectSettled _ _
  | TranslateSettled _ _ | Cleanup => True
  | _ => pipelineView (handle ev w) = pipelineView w
  end.
Proof.
  destruct ev; try exact I; cbn [handle];
    try (unfold clearAll; cbv zeta;
         change (pipelineView
                   (setOriginalText [] (setInputText [] (stopRecording w)))
                 = pipelineView w);
         rewrite setOriginalText_pipelineView);
    walk.
Qed.

Lemma run_invariant (P : World -> Prop) :
  (forall ev w, P w -> P (handle ev w)) ->
  forall evs w, P w -> P (run evs w).
Proof.
  intros Hstep evs. induction evs as [|ev evs IH]; intros w Hw; [exact Hw|].
  cbn [run fold_left]. apply IH, Hstep, Hw.
Qed.

Lemma reachable_invariant (P : World -> Prop) :
  (forall e healthy, P (mounted e healthy)) ->
  (forall ev w, P w -> P (handle ev w)) ->
  forall w, reachable w -> P w.
Proof.
  intros Hinit Hstep w (e & healthy & evs & ->).
  apply run_invariant; [exact Hstep|apply Hinit].
Qed.

Lemma fire_preserves (P : World -> Prop) :
  (forall id w, P w -> P (clearTimeout id w)) ->
  (forall snap text w, P w -> P (performTranslation snap text w)) ->
  (forall w, P w -> P (reconnectNow w)) ->
  forall t w, P w -> P (fire t w).
Proof.
  intros Hclear Hperform Hreconnect t w Hw. unfold fire.
  destruct (t_action t); [apply Hperform|apply Hreconnect]; apply Hclear, Hw.
Qed.

Lemma tick_preserves (P : World -> Prop) :
  (forall n w, P w -> P (put_now n w)) ->
  (forall t w, P w -> P (fire t w)) ->
  forall w, P w -> P (tick w).
Proof.
  intros Hnow Hfire w Hw. unfold tick, runDue.
  generalize (List.filter
                (fun t => (t_due t <=? now (put_now (now w + 1) w))%N)
                (timers (put_now (now w + 1) w))).
  intros due. specialize (Hnow (now w + 1)%N w Hw).
  revert Hnow. generalize (put_now (now w + 1) w). clear w Hw.
  induction due as [|t due IH]; intros w Hw; [exact Hw|].
  cbn [fold_left]. apply IH.
  destruct (timer_pending (t_id t) w); [apply Hfire|]; exact Hw.
Qed.

(** ** The pipeline's own steps, field by field *)

Lemma put_task_append t w :
  put_task (length (tasks w)) t w = put_tasks (tasks w ++ [t]) w.
Proof. unfold put_task. case_decide; [lia|reflexivity]. Qed.

Lemma put_task_insert tid t w :
  tid < length (tasks w) ->
  put_task tid t w = put_tasks (<[tid := t]> (tasks w)) w.
Proof. intros Hlt. unfold put_task. case_decide; [reflexivity|lia]. Qed.

Lemma performTranslation_pipelineView snap text w :
  accepted text = true ->
  pipelineView (performTranslation snap text w)
  = (match abortControllerRef w with
     | Some c => <[c := true]> (controllers w)
     | None => controllers w
     end ++ [false],
     Some (length (controllers w)),
     tasks w
     ++ [Some match translationMode snap with
              | auto => AwaitDetect text
              | manual =>
                  AwaitTranslate text (manualPair (currentRole snap)).1
                    (manualPair (currentRole snap)).2 (length (controllers w))
              end],
     fetchLog w
     ++ [firstRequest (translationMode snap) (currentRole snap) text
           (length (controllers w))],
     spoken w).
Proof.
  intros Hacc. rewrite (performTranslation_accepted _ _ _ Hacc).
  unfold pipelineView.
  destruct (translationMode snap).
  - unfold sendTranslate. rewrite started_abortControllerRef.
    assert (length (tasks w) = length (tasks (put_fetchLog
              (fetchLog (started w)
               ++ [PostTranslate text (manualPair (currentRole snap)).1
                     (manualPair (currentRole snap)).2
                     (length (controllers w))]) (started w)))) as Hlen
      by (unfold started; destruct (abortControllerRef w); reflexivity).
    rewrite Hlen, put_task_append. unfold started.
    destruct (abortControllerRef w), (currentRole snap);
      cbn -[manualPair firstRequest]; rewrite ?length_insert; reflexivity.
  - assert (length (tasks w) = length (tasks (put_fetchLog
              (fetchLog w ++ [PostDetect text]) (started w)))) as Hlen
      by (unfold started; destruct (abortControllerRef w); reflexivity).
    rewrite Hlen, put_task_append. unfold started.
    destruct (abortControllerRef w);
      cbn -[firstRequest]; rewrite ?length_insert; reflexivity.
Qed.

Lemma setRecognitionLang_pipelineView l w :
  pipelineView (setRecognitionLang l w) = pipelineView w.
Proof. exact (handle_pipelineView (SetRecognitionLang l) w). Qed.

Lemma detectSettled_pipelineView tid text r c w :
  tasks w !! tid = Some (Some (AwaitDetect text)) ->
  abortControllerRef w = Some c ->
  pipelineView (detectSettled tid r w)
  = (controllers w, Some c,
     <[tid := Some (AwaitTranslate text (autoPair (detectLanguage r)).1
                      (autoPair (detectLanguage r)).2 c)]> (tasks w),
     fetchLog w
     ++ [PostTranslate text (autoPair (detectLanguage r)).1
           (autoPair (detectLanguage r)).2 c],
     spoken w).
Proof.
  intros Htask Href. rewrite (detectSettled_awaiting _ _ _ _ Htask). cbn zeta.
  set (l := if decide (detectLanguage r = Str.RU) then _ else _).
  pose proof (setRecognitionLang_pipelineView l w) as Hview.
  unfold pipelineView in Hview. injection Hview as Hctl Href' Htasks Hlog Hsp.
  unfold sendTranslate. rewrite Href', Href.
  rewrite put_task_insert
    by (cbn [tasks put_fetchLog]; rewrite Htasks;
        apply lookup_lt_Some in Htask; exact Htask).
  unfold pipelineView. cbn [controllers abortControllerRef tasks fetchLog
                             spoken put_tasks put_fetchLog].
  now rewrite Hctl, Href', Htasks, Hlog, Hsp, Href.
Qed.

Lemma detectSettled_idle tid r w :
  (forall text, tasks w !! tid <> Some (Some (AwaitDetect text))) ->
  detectSettled tid r w = w.
Proof.
  intros Hidle. unfold detectSettled.
  destruct (tasks w !! tid) as [[[text|text fromLang toLang signal]|]|];
    try reflexivity.
  now destruct (Hidle text).
Qed.

Lemma translateSettled_idle tid r w :
  (forall text fromLang toLang signal,
     tasks w !! tid
     <> Some (Some (AwaitTranslate text fromLang toLang signal))) ->
  translateSettled tid r w = w.
Proof.
  intros Hidle. unfold translateSettled.
  destruct (tasks w !! tid) as [[[text|text fromLang toLang signal]|]|];
    try reflexivity.
  now destruct (Hidle text fromLang toLang signal).
Qed.

Lemma speak_spoken translation toLang w :
  spoken (speak translation toLang w) = spoken w
  \/ exists u, spoken (speak translation toLang w) = spoken w ++ [u]
               /\ utteranceOk u.
Proof.
  unfold speak.
  destruct (hasSpeechSynthesis (env w) && Js.truthy translation) eqn:Hsay;
    [|now left].
  right. eexists. split; [reflexivity|].
  apply andb_prop in Hsay as (_ & Hsay). split; cbn.
  - now destruct translation.
  - case_decide; tauto.
Qed.

Lemma speak_frame translation toLang w :
  controllers (speak translation toLang w) = controllers w
  /\ abortControllerRef (speak translation toLang w) = abortControllerRef w
  /\ tasks (speak translation toLang w) = tasks w
  /\ fetchLog (speak translation toLang w) = fetchLog w
  /\ timers (speak translation toLang w) = timers w.
Proof. unfold speak. now destruct (_ && _). Qed.

(** Settling a waiting translate request clears its slot and touches
    nothing of the pipeline but the playback log. *)
Lemma translateSettled_fields tid text fromLang toLang signal r w :
  tasks w !! tid = Some (Some (AwaitTranslate text fromLang toLang signal)) ->
  let w' := translateSettled tid r w in
  controllers w' = controllers w
  /\ abortControllerRef w' = abortControllerRef w
  /\ tasks w' = <[tid := None]> (tasks w)
  /\ fetchLog w' = fetchLog w
  /\ (spoken w' = spoken w
      \/ exists u, spoken w' = spoken w ++ [u] /\ utteranceOk u).
Proof.
  intros Htask w'. unfold w'.
  rewrite (translateSettled_awaiting _ _ _ _ _ _ _ Htask). cbn zeta.
  rewrite put_task_insert by (apply lookup_lt_Some in Htask; exact Htask).
  destruct (if aborted signal w then _ else r) as [b|e].
  - unfold finalize, setIsTranslating.
    cbn [controllers abortControllerRef tasks fetchLog spoken put_st].
    set (w1 := setStatus _ _).
    destruct (speak_frame (default [] (translated_text b)) toLang w1)
      as (-> & -> & -> & -> & _).
    destruct (speak_spoken (default [] (translated_text b)) toLang w1)
      as [->|(u & -> & Hu)]; repeat split; eauto.
  - unfold onTranslationError. case_decide; repeat split; now left.
Qed.

(** ** The slot and its controllers *)

Lemma tokensOk_view w w' :
  pipelineView w' = pipelineView w -> tokensOk w -> tokensOk w'.
Proof.
  unfold pipelineView, tokensOk, oneLiveToken.
  intros [= -> -> -> _ _]. tauto.
Qed.

Lemma tokensOk_performTranslation snap text w :
  tokensOk w -> tokensOk (performTranslation snap text w).
Proof.
  intros Hok. destruct (accepted text) eqn:Hacc;
    [|now rewrite performTranslation_rejected].
  pose proof (performTranslation_oneLiveToken snap text w) as Hlive.
  pose proof (performTranslation_pipelineView snap text w Hacc) as Hview.
  unfold pipelineView in Hview. injection Hview as Hctl Href Htasks _ _.
  destruct Hok as (Hvalid & Hone & _ & Hsignals).
  assert (length (controllers (performTranslation snap text w))
          = S (length (controllers w))) as Hlen.
  { rewrite Hctl, length_app. cbn.
    destruct (abortControllerRef w); rewrite ?length_insert; lia. }
  split; [|split; [|split]].
  - intros c Hc. rewrite Href in Hc. injection Hc as <-. lia.
  - apply Hlive, Hone.
  - intros tid t _. rewrite Href. eauto.
  - intros tid text' fromLang toLang signal Htask. rewrite Hlen.
    rewrite Htasks in Htask.
    destruct (decide (tid < length (tasks w))) as [Hlt|Hge].
    + rewrite lookup_app_l in Htask by exact Hlt.
      specialize (Hsignals _ _ _ _ _ Htask). lia.
    + rewrite lookup_app_r in Htask by lia.
      destruct (tid - length (tasks w)) as [|k]; [|destruct k; discriminate].
      cbn in Htask. destruct (translationMode snap); [|discriminate].
      injection Htask as _ _ _ <-. lia.
Qed.

Lemma tokensOk_detectSettled tid r w :
  tokensOk w -> tokensOk (detectSettled tid r w).
Proof.
  intros Hok.
  destruct (tasks w !! tid) as [[[text|text fromLang toLang signal]|]|]
    eqn:Htask;
    try (rewrite detectSettled_idle; [exact Hok|now rewrite Htask]).
  destruct Hok as (Hvalid & Hone & Hwaiting & Hsignals).
  destruct (Hwaiting _ _ Htask) as (c & Href).
  pose proof (detectSettled_pipelineView tid text r c w Htask Href) as Hview.
  unfold pipelineView in Hview. injection Hview as Hctl Href' Htasks _ _.
  unfold tokensOk, oneLiveToken. rewrite Hctl, Href', Htasks, <- Href.
  split; [exact Hvalid|]. split; [exact Hone|]. split.
  - intros. rewrite Href. eauto.
  - intros tid' text' fromLang toLang signal Hlook.
    destruct (decide (tid = tid')) as [<-|Hne].
    + rewrite list_lookup_insert_eq in Hlook
        by (apply lookup_lt_Some in Htask; exact Htask).
      injection Hlook as _ _ _ <-. apply Hvalid, Href.
    + rewrite list_lookup_insert_ne in Hlook by exact Hne.
      eapply Hsignals, Hlook.
Qed.

Lemma tokensOk_translateSettled tid r w :
  tokensOk w -> tokensOk (translateSettled tid r w).
Proof.
  intros Hok.
  destruct (tasks w !! tid) as [[[text|text fromLang toLang signal]|]|]
    eqn:Htask;
    try (rewrite translateSettled_idle; [exact Hok|now rewrite Htask]).
  destruct (translateSettled_fields tid text fromLang toLang signal r w Htask)
    as (Hctl & Href & Htasks & _).
  destruct Hok as (Hvalid & Hone & Hwaiting & Hsignals).
  unfold tokensOk, oneLiveToken. rewrite Hctl, Href, Htasks.
  split; [exact Hvalid|]. split; [exact Hone|]. split.
  - intros tid' t Hlook. destruct (decide (tid = tid')) as [<-|Hne].
    + rewrite list_lookup_insert_eq in Hlook
        by (apply lookup_lt_Some in Htask; exact Htask).
      discriminate.
    + rewrite list_lookup_insert_ne in Hlook by exact Hne.
      eapply Hwaiting, Hlook.
  - intros tid' text' fromLang' toLang' signal' Hlook.
    destruct (decide (tid = tid')) as [<-|Hne].
    + rewrite list_lookup_insert_eq in Hlook
        by (apply lookup_lt_Some in Htask; exact Htask).
      discriminate.
    + rewrite list_lookup_insert_ne in Hlook by exact Hne.
      eapply Hsignals, Hlook.
Qed.

Lemma cleanup_pipelineView w :
  pipelineView (cleanup w)
  = (match abortControllerRef w with
     | Some c => <[c := true]> (controllers w)
     | None => controllers w
     end, abortControllerRef w, tasks w, fetchLog w, spoken w).
Proof.
  unfold pipelineView, cleanup.
  destruct (recognitionRef w);
    cbn [reconnectTimeoutRef recognizer_stop put_recognizers];
    destruct (reconnectTimeoutRef w);
    cbn [abortControllerRef clearTimeout put_timers recognizer_stop
         put_recognizers];
    destruct (abortControllerRef w) eqn:Hc; cbn; rewrite ?Hc; reflexivity.
Qed.

Lemma tokensOk_cleanup w : tokensOk w -> tokensOk (cleanup w).
Proof.
  intros (Hvalid & Hone & Hwaiting & Hsignals). unfold oneLiveToken in Hone.
  pose proof (cleanup_pipelineView w) as Hview.
  unfold pipelineView in Hview. injection Hview as Hctl Href Htasks _ _.
  unfold tokensOk, oneLiveToken. rewrite Hctl, Href, Htasks.
  destruct (abortControllerRef w) as [c|] eqn:Hc.
  - rewrite length_insert. split; [exact Hvalid|]. split; [|tauto].
    intros c' Hlive. destruct (decide (c = c')) as [<-|Hne]; [reflexivity|].
    rewrite list_lookup_insert_ne in Hlive by exact Hne.
    apply Hone, Hlive.
  - tauto.
Qed.

Lemma tokensOk_handle ev w : tokensOk w -> tokensOk (handle ev w).
Proof.
  intros Hok.
  assert (forall t w, tokensOk w -> tokensOk (fire t w)) as Hfire.
  { apply fire_preserves.
    - intros id w0. now apply tokensOk_view.
    - intros snap text w0. apply tokensOk_performTranslation.
    - intros w0. apply tokensOk_view. unfold pipelineView. unfold_handlers.
      split_tests; reflexivity. }
  pose proof (handle_pipelineView ev w) as Hframe.
  destruct ev; try (eapply tokensOk_view; [exact Hframe|exact Hok]);
    cbn [handle].
  - apply tick_preserves; [|exact Hfire|exact Hok].
    intros n w0. now apply tokensOk_view.
  - now apply tokensOk_performTranslation.
  - unfold translateText. destruct (Js.truthy _); [|exact Hok].
    now apply tokensOk_performTranslation.
  - now apply tokensOk_detectSettled.
  - now apply tokensOk_translateSettled.
  - now apply tokensOk_cleanup.
Qed.

Lemma mounted_pipelineView e healthy :
  pipelineView (mounted e healthy)
  = pipelineView (put_fetchLog [GetHealth] (initial_world e)).
Proof.
  walk.
Qed.

Lemma tokensOk_mounted e healthy : tokensOk (mounted e healthy).
Proof.
  eapply tokensOk_view; [apply mounted_pipelineView|].
  unfold tokensOk, oneLiveToken. cbn. repeat split; intros; discriminate.
Qed.

(** ** What is sent, what waits, what is spoken *)

Lemma requestsOk_view w w' :
  pipelineView w' = pipelineView w -> requestsOk w -> requestsOk w'.
Proof.
  unfold pipelineView, requestsOk. intros [= _ _ -> -> ->]. tauto.
Qed.

Lemma detectLanguage_nonempty r : detectLanguage r <> [].
Proof. destruct r as [[[[|c s]|]]|e]; discriminate. Qed.

Lemma autoPair_ok detected :
  detected <> [] ->
  (autoPair detected).1 <> [] /\ isTargetLang (autoPair detected).2.
Proof.
  intros Hne. unfold autoPair, isTargetLang.
  case_decide; cbn; split; (discriminate || tauto).
Qed.

Lemma manualPair_ok role :
  (manualPair role).1 <> [] /\ isTargetLang (manualPair role).2.
Proof. destruct role; split; cbn; (discriminate || unfold isTargetLang; tauto). Qed.

Lemma requestsOk_performTranslation snap text w :
  requestsOk w -> requestsOk (performTranslation snap text w).
Proof.
  intros (Hcalls & Htasks & Hspoken). destruct (accepted text) eqn:Hacc;
    [|now rewrite performTranslation_rejected].
  pose proof (performTranslation_pipelineView snap text w Hacc) as Hview.
  unfold pipelineView in Hview. injection Hview as _ _ Ht Hl Hs.
  unfold requestsOk. rewrite Ht, Hl, Hs.
  destruct (manualPair_ok (currentRole snap)) as (Hsrc & Htgt).
  split; [|split; [|exact Hspoken]].
  - apply Forall_app. split; [exact Hcalls|]. constructor; [|constructor].
    destruct (translationMode snap); [|exact Hacc].
    destruct (currentRole snap); repeat split; try exact Hacc;
      try discriminate; unfold isTargetLang; tauto.
  - apply Forall_app. split; [exact Htasks|]. constructor; [|constructor].
    destruct (translationMode snap); cbn; tauto.
Qed.

Lemma requestsOk_detectSettled tid r w :
  tokensOk w -> requestsOk w -> requestsOk (detectSettled tid r w).
Proof.
  intros (_ & _ & Hwaiting & _) Hok.
  destruct (tasks w !! tid) as [[[text|text fromLang toLang signal]|]|]
    eqn:Htask;
    try (rewrite detectSettled_idle; [exact Hok|now rewrite Htask]).
  destruct (Hwaiting _ _ Htask) as (c & Href).
  pose proof (detectSettled_pipelineView tid text r c w Htask Href) as Hview.
  unfold pipelineView in Hview. injection Hview as _ _ Ht Hl Hs.
  destruct Hok as (Hcalls & Htasks & Hspoken).
  assert (accepted text = true) as Hacc.
  { rewrite Forall_lookup in Htasks. exact (Htasks _ _ Htask). }
  destruct (autoPair_ok _ (detectLanguage_nonempty r)) as (Hsrc & Htgt).
  unfold requestsOk. rewrite Ht, Hl, Hs.
  split; [|split; [|exact Hspoken]].
  - apply Forall_app. split; [exact Hcalls|].
    constructor; [cbn; tauto|constructor].
  - apply Forall_insert; [exact Htasks|]. cbn. tauto.
Qed.

Lemma requestsOk_translateSettled tid r w :
  requestsOk w -> requestsOk (translateSettled tid r w).
Proof.
  intros Hok.
  destruct (tasks w !! tid) as [[[text|text fromLang toLang signal]|]|]
    eqn:Htask;
    try (rewrite translateSettled_idle; [exact Hok|now rewrite Htask]).
  destruct (translateSettled_fields tid text fromLang toLang signal r w Htask)
    as (_ & _ & Ht & Hl & Hs).
  destruct Hok as (Hcalls & Htasks & Hspoken).
  unfold requestsOk. rewrite Ht, Hl.
  split; [exact Hcalls|]. split; [now apply Forall_insert|].
  destruct Hs as [->|(u & -> & Hu)]; [exact Hspoken|].
  apply Forall_app. split; [exact Hspoken|].
  constructor; [exact Hu|constructor].
Qed.

Lemma pipelineOk_handle ev w :
  tokensOk w /\ requestsOk w ->
  tokensOk (handle ev w) /\ requestsOk (handle ev w).
Proof.
  intros (Htok & Hok). split; [now apply tokensOk_handle|].
  assert (forall t w, requestsOk w -> requestsOk (fire t w)) as Hfire.
  { apply fire_preserves.
    - intros id w0. now apply requestsOk_view.
    - intros snap text w0. apply requestsOk_performTranslation.
    - intros w0. apply requestsOk_view. unfold pipelineView. unfold_handlers.
      split_tests; reflexivity. }
  pose proof (handle_pipelineView ev w) as Hframe.
  destruct ev; try (eapply requestsOk_view; [exact Hframe|exact Hok]);
    cbn [handle].
  - apply tick_preserves; [|exact Hfire|exact Hok].
    intros n w0. now apply requestsOk_view.
  - now apply requestsOk_performTranslation.
  - unfold translateText. destruct (Js.truthy _); [|exact Hok].
    now apply requestsOk_performTranslation.
  - now apply requestsOk_detectSettled.
  - now apply requestsOk_translateSettled.
  - pose proof (cleanup_pipelineView w) as Hview.
    unfold pipelineView in Hview. injection Hview as _ _ Ht Hl Hs.
    unfold requestsOk. rewrite Ht, Hl, Hs. exact Hok.
Qed.

(** ** The timer heap *)

Lemma handle_timerView ev w :
  match ev with
  | Tick | SetOriginalText _ | RecognitionResult _ | ClearAll | WsClose
  | Cleanup => True
  | _ => timerView (handle ev w) = timerView w
  end.
Proof.
  destruct ev; try exact I; cbn [handle]; walk.
Qed.

Lemma timersOk_view w w' :
  timerView w' = timerView w -> timersOk w -> timersOk w'.
Proof. unfold timersOk. now intros ->. Qed.

Lemma NoDup_map_filter {A B} (f : A -> B) (p : A -> bool) (l : list A) :
  NoDup (map f l) -> NoDup (map f (List.filter p l)).
Proof.
  induction l as [|a l IH]; cbn; [trivial|].
  rewrite NoDup_cons. intros (Hnotin & Hnodup).
  destruct (p a); [|now apply IH]. cbn. rewrite NoDup_cons.
  split; [|now apply IH].
  intros Hin. apply Hnotin. apply list_elem_of_In in Hin.
  apply list_elem_of_In. apply in_map_iff in Hin as (x & Hfx & Hx).
  apply in_map_iff. exists x. apply filter_In in Hx. tauto.
Qed.

Lemma timersOkView_clear id ts next registered utterance :
  timersOkView (ts, next, registered, utterance) ->
  timersOkView
    (List.filter (fun t => negb (Nat.eqb (t_id t) id)) ts, next, registered,
     utterance).
Proof.
  intros (Hnodup & Hbelow & Hdeb). split; [|split].
  - now apply NoDup_map_filter.
  - rewrite Forall_forall in Hbelow |- *. intros t Hin.
    apply Hbelow. apply list_elem_of_In. apply list_elem_of_In in Hin.
    apply filter_In in Hin. tauto.
  - intros t snap text Hin. apply filter_In in Hin. now apply Hdeb.
Qed.

Lemma timersOkView_add next due a ts registered utterance :
  timersOkView (ts, next, registered, utterance) ->
  (forall snap text,
     a = TDebounce snap text ->
     registered = Some next /\ text = utterance /\ 3 <= length text) ->
  timersOkView (ts ++ [mkTimer next due a], S next, registered, utterance).
Proof.
  intros (Hnodup & Hbelow & Hdeb) Hnew. split; [|split].
  - rewrite map_app. apply NoDup_app. split; [exact Hnodup|]. split.
    + intros id Hin Hid. cbn in Hid. apply list_elem_of_In in Hid.
      destruct Hid as [<-|[]]. apply list_elem_of_In in Hin.
      apply in_map_iff in Hin as (t & Hid & Hin).
      rewrite Forall_forall in Hbelow.
      apply list_elem_of_In in Hin. specialize (Hbelow t Hin). lia.
    + cbn. apply NoDup_singleton.
  - apply Forall_app. split.
    + eapply Forall_impl; [exact Hbelow|]. cbn. intros; lia.
    + constructor; [cbn; lia|constructor].
  - intros t snap text Hin Hact. apply in_app_or in Hin as [Hin|[<-|[]]].
    + now apply (Hdeb t snap text).
    + cbn in Hact. now apply (Hnew snap text).
Qed.

(** Cancelling the registered timer leaves no debounce timer behind. *)
Lemma timersOkView_unregister ts next registered utterance utterance' :
  timersOkView (ts, next, registered, utterance) ->
  timersOkView
    (match registered with
     | Some id => List.filter (fun t => negb (Nat.eqb (t_id t) id)) ts
     | None => ts
     end, next, None, utterance')
  /\ (forall registered',
        timersOkView
          (match registered with
           | Some id => List.filter (fun t => negb (Nat.eqb (t_id t) id)) ts
           | None => ts
           end, next, registered', utterance')).
Proof.
  intros Hok.
  assert (forall t snap text,
            In t match registered with
                 | Some id =>
                     List.filter (fun t => negb (Nat.eqb (t_id t) id)) ts
                 | None => ts
                 end ->
            t_action t = TDebounce snap text -> False) as Hnone.
  { intros t snap text Hin Hact. destruct Hok as (_ & _ & Hdeb).
    destruct registered as [id|].
    - apply filter_In in Hin as (Hin & Hid).
      destruct (Hdeb t snap text Hin Hact) as ([= Heq] & _).
      cbn in Hid. rewrite Heq, Nat.eqb_refl in Hid. discriminate.
    - now destruct (Hdeb t snap text Hin Hact). }
  assert (forall registered',
            timersOkView
              (match registered with
               | Some id =>
                   List.filter (fun t => negb (Nat.eqb (t_id t) id)) ts
               | None => ts
               end, next, registered', utterance')) as Hany.
  { intros registered'.
    assert (timersOkView
              (match registered with
               | Some id =>
                   List.filter (fun t => negb (Nat.eqb (t_id t) id)) ts
               | None => ts
               end, next, registered, utterance)) as (Hnodup & Hbelow & _)
      by (destruct registered; [now apply timersOkView_clear|exact Hok]).
    split; [exact Hnodup|]. split; [exact Hbelow|].
    intros t snap text Hin Hact. now destruct (Hnone t snap text Hin Hact). }
  split; [apply Hany|exact Hany].
Qed.

Lemma setOriginalText_timerView text w :
  originalText (st w) <> text ->
  timerView (setOriginalText text w)
  = let ts := match debounceCleanup w with
              | Some id =>
                  List.filter (fun t => negb (Nat.eqb (t_id t) id)) (timers w)
              | None => timers w
              end in
    if 3 <=? length text then
      (ts ++ [mkTimer (nextTimer w) (now w + 500)
                (TDebounce (with_originalText text (st w)) text)],
       S (nextTimer w), Some (nextTimer w), text)
    else (ts, nextTimer w, None, text).
Proof.
  intros Hchange. unfold setOriginalText.
  rewrite decide_False by exact Hchange.
  destruct (Nat.leb_spec 3 (length text)) as [Hlong|Hshort].
  - unfold originalText_effect.
    set (w1 := put_st (with_originalText text (st w)) w).
    set (w2 := match debounceCleanup w1 with Some _ => _ | None => _ end).
    assert (st w2 = st w1) as Hst
      by (unfold w2; destruct (debounceCleanup w1); reflexivity).
    assert (Js.truthy text = true) as Htruthy
      by (destruct text; [cbn in Hlong; lia|reflexivity]).
    assert ((length text <? 3) = false) as Hlt by (apply Nat.ltb_ge; lia).
    cbv zeta. rewrite Hst. change (originalText (st w1)) with text.
    rewrite Htruthy, Hlt. cbn [negb orb]. unfold setTimeout, timerView, w2.
    change (debounceCleanup w1) with (debounceCleanup w).
    destruct (debounceCleanup w); reflexivity.
  - rewrite originalText_effect_short by (cbn; lia).
    unfold timerView.
    destruct (debounceCleanup w) eqn:Hc, text as [|c text]; cbn;
      rewrite ?Hc; cbn; rewrite ?Hc; reflexivity.
Qed.

Lemma timersOk_setOriginalText text w :
  timersOk w -> timersOk (setOriginalText text w).
Proof.
  intros Hok. destruct (decide (originalText (st w) = text)) as [Heq|Hne].
  { unfold setOriginalText. now rewrite decide_True by exact Heq. }
  unfold timersOk. rewrite (setOriginalText_timerView _ _ Hne). cbv zeta.
  destruct (timersOkView_unregister _ _ _ _ text Hok) as (Hnone & Hany).
  destruct (Nat.leb_spec 3 (length text)) as [Hlong|Hshort];
    [|exact Hnone].
  specialize (Hany (Some (nextTimer w))).
  apply timersOkView_add; [exact Hany|].
  intros snap text' [= _ <-]. tauto.
Qed.

Lemma timersOk_clearTimeout id w : timersOk w -> timersOk (clearTimeout id w).
Proof. apply timersOkView_clear. Qed.

Lemma timersOk_scheduleReconnect w :
  timersOk w -> timersOk (scheduleReconnect w).
Proof.
  intros Hok. unfold timersOk, timerView, scheduleReconnect. cbn.
  apply timersOkView_add; [exact Hok|]. discriminate.
Qed.

Lemma timersOk_performTranslation snap text w :
  timersOk w -> timersOk (performTranslation snap text w).
Proof.
  apply timersOk_view. exact (handle_timerView (PerformTranslation snap text) w).
Qed.

Lemma timersOk_reconnectNow w : timersOk w -> timersOk (reconnectNow w).
Proof.
  intros Hok. unfold reconnectNow, initWebSocket.
  destruct (wsConstructorThrows _); [|exact Hok].
  apply timersOk_scheduleReconnect. exact Hok.
Qed.

Lemma timersOk_handle ev w : timersOk w -> timersOk (handle ev w).
Proof.
  intros Hok.
  pose proof (handle_timerView ev w) as Hframe.
  destruct ev;
    try (eapply timersOk_view; [exact Hframe|exact Hok]);
    cbn [handle].
  - apply tick_preserves; [| |exact Hok].
    + intros n w0. now apply timersOk_view.
    + apply fire_preserves.
      * apply timersOk_clearTimeout.
      * apply timersOk_performTranslation.
      * apply timersOk_reconnectNow.
  - now apply timersOk_setOriginalText.
  - apply timersOk_scheduleReconnect. exact Hok.
  - unfold recognition_onresult. cbv zeta.
    match goal with
    | |- context [Js.truthy ?x] => destruct (Js.truthy x)
    end; [|exact Hok].
    now apply timersOk_setOriginalText.
  - apply (timersOk_view
             (setOriginalText [] (setInputText [] (stopRecording w))));
      [reflexivity|].
    apply timersOk_setOriginalText. apply (timersOk_view w); [|exact Hok].
    unfold timerView. unfold_handlers. split_tests; reflexivity.
  - unfold cleanup.
    destruct (recognitionRef w);
      cbn [reconnectTimeoutRef recognizer_stop put_recognizers];
      destruct (reconnectTimeoutRef w);
      cbn [abortControllerRef clearTimeout put_timers recognizer_stop
           put_recognizers];
      destruct (abortControllerRef w); try exact Hok;
      try exact (timersOk_clearTimeout _ _ Hok).
Qed.

Lemma timersOkView_empty next registered utterance :
  timersOkView ([], next, registered, utterance).
Proof.
  split; [apply NoDup_nil_2|]. split; [constructor|]. intros t snap text [].
Qed.

Lemma timersOk_mounted e healthy : timersOk (mounted e healthy).
Proof.
  unfold timersOk.
  assert (timerView (mounted e healthy)
          = if wsConstructorThrows e
            then ([] ++ [mkTimer 0 (0 + reconnectDelay 0) TReconnect], 1,
                  None, [])
            else ([], 0, None, [])) as ->.
  { destruct e as [sr ss vl throws], sr, throws; reflexivity. }
  destruct (wsConstructorThrows e); [|apply timersOkView_empty].
  apply timersOkView_add; [apply timersOkView_empty|discriminate].
Qed.

(** ** Invariants of the mounted hook *)

Lemma reachable_pipelineOk w : reachable w -> tokensOk w /\ requestsOk w.
Proof.
  apply (reachable_invariant (fun w => tokensOk w /\ requestsOk w)).
  - intros e healthy. split; [apply tokensOk_mounted|].
    eapply requestsOk_view; [apply mounted_pipelineView|].
    unfold requestsOk. cbn. repeat constructor.
  - apply pipelineOk_handle.
Qed.

Lemma reachable_timersOk w : reachable w -> timersOk w.
Proof.
  apply reachable_invariant; [apply timersOk_mounted|apply timersOk_handle].
Qed.

(** X1.  In every world the mounted hook can reach, the slot points at an
    existing controller, every other controller is aborted, and every
    request in flight listens to a controller that exists. *)
Theorem slot_holds_the_only_live_token w :
  reachable w ->
  (forall c, abortControllerRef w = Some c -> c < length (controllers w))
  /\ (forall c,
        c < length (controllers w) -> abortControllerRef w <> Some c ->
        aborted c w = true)
  /\ (forall tid text fromLang toLang signal,
        tasks w !! tid
        = Some (Some (AwaitTranslate text fromLang toLang signal)) ->
        signal < length (controllers w)).
Proof.
  intros Hreach.
  destruct (reachable_pipelineOk w Hreach)
    as ((Hvalid & Hone & _ & Hsignals) & _).
  split; [exact Hvalid|]. split; [|exact Hsignals].
  intros c Hc Hother. unfold aborted.
  destruct (controllers w !! c) as [[|]|] eqn:Hlook; [reflexivity| |].
  - now destruct (Hother (Hone c Hlook)).
  - apply lookup_ge_None in Hlook. lia.
Qed.

(** After the overlap of the scenario: controller 1 in the slot,
    controller 0 aborted. *)
Lemma slot_holds_the_only_live_token_witness :
  (forall c,
     abortControllerRef (run Trace.overlap Scenario.page) = Some c ->
     c < length (controllers (run Trace.overlap Scenario.page)))
  /\ aborted 0 (run Trace.overlap Scenario.page) = true.
Proof.
  assert (reachable (run Trace.overlap Scenario.page)) as Hreach
    by (exists Scenario.browser, true, Trace.overlap; reflexivity).
  destruct (slot_holds_the_only_live_token _ Hreach) as (Hvalid & Hone & _).
  split; [exact Hvalid|]. apply Hone; [vm_compute; lia|].
  vm_compute. discriminate.
Defined.

(** X2.  In every reachable world, each request sent carries a text the
    guard accepted (at least three code units, not blank), each translate
    request has a non-empty source and the target "RU" or "DE", and each
    utterance spoken is a non-empty text in "ru-RU" or "de-DE". *)
Theorem requests_are_well_formed w :
  reachable w ->
  (forall text, In (PostDetect text) (fetchLog w) -> accepted text = true)
  /\ (forall text source target signal,
        In (PostTranslate text source target signal) (fetchLog w) ->
        accepted text = true /\ source <> []
        /\ (target = Str.RU \/ target = Str.DE))
  /\ (forall u,
        In u (spoken w) ->
        u_text u <> [] /\ (u_lang u = Str.ru_RU \/ u_lang u = Str.de_DE)).
Proof.
  intros Hreach.
  destruct (reachable_pipelineOk w Hreach) as (_ & Hcalls & _ & Hspoken).
  rewrite Forall_forall in Hcalls. rewrite Forall_forall in Hspoken.
  split; [|split].
  - intros text Hin. apply list_elem_of_In in Hin. exact (Hcalls _ Hin).
  - intros text source target signal Hin. apply list_elem_of_In in Hin.
    exact (Hcalls _ Hin).
  - intros u Hin. apply list_elem_of_In in Hin. exact (Hspoken _ Hin).
Qed.

(** "Hallo" is translated and spoken, "Привет" is sent for detection, then
    the page is torn down. *)
Lemma requests_are_well_formed_witness :
  In (PostDetect Scenario.privet)
    (fetchLog (run Trace.tornDown Scenario.page))
  /\ accepted Scenario.privet = true
  /\ In (mkUtterance Scenario.privet Str.ru_RU false)
       (spoken (run Trace.tornDown Scenario.page))
  /\ (u_lang (mkUtterance Scenario.privet Str.ru_RU false) = Str.ru_RU
      \/ u_lang (mkUtterance Scenario.privet Str.ru_RU false) = Str.de_DE).
Proof.
  assert (reachable (run Trace.tornDown Scenario.page)) as Hreach
    by (exists Scenario.browser, true, Trace.tornDown; reflexivity).
  assert (In (PostDetect Scenario.privet)
            (fetchLog (run Trace.tornDown Scenario.page))) as Hsent
    by (vm_compute; tauto).
  assert (In (mkUtterance Scenario.privet Str.ru_RU false)
            (spoken (run Trace.tornDown Scenario.page))) as Hsaid
    by (vm_compute; tauto).
  destruct (requests_are_well_formed _ Hreach) as (Hdetect & _ & Hspoken).
  split; [exact Hsent|]. split; [exact (Hdetect _ Hsent)|].
  split; [exact Hsaid|]. exact (proj2 (Hspoken _ Hsaid)).
Defined.

(** X3.  In every reachable world the continuation after detection finds
    a controller in the slot: it sends the translate request on that
    controller's signal and publishes no error, whatever detection
    answered. *)
Theorem detection_is_followed_by_a_request tid text r w :
  reachable w ->
  tasks w !! tid = Some (Some (AwaitDetect text)) ->
  exists c source target,
    abortControllerRef w = Some c
    /\ fetchLog (detectSettled tid r w)
       = fetchLog w ++ [PostTranslate text source target c]
    /\ tasks (detectSettled tid r w) !! tid
       = Some (Some (AwaitTranslate text source target c))
    /\ status (st (detectSettled tid r w)) = status (st w)
    /\ translatedText (st (detectSettled tid r w)) = translatedText (st w).
Proof.
  intros Hreach Htask.
  destruct (reachable_pipelineOk w Hreach) as ((_ & _ & Hwaiting & _) & _).
  destruct (Hwaiting _ _ Htask) as (c & Href).
  exists c, (autoPair (detectLanguage r)).1, (autoPair (detectLanguage r)).2.
  pose proof (detectSettled_pipelineView tid text r c w Htask Href) as Hview.
  unfold pipelineView in Hview. injection Hview as _ _ Ht Hl _.
  split; [exact Href|]. split; [exact Hl|]. split.
  - rewrite Ht. apply list_lookup_insert_eq.
    apply lookup_lt_Some in Htask. exact Htask.
  - rewrite (detectSettled_awaiting _ _ _ _ Htask). cbn zeta.
    set (l := if decide (detectLanguage r = Str.RU) then _ else _).
    destruct (setRecognitionLang_frame l w)
      as (_ & _ & _ & Href' & _ & Htr & Hstatus & _).
    rewrite (sendTranslate_st _ _ _ _ c) by (now rewrite Href').
    split; assumption.
Qed.

Lemma detection_is_followed_by_a_request_witness :
  exists c source target,
    abortControllerRef Scenario.requestB = Some c
    /\ fetchLog (detectSettled 0 (Rejected (mkError [] []))
                   Scenario.requestB)
       = fetchLog Scenario.requestB
         ++ [PostTranslate Scenario.privet source target c]
    /\ tasks (detectSettled 0 (Rejected (mkError [] [])) Scenario.requestB)
       !! 0
       = Some (Some (AwaitTranslate Scenario.privet source target c))
    /\ status (st (detectSettled 0 (Rejected (mkError [] []))
                     Scenario.requestB))
       = status (st Scenario.requestB)
    /\ translatedText (st (detectSettled 0 (Rejected (mkError [] []))
                             Scenario.requestB))
       = translatedText (st Scenario.requestB).
Proof.
  apply detection_is_followed_by_a_request; [|reflexivity].
  exists Scenario.browser, true,
    [PerformTranslation (st Scenario.page) Scenario.privet;
     PerformTranslation (st Scenario.requestA) Scenario.hallo].
  vm_compute. reflexivity.
Defined.

Lemma NoDup_map_inj {A B} (f : A -> B) (l : list A) x y :
  NoDup (map f l) -> In x l -> In y l -> f x = f y -> x = y.
Proof.
  induction l as [|a l IH]; cbn; [tauto|].
  rewrite NoDup_cons. intros (Hnotin & Hnodup) [->|Hx] [->|Hy] Heq.
  - reflexivity.
  - destruct Hnotin. rewrite Heq. apply list_elem_of_In.
    now apply in_map.
  - destruct Hnotin. rewrite <- Heq. apply list_elem_of_In.
    now apply in_map.
  - now apply IH.
Qed.

(** X4.  In every reachable world at most one debounce timer is pending.
    It is the timer the last run of the effect registered for cleanup, and
    it carries the current utterance, which has three or more code
    units. *)
Theorem one_debounce_timer_at_most w :
  reachable w ->
  (forall t1 t2,
     In t1 (timers w) -> In t2 (timers w) ->
     isDebounce t1 = true -> isDebounce t2 = true -> t1 = t2)
  /\ (forall t snap text,
        In t (timers w) -> t_action t = TDebounce snap text ->
        debounceCleanup w = Some (t_id t)
        /\ text = originalText (st w) /\ 3 <= length text).
Proof.
  intros Hreach.
  destruct (reachable_timersOk w Hreach) as (Hnodup & _ & Hdeb).
  split; [|exact Hdeb].
  intros t1 t2 Hin1 Hin2 Hd1 Hd2. unfold isDebounce in Hd1, Hd2.
  destruct (t_action t1) as [snap1 text1|] eqn:Ha1; [|discriminate].
  destruct (t_action t2) as [snap2 text2|] eqn:Ha2; [|discriminate].
  destruct (Hdeb _ _ _ Hin1 Ha1) as (Hr1 & _).
  destruct (Hdeb _ _ _ Hin2 Ha2) as (Hr2 & _).
  apply (NoDup_map_inj t_id (timers w)); try assumption. congruence.
Qed.

(** Typing while a reconnect timer is pending: two timers, one of them
    for "Hallo". *)
Lemma one_debounce_timer_at_most_witness :
  length (timers (run Trace.typingOffline Scenario.page)) = 2
  /\ originalText (st (run Trace.typingOffline Scenario.page))
     = Scenario.hallo
  /\ debounceCleanup (run Trace.typingOffline Scenario.page) = Some 2.
Proof.
  assert (reachable (run Trace.typingOffline Scenario.page)) as Hreach
    by (exists Scenario.browser, true, Trace.typingOffline; reflexivity).
  destruct (one_debounce_timer_at_most _ Hreach) as (_ & Hdeb).
  split; [vm_compute; reflexivity|].
  destruct (Hdeb (mkTimer 2 501 (TDebounce
                    (st (run Trace.typingOffline Scenario.page))
                    Scenario.hallo))
              _ _ ltac:(vm_compute; tauto) eq_refl) as (Hreg & Htext & _).
  split; [symmetry; exact Htext|exact Hreg].
Defined.

(** ** Settling a translate request *)

Lemma translateSettled_aborted tid text fromLang toLang signal r w :
  tasks w !! tid = Some (Some (AwaitTranslate text fromLang toLang signal)) ->
  aborted signal w = true ->
  translateSettled tid r w = finalize (put_task tid None w).
Proof.
  intros Htask Hab.
  rewrite (translateSettled_awaiting _ _ _ _ _ _ _ Htask), Hab. cbn zeta.
  unfold onTranslationError. cbn [err_name].
  now rewrite decide_True by reflexivity.
Qed.



(** X6.  A waiting translate request that fails for a reason other than
    cancellation publishes the status "❌ Ошибка перевода" and the text
    "Ошибка: " followed by the error message in place of a translation;
    nothing is spoken and nothing is sent.  However a waiting request
    settles, the in-flight flag is off afterwards. *)
Theorem translation_failure_is_published
    tid text fromLang toLang signal e r w :
  tasks w !! tid = Some (Some (AwaitTranslate text fromLang toLang signal)) ->
  isTranslating (st (translateSettled tid r w)) = false
  /\ (aborted signal w = false -> err_name e <> Str.AbortError ->
      let w' := translateSettled tid (Rejected e) w in
      status (st w') = Str.translation_failed
      /\ translatedText (st w') = Str.failure_prefix ++ err_message e
      /\ spoken w' = spoken w /\ fetchLog w' = fetchLog w).
Proof.
  intros Htask. split.
  - rewrite (translateSettled_awaiting _ _ _ _ _ _ _ Htask). cbn zeta.
    destruct (if aborted signal w then _ else r) as [b|e'].
    + reflexivity.
    + unfold onTranslationError. now case_decide.
  - intros Hlive Hname w'. unfold w'.
    rewrite (translateSettled_awaiting _ _ _ _ _ _ _ Htask), Hlive.
    cbn zeta. unfold onTranslationError.
    rewrite decide_False by exact Hname.
    unfold finalize, setIsTranslating, setTranslatedText, setStatus.
    cbn [st put_st status translatedText with_isTranslating
         with_translatedText with_status spoken fetchLog].
    unfold put_task. case_decide; repeat split; reflexivity.
Qed.

Lemma translation_failure_is_published_witness :
  status (st (translateSettled 0 (Rejected Scenario2.networkError)
                Scenario2.manualA))
  = Str.translation_failed
  /\ translatedText
       (st (translateSettled 0 (Rejected Scenario2.networkError)
              Scenario2.manualA))
     = Str.failure_prefix ++ Js.lit "Failed to fetch".
Proof.
  assert (err_name Scenario2.networkError <> Str.AbortError) as Hname
    by (vm_compute; discriminate).
  destruct (translation_failure_is_published 0 Scenario.privet Str.RU Str.DE
              0 Scenario2.networkError (Rejected Scenario2.networkError)
              Scenario2.manualA eq_refl)
    as (_ & Hfail).
  destruct (Hfail eq_refl Hname) as (Hstatus & Htr & _).
  split; [exact Hstatus|exact Htr].
Defined.

(** X7.  A successful answer is spoken exactly when the page has speech
    synthesis and the translation is not empty: one utterance of the
    translation, in "ru-RU" for the target "RU" and "de-DE" for "DE",
    deferred when the voice catalog is still empty.  A rejected request
    speaks nothing. *)
Theorem playback_follows_success
    tid text fromLang toLang signal body e w :
  tasks w !! tid = Some (Some (AwaitTranslate text fromLang toLang signal)) ->
  aborted signal w = false ->
  toLang = Str.RU \/ toLang = Str.DE ->
  let translation :=
    match translated_text body with Some s => s | None => [] end in
  spoken (translateSettled tid (Fulfilled body) w)
  = spoken w
    ++ (if hasSpeechSynthesis (env w) && negb (bool_decide (translation = []))
        then [mkUtterance translation
                (if decide (toLang = Str.RU) then Str.ru_RU else Str.de_DE)
                (negb (voicesLoaded (env w)))]
        else [])
  /\ spoken (translateSettled tid (Rejected e) w) = spoken w.
Proof.
  intros Htask Hlive Htarget translation. split.
  - rewrite (translateSettled_awaiting _ _ _ _ _ _ _ Htask), Hlive.
    cbn zeta. unfold finalize, setIsTranslating. cbn [spoken put_st].
    unfold speak.
    change (default [] (translated_text body)) with translation.
    set (w1 := setStatus _ _).
    assert (env w1 = env w) as ->.
    { unfold w1, setStatus, setTranslatedText. cbn [env put_st].
      unfold put_task. now case_decide. }
    assert (spoken w1 = spoken w) as Hsp.
    { unfold w1, setStatus, setTranslatedText. cbn [spoken put_st].
      unfold put_task. now case_decide. }
    assert (Js.truthy translation = negb (bool_decide (translation = [])))
      as -> by (now destruct translation).
    destruct (hasSpeechSynthesis (env w) && _); [|now rewrite app_nil_r].
    cbn [spoken put_spoken]. rewrite Hsp.
    destruct Htarget as [-> | ->]; reflexivity.
  - rewrite (translateSettled_awaiting _ _ _ _ _ _ _ Htask), Hlive.
    cbn zeta. unfold onTranslationError, finalize, setIsTranslating,
      setTranslatedText, setStatus.
    case_decide; cbn [spoken put_st]; unfold put_task; now case_decide.
Qed.

Lemma playback_follows_success_witness :
  spoken (translateSettled 0 (Scenario.answers Scenario.hallo)
            Scenario2.manualA)
  = [mkUtterance Scenario.hallo Str.de_DE false]
  /\ spoken (translateSettled 0 Scenario.emptyAnswer Scenario2.manualA) = [].
Proof.
  split.
  - exact (proj1 (playback_follows_success 0 Scenario.privet Str.RU Str.DE 0
                    (mkTranslateBody (Some Scenario.hallo))
                    Scenario2.networkError Scenario2.manualA
                    eq_refl eq_refl (or_intror eq_refl))).
  - exact (proj1 (playback_follows_success 0 Scenario.privet Str.RU Str.DE 0
                    (mkTranslateBody None)
                    Scenario2.networkError Scenario2.manualA
                    eq_refl eq_refl (or_intror eq_refl))).
Defined.

(** ** Mode toggle *)

Lemma lookup_alter_Some {A} (f : A -> A) (l : list A) i x :
  alter f i l !! i = Some x -> exists y, l !! i = Some y /\ x = f y.
Proof.
  rewrite list_lookup_alter_eq. destruct (l !! i) as [y|]; [|discriminate].
  intros [= <-]. eauto.
Qed.

Lemma initSpeechRecognition_st snap w :
  st (initSpeechRecognition snap w)
  = with_connectionStatus
      (with_speech (hasSpeechRecognition (env w)) (connectionStatus (st w)))
      (st w).
Proof.
  unfold initSpeechRecognition. now destruct (hasSpeechRecognition (env w)).
Qed.

Lemma recognitionLang_effect_st w : st (recognitionLang_effect w) = st w.
Proof. unfold recognitionLang_effect. now destruct (recognitionRef w). Qed.

Lemma recognitionLang_effect_ref w :
  recognitionRef (recognitionLang_effect w) = recognitionRef w.
Proof.
  unfold recognitionLang_effect.
  destruct (recognitionRef w) eqn:E; [exact E | exact E].
Qed.

Lemma recognitionLang_effect_lang w r x :
  recognitionRef w = Some r ->
  recognizers (recognitionLang_effect w) !! r = Some x ->
  rec_lang x = recognitionLang (st w).
Proof.
  unfold recognitionLang_effect. intros ->. cbn -[alter].
  intros (y & _ & ->)%lookup_alter_Some. reflexivity.
Qed.

Lemma toggleTranslationMode_unfold w :
  let mode' := match translationMode (st w) with
               | manual => auto
               | auto => manual
               end in
  let lang' := match mode', currentRole (st w) with
               | manual, steuerberater => Str.de_DE
               | _, _ => Str.ru_RU
               end in
  let s' := with_recognitionLang lang'
              (with_status (match mode' with
                            | auto => Str.auto_mode
                            | manual => Str.manual_mode
                            end)
                 (with_translationMode mode' (st w))) in
  let w1 := match recognitionRef w with
            | Some r =>
                recognizer_stop r
                  (put_recognizers
                     (alter (recognizer_put_lang lang') r (recognizers w))
                     (put_st s' w))
            | None => put_st s' w
            end in
  let w2 := initSpeechRecognition (st w) w1 in
  toggleTranslationMode (st w) w
  = if bool_decide (recognitionLang (st w) = lang') then w2
    else recognitionLang_effect w2.
Proof.
  intros mode' lang' s' w1 w2.
  unfold toggleTranslationMode, w2, w1, s', lang', mode'.
  match goal with
  | |- context [recognitionLang (st (setStatus ?a (setTranslationMode ?b w)))] =>
      change (recognitionLang (st (setStatus a (setTranslationMode b w))))
        with (recognitionLang (st w))
  end.
  destruct (translationMode (st w)), (currentRole (st w));
    repeat match goal with
           | |- context [@decide (?a = ?b) ?i] =>
               lazymatch type of a with
               | TranslationMode => idtac
               | Role => idtac
               end;
               destruct (@decide (a = b) i); try congruence
           end;
    match goal with |- context [bool_decide ?P] => destruct (bool_decide P) end;
    reflexivity.
Qed.

(** X8.  Toggling the translation mode from the current render flips the
    mode and sets the recognition locale to the new mode's default:
    "ru-RU" for auto, and for manual "ru-RU" or "de-DE" by the role.  The
    recognizer in the ref has that locale afterwards; where speech
    recognition exists it is a fresh one that is not started and whose
    [onend] handler holds the current capture flag.  The capture flag
    itself is untouched, and a second toggle restores the mode. *)
Theorem toggleTranslationMode_resets_locale w :
  let w' := toggleTranslationMode (st w) w in
  let mode' := match translationMode (st w) with
               | manual => auto
               | auto => manual
               end in
  let lang' := match mode', currentRole (st w) with
               | manual, steuerberater => Str.de_DE
               | _, _ => Str.ru_RU
               end in
  translationMode (st w') = mode'
  /\ recognitionLang (st w') = lang'
  /\ (forall r x,
        recognitionRef w' = Some r -> recognizers w' !! r = Some x ->
        rec_lang x = lang')
  /\ (hasSpeechRecognition (env w) = true ->
      recognitionRef w' = Some (length (recognizers w))
      /\ recognizers w' !! length (recognizers w)
         = Some (mkRecognizer lang' (isRecording (st w)) false false))
  /\ isRecording (st w') = isRecording (st w)
  /\ translationMode (st (toggleTranslationMode (st w') w'))
     = translationMode (st w).
Proof.
  intros w' mode' lang'.
  pose proof (toggleTranslationMode_unfold w) as Hw. cbv zeta in Hw.
  fold mode' lang' in Hw. fold w' in Hw.
  set (s' := with_recognitionLang lang' _) in Hw.
  set (w1 := match recognitionRef w with Some _ => _ | None => _ end) in Hw.
  set (w2 := initSpeechRecognition (st w) w1) in Hw.
  assert (Hs2 : st w2 = with_connectionStatus
                          (with_speech (hasSpeechRecognition (env w))
                             (connectionStatus s')) s').
  { unfold w2. rewrite initSpeechRecognition_st. unfold w1.
    now destruct (recognitionRef w). }
  assert (Hst : st w' = st w2).
  { rewrite Hw. destruct (bool_decide _); [reflexivity|].
    apply recognitionLang_effect_st. }
  assert (Hmode : translationMode (st w') = mode') by now rewrite Hst, Hs2.
  assert (Hlang : recognitionLang (st w') = lang') by now rewrite Hst, Hs2.
  assert (Hlen : length (recognizers w1) = length (recognizers w)).
  { unfold w1. destruct (recognitionRef w); [|reflexivity].
    unfold recognizer_stop. cbn -[alter]. now rewrite !length_alter. }
  assert (Hnew : hasSpeechRecognition (env w) = true ->
                 recognitionRef w2 = Some (length (recognizers w))
                 /\ recognizers w2
                    = recognizers w1
                      ++ [mkRecognizer (recognitionLang (st w))
                            (isRecording (st w)) false false]).
  { intros Hcap. unfold w2, initSpeechRecognition.
    replace (hasSpeechRecognition (env w1)) with true
      by (unfold w1; now destruct (recognitionRef w)).
    cbn. now rewrite Hlen. }
  assert (Hold : hasSpeechRecognition (env w) = false ->
                 forall r x, recognitionRef w2 = Some r ->
                             recognizers w2 !! r = Some x ->
                             rec_lang x = lang').
  { intros Hcap r x. unfold w2, initSpeechRecognition.
    replace (hasSpeechRecognition (env w1)) with false
      by (unfold w1; now destruct (recognitionRef w)).
    cbn. unfold w1. destruct (recognitionRef w) as [r0|] eqn:Hr0.
    - unfold recognizer_stop. cbn -[alter]. rewrite Hr0. intros [= <-].
      intros (y & Hy & ->)%lookup_alter_Some.
      apply lookup_alter_Some in Hy as (z & _ & ->). reflexivity.
    - cbn. rewrite Hr0. discriminate. }
  split; [exact Hmode|]. split; [exact Hlang|].
  split; [|split; [|split]].
  - intros r x. rewrite Hw.
    destruct (bool_decide (recognitionLang (st w) = lang')) eqn:Hch.
    + apply bool_decide_eq_true in Hch.
      destruct (hasSpeechRecognition (env w)) eqn:Hcap.
      * destruct (Hnew eq_refl) as [-> ->]. intros [= <-].
        rewrite lookup_app_r by lia. rewrite Hlen, Nat.sub_diag.
        intros [= <-]. exact Hch.
      * now apply Hold.
    + rewrite recognitionLang_effect_ref. intros Hr Hx.
      rewrite (recognitionLang_effect_lang _ _ _ Hr Hx), <- Hst. exact Hlang.
  - intros Hcap. destruct (Hnew Hcap) as [Href Hrecs]. rewrite Hw.
    destruct (bool_decide (recognitionLang (st w) = lang')) eqn:Hch.
    + apply bool_decide_eq_true in Hch. split; [exact Href|].
      rewrite Hrecs, lookup_app_r by lia.
      rewrite Hlen, Nat.sub_diag, Hch. reflexivity.
    + rewrite recognitionLang_effect_ref. split; [exact Href|].
      unfold recognitionLang_effect. rewrite Href. cbn -[alter].
      rewrite list_lookup_alter_eq, Hrecs, lookup_app_r by lia.
      rewrite Hlen, Nat.sub_diag. cbn. rewrite <- Hst, Hlang. reflexivity.
  - now rewrite Hst, Hs2.
  - pose proof (toggleTranslationMode_unfold w') as Hw2. cbv zeta in Hw2.
    rewrite Hw2.
    match goal with
    | |- context [if ?b then ?x else recognitionLang_effect ?x] =>
        replace (st (if b then x else recognitionLang_effect x)) with (st x)
          by (destruct b; [reflexivity|];
              symmetry; apply recognitionLang_effect_st)
    end.
    rewrite initSpeechRecognition_st.
    match goal with
    | |- context [match ?o with Some r => recognizer_stop r (put_recognizers (@?l r) (put_st ?s w')) | None => _ end] =>
        replace (st (match o with Some r => recognizer_stop r (put_recognizers (l r) (put_st s w')) | None => put_st s w' end)) with s
          by (now destruct o)
    end.
    cbn. rewrite Hmode. unfold mode'. now destruct (translationMode (st w)).
Qed.

(** After "Hallo" was translated in auto mode the locale is "de-DE";
    the toggle to manual mode (role [user]) builds recognizer 1 with
    "ru-RU". *)
Lemma toggleTranslationMode_resets_locale_witness :
  hasSpeechRecognition (env Scenario.afterHallo) = true
  /\ recognitionLang (st Scenario.afterHallo) = Str.de_DE
  /\ recognitionRef
       (toggleTranslationMode (st Scenario.afterHallo) Scenario.afterHallo)
     = Some 1
  /\ recognizers
       (toggleTranslationMode (st Scenario.afterHallo) Scenario.afterHallo)
     !! 1
     = Some (mkRecognizer Str.ru_RU false false false).
Proof.
  assert (hasSpeechRecognition (env Scenario.afterHallo) = true) as Hcap
    by (vm_compute; reflexivity).
  split; [exact Hcap|]. split; [vm_compute; reflexivity|].
  destruct (toggleTranslationMode_resets_locale Scenario.afterHallo)
    as (_ & _ & _ & Hnew & _).
  destruct (Hnew Hcap) as [Href Hrec]. split; [exact Href|exact Hrec].
Defined.

(** ** Speech results feed the debounced pipeline *)

(** X9.  A recognizer result whose transcripts concatenate to a blank
    string changes nothing.  Otherwise the concatenation becomes the
    utterance, and (no timer pending before, text changed) the one request
    for it goes out when 500 ms have passed, if the guard accepts it. *)
Theorem speech_result_is_translated_after_quiet results d w :
  let transcript := concat results in
  (Js.trim transcript = [] -> recognition_onresult results w = w)
  /\ (Js.trim transcript <> [] -> timers w = [] ->
      originalText (st w) <> transcript ->
      originalText (st (recognition_onresult results w)) = transcript
      /\ fetchLog (elapse d (recognition_onresult results w))
         = fetchLog w
           ++ (if (500 <=? d) && accepted transcript
               then [firstRequest (translationMode (st w))
                       (currentRole (st w)) transcript
                       (length (controllers w))]
               else [])).
Proof.
  intros transcript. unfold recognition_onresult. fold transcript.
  cbv zeta. split.
  - now intros ->.
  - intros Hsome Hnone Hchange.
    assert (Js.truthy (Js.trim transcript) = true) as ->
      by (destruct (Js.trim transcript); [now destruct Hsome|reflexivity]).
    assert (debouncing w transcript (setOriginalText transcript w)) as Hdeb.
    { apply setOriginalText_debouncing; [|exact Hchange|left; exact Hnone].
      repeat split. }
    split; [|now apply elapse_after_debouncing].
    destruct Hdeb as (_ & Htext & _). exact Htext.
Qed.

(** The recognizer reports "Hal" and "lo": "Hallo" is sent for detection
    after 500 ms. *)
Lemma speech_result_is_translated_after_quiet_witness :
  fetchLog (elapse 500
              (recognition_onresult [Js.lit "Hal"; Js.lit "lo"]
                 Scenario.page))
  = [GetHealth; PostDetect Scenario.hallo].
Proof.
  assert (Js.trim (concat [Js.lit "Hal"; Js.lit "lo"]) <> []) as Hsome
    by (vm_compute; discriminate).
  assert (originalText (st Scenario.page)
          <> concat [Js.lit "Hal"; Js.lit "lo"]) as Hchange
    by (vm_compute; discriminate).
  exact (proj2 (proj2 (speech_result_is_translated_after_quiet
                         [Js.lit "Hal"; Js.lit "lo"] 500 Scenario.page)
                  Hsome eq_refl Hchange)).
Defined.

(** A change to a short text cancels the registered timer. *)
Lemma short_timer_cancelled text w id :
  length text < 3 -> originalText (st w) <> text ->
  debounceCleanup w = Some id ->
  existsb (fun t => Nat.eqb (t_id t) id) (timers (setOriginalText text w))
  = false.
Proof.
  intros Hshort Hchange Hreg. unfold setOriginalText.
  rewrite decide_False by exact Hchange.
  rewrite originalText_effect_short by exact Hshort.
  cbn [st put_st originalText with_originalText debounceCleanup].
  rewrite Hreg. cbv zeta.
  pose proof (clearTimeout_not_pending id w) as Hgone.
  unfold timer_pending in Hgone.
  destruct (length text =? 0); exact Hgone.
Qed.


(** What the debounce effect leaves of the state. *)
Lemma setOriginalText_state text w :
  originalText (st (setOriginalText text w)) = text
  /\ inputText (st (setOriginalText text w)) = inputText (st w)
  /\ isRecording (st (setOriginalText text w)) = isRecording (st w).
Proof.
  unfold setOriginalText. case_decide as Hsame; [now rewrite <- Hsame|].
  unfold originalText_effect.
  set (w0 := put_st (with_originalText text (st w)) w).
  set (w1 := match debounceCleanup w0 with Some _ => _ | None => _ end).
  assert (st w1 = with_originalText text (st w)) as Hst
    by (unfold w1; destruct (debounceCleanup w0); reflexivity).
  cbv zeta. rewrite Hst.
  destruct (negb _ || _); [destruct (_ =? 0)|];
    cbn [setTranslatedText setTimeout st put_st put_debounceCleanup
         put_timers put_nextTimer];
    rewrite ?Hst; repeat split; reflexivity.
Qed.

(** ** Clearing and tearing down *)

(** X10.  [clearAll] empties the input, the utterance and the
    translation, publishes "🟢 Готов", turns the capture flag off and
    cancels the debounce timer of the utterance it clears.  It aborts
    nothing: a live request still publishes its answer afterwards. *)
Theorem clearAll_resets_but_keeps_requests w :
  let w' := clearAll w in
  inputText (st w') = [] /\ originalText (st w') = []
  /\ translatedText (st w') = [] /\ status (st w') = Str.ready
  /\ isRecording (st w') = false
  /\ (forall id,
        originalText (st w) <> [] -> debounceCleanup w = Some id ->
        timer_pending id w' = false)
  /\ pipelineView w' = pipelineView w
  /\ (forall tid text fromLang toLang signal body,
        tasks w !! tid
        = Some (Some (AwaitTranslate text fromLang toLang signal)) ->
        aborted signal w = false ->
        translatedText (st (translateSettled tid (Fulfilled body) w'))
        = match translated_text body with Some s => s | None => [] end).
Proof.
  intros w'.
  assert (pipelineView w' = pipelineView w) as Hview
    by exact (handle_pipelineView ClearAll w).
  assert (originalText (st w') = [] /\ inputText (st w') = []
          /\ translatedText (st w') = [] /\ status (st w') = Str.ready
          /\ isRecording (st w') = false) as (Ho & Hi & Ht & Hs & Hr).
  { unfold w', clearAll.
    set (w1 := setInputText [] (stopRecording w)).
    assert (isRecording (st w1) = false /\ inputText (st w1) = [])
      as (Hrec1 & Hin1)
      by (unfold w1, stopRecording; destruct (recognitionRef _); split;
          reflexivity).
    destruct (setOriginalText_state [] w1) as (Ho & Hi & Hr).
    cbv zeta. unfold setStatus, setTranslatedText.
    cbn [st put_st with_status with_translatedText originalText inputText
         translatedText status isRecording].
    rewrite Ho, Hi, Hr, Hin1, Hrec1. repeat split; reflexivity. }
  split; [exact Hi|]. split; [exact Ho|]. split; [exact Ht|].
  split; [exact Hs|]. split; [exact Hr|]. split; [|split; [exact Hview|]].
  - intros id Hchange Hreg. unfold w', clearAll.
    set (w1 := setInputText [] (stopRecording w)).
    assert (timers w1 = timers w /\ debounceCleanup w1 = Some id
            /\ originalText (st w1) <> []) as (Htm & Hreg1 & Hchange1)
      by (unfold w1, stopRecording; destruct (recognitionRef _);
          repeat split; assumption).
    unfold timer_pending. cbn [timers setStatus setTranslatedText put_st].
    apply (short_timer_cancelled [] w1 id);
      [cbn; lia|exact Hchange1|exact Hreg1].
  - intros tid text fromLang toLang signal body Htask Hlive.
    assert (tasks w' = tasks w) as Htasks
      by exact (f_equal (fun v => snd (fst (fst v))) Hview).
    assert (controllers w' = controllers w) as Hctl
      by exact (f_equal (fun v => fst (fst (fst (fst v)))) Hview).
    assert (tasks w' !! tid
            = Some (Some (AwaitTranslate text fromLang toLang signal)))
      as Htask' by (now rewrite Htasks).
    assert (aborted signal w' = false) as Hlive'
      by (unfold aborted; now rewrite Hctl).
    rewrite (translateSettled_awaiting _ _ _ _ _ _ _ Htask'), Hlive'.
    cbn zeta. unfold finalize, setIsTranslating. cbn [st put_st].
    rewrite speak_st. cbn. now destruct (translated_text body).
Qed.

(** "Hallo" is being typed (debounce timer 0 pending) when everything is
    cleared; in manual mode "Привет" is in flight when everything is
    cleared, and its answer is still published. *)
Lemma clearAll_resets_but_keeps_requests_witness :
  timer_pending 0 Scenario.typingHallo = true
  /\ timer_pending 0 (clearAll Scenario.typingHallo) = false
  /\ translatedText
       (st (translateSettled 0 (Scenario.answers Scenario.hallo)
              (clearAll Scenario2.manualA)))
     = Scenario.hallo.
Proof.
  assert (originalText (st Scenario.typingHallo) <> []) as Hsome
    by (vm_compute; discriminate).
  assert (debounceCleanup Scenario.typingHallo = Some 0) as Hreg
    by (vm_compute; reflexivity).
  assert (tasks Scenario2.manualA !! 0
          = Some (Some (AwaitTranslate Scenario.privet Str.RU Str.DE 0)))
    as Htask by (vm_compute; reflexivity).
  assert (aborted 0 Scenario2.manualA = false) as Hlive
    by (vm_compute; reflexivity).
  split; [vm_compute; reflexivity|]. split.
  - destruct (clearAll_resets_but_keeps_requests Scenario.typingHallo)
      as (_ & _ & _ & _ & _ & Htimer & _).
    exact (Htimer 0 Hsome Hreg).
  - destruct (clearAll_resets_but_keeps_requests Scenario2.manualA)
      as (_ & _ & _ & _ & _ & _ & _ & Hanswer).
    exact (Hanswer 0 Scenario.privet Str.RU Str.DE 0
             (mkTranslateBody (Some Scenario.hallo)) Htask Hlive).
Defined.


(** X11.  [cleanup] aborts the controller in the slot, so a request that
    listens to it is dropped however it settles afterwards; it cancels the
    reconnect timer in [reconnectTimeoutRef] and asks the recognizer in
    the ref to stop.  It sends nothing and publishes nothing. *)
Theorem cleanup_cancels_request_in_slot
    tid text fromLang toLang c r w :
  tasks w !! tid = Some (Some (AwaitTranslate text fromLang toLang c)) ->
  abortControllerRef w = Some c -> c < length (controllers w) ->
  let w1 := cleanup w in
  let w2 := translateSettled tid r w1 in
  st w1 = st w /\ fetchLog w1 = fetchLog w
  /\ aborted c w1 = true
  /\ translatedText (st w2) = translatedText (st w)
  /\ status (st w2) = status (st w)
  /\ spoken w2 = spoken w /\ fetchLog w2 = fetchLog w
  /\ (forall id, reconnectTimeoutRef w = Some id ->
        timer_pending id w1 = false)
  /\ (forall k x, recognitionRef w = Some k -> recognizers w1 !! k = Some x ->
        rec_stop_requested x = true).
Proof.
  intros Htask Href Hc w1 w2.
  pose proof (cleanup_pipelineView w) as Hview. fold w1 in Hview.
  unfold pipelineView in Hview. rewrite Href in Hview.
  injection Hview as Hctl _ Htasks Hlog Hsp.
  assert (st w1 = st w) as Hst.
  { unfold w1, cleanup.
    destruct (recognitionRef w);
      cbn [reconnectTimeoutRef recognizer_stop put_recognizers];
      destruct (reconnectTimeoutRef w);
      cbn [abortControllerRef clearTimeout put_timers recognizer_stop
           put_recognizers];
      rewrite Href; reflexivity. }
  assert (aborted c w1 = true) as Hab.
  { unfold aborted. rewrite Hctl.
    now rewrite list_lookup_insert_eq by exact Hc. }
  assert (tasks w1 !! tid
          = Some (Some (AwaitTranslate text fromLang toLang c))) as Htask1
    by (now rewrite Htasks).
  split; [exact Hst|]. split; [exact Hlog|]. split; [exact Hab|].
  unfold w2. rewrite (translateSettled_aborted _ _ _ _ _ _ _ Htask1 Hab).
  unfold finalize, setIsTranslating.
  cbn [st put_st translatedText status with_isTranslating fetchLog spoken].
  rewrite put_task_st, put_task_fetchLog, Hst, Hlog.
  split; [reflexivity|]. split; [reflexivity|].
  split; [unfold put_task; case_decide; exact Hsp|]. split; [reflexivity|].
  split.
  - intros id Hid. unfold w1, cleanup.
    destruct (recognitionRef w);
      cbn [reconnectTimeoutRef recognizer_stop put_recognizers];
      rewrite Hid;
      cbn [abortControllerRef clearTimeout put_timers recognizer_stop
           put_recognizers];
      rewrite Href; apply (clearTimeout_not_pending id w).
  - intros k x Hk. unfold w1, cleanup. rewrite Hk.
    cbn [reconnectTimeoutRef recognizer_stop put_recognizers].
    destruct (reconnectTimeoutRef w);
      cbn [abortControllerRef clearTimeout put_timers recognizer_stop
           put_recognizers];
      rewrite Href; cbn -[alter]; intros Hx;
      apply lookup_alter_Some in Hx as (y & _ & ->); reflexivity.
Qed.

(** Manual mode: "Привет" is in flight when the page is torn down. *)
Lemma cleanup_cancels_request_in_slot_witness :
  translatedText
    (st (translateSettled 0 (Scenario.answers Scenario.hallo)
           (cleanup Scenario2.manualA)))
  = translatedText (st Scenario2.manualA)
  /\ status
       (st (translateSettled 0 (Scenario.answers Scenario.hallo)
              (cleanup Scenario2.manualA)))
     = Str.translating.
Proof.
  assert (0 < length (controllers Scenario2.manualA)) as Hc
    by (vm_compute; lia).
  destruct (cleanup_cancels_request_in_slot 0 Scenario.privet Str.RU Str.DE
              0 (Scenario.answers Scenario.hallo) Scenario2.manualA
              eq_refl eq_refl Hc)
    as (_ & _ & _ & Htr & Hstatus & _).
  split; [exact Htr|exact Hstatus].
Defined.

(** * The channel after failures and teardown *)

(** A failed construction: the [catch] of [initWebSocket]. *)
Lemma initWebSocket_throws w :
  wsConstructorThrows (env w) = true ->
  timers (initWebSocket w)
  = timers w
    ++ [mkTimer (nextTimer w)
          (now w + reconnectDelay (reconnectAttemptsRef w)) TReconnect]
  /\ reconnectTimeoutRef (initWebSocket w) = Some (nextTimer w)
  /\ reconnectAttemptsRef (initWebSocket w) = reconnectAttemptsRef w
  /\ env (initWebSocket w) = env w /\ now (initWebSocket w) = now w
  /\ socketsCreated (initWebSocket w) = socketsCreated w
  /\ websocketRef (initWebSocket w) = websocketRef w
  /\ ws (connectionStatus (st (initWebSocket w))) = false
  /\ status (st (initWebSocket w))
     = Str.reconnecting (reconnectDelay (reconnectAttemptsRef w)).
Proof.
  intros Hctor. unfold initWebSocket. rewrite Hctor. repeat split.
Qed.

Lemma awaitRetry_throws a sockets socket w :
  wsConstructorThrows (env w) = true ->
  retrying a sockets socket w ->
  retrying (S a) sockets socket (awaitRetry w)
  /\ env (awaitRetry w) = env w
  /\ now (awaitRetry w) = (now w + reconnectDelay a)%N
  /\ status (st (awaitRetry w)) = Str.reconnecting (reconnectDelay (S a)).
Proof.
  intros Hctor (Ha & (id & Htimers & Href) & Hsockets & Hsocket & Hws).
  unfold awaitRetry. rewrite Ha.
  pose proof (reconnectDelay_positive a) as Hpos.
  destruct (N.to_nat (reconnectDelay a)) as [|k] eqn:Hk; [lia|].
  rewrite (elapse_single_fire _ k _ Htimers) by (cbn [t_due]; lia).
  cbn [t_due]. unfold fire. cbn [t_action t_id].
  set (w1 := clearTimeout id (put_now (now w + reconnectDelay a) w)).
  assert (timers w1 = []) as Hnone.
  { unfold w1, clearTimeout. cbn [timers put_timers put_now].
    rewrite Htimers. cbn. now rewrite Nat.eqb_refl. }
  unfold reconnectNow.
  set (w2 := put_reconnectAttemptsRef (S (reconnectAttemptsRef w1)) w1).
  assert (wsConstructorThrows (env w2) = true) as Hctor2 by exact Hctor.
  destruct (initWebSocket_throws w2 Hctor2)
    as (Ht & Hr & Hat & He & Hn & Hs & Hsk & Hw & Hst).
  change (timers w2) with (timers w1) in Ht. rewrite Hnone in Ht.
  change (reconnectAttemptsRef w2) with (S (reconnectAttemptsRef w))
    in Ht, Hat, Hst.
  rewrite Ha in Ht, Hat, Hst.
  change (now w2) with (now w + reconnectDelay a)%N in Ht, Hn.
  change (env w2) with (env w) in He.
  change (socketsCreated w2) with (socketsCreated w) in Hs.
  change (websocketRef w2) with (websocketRef w) in Hsk.
  unfold retrying. rewrite Hat, Hr, Hs, Hsk, Hw, Hn, He, Hst.
  repeat split; try assumption.
  exists (nextTimer w2). split; [exact Ht|reflexivity].
Qed.

(** X12.  While the socket constructor throws, [initWebSocket] never
    gives up: each failure schedules the next attempt, the timer counts the
    attempt and fails again.  After [n] retries the counter has grown by
    [n], exactly one reconnect timer is pending, due after the delay of
    the schedule for the new count, no socket exists, the channel flag is
    off and the status announces the delay. *)
Theorem constructor_failure_is_retried_for_ever n w :
  wsConstructorThrows (env w) = true -> timers w = [] ->
  let wn := Nat.iter n awaitRetry (initWebSocket w) in
  let a := reconnectAttemptsRef w + n in
  reconnectAttemptsRef wn = a
  /\ (exists id,
        timers wn = [mkTimer id (now wn + reconnectDelay a) TReconnect]
        /\ reconnectTimeoutRef wn = Some id)
  /\ socketsCreated wn = socketsCreated w
  /\ websocketRef wn = websocketRef w
  /\ ws (connectionStatus (st wn)) = false
  /\ status (st wn) = Str.reconnecting (reconnectDelay a).
Proof.
  intros Hctor Hnone wn a.
  assert (retrying a (socketsCreated w) (websocketRef w) wn
          /\ env wn = env w
          /\ status (st wn) = Str.reconnecting (reconnectDelay a)) as Hn.
  { unfold wn, a. clear wn a. induction n as [|n IH].
    - destruct (initWebSocket_throws w Hctor)
        as (Ht & Hr & Hat & He & Hnow & Hs & Hsk & Hw & Hst).
      rewrite Hnone in Ht. rewrite Nat.add_0_r.
      change (Nat.iter 0 awaitRetry (initWebSocket w)) with (initWebSocket w).
      unfold retrying. rewrite Hat, Hnow, Hs, Hsk, Hw, Hst, He.
      repeat split. exists (nextTimer w). split; [exact Ht|exact Hr].
    - rewrite Nat.iter_succ. destruct IH as (Hretry & Henv & _).
      assert (wsConstructorThrows
                (env (Nat.iter n awaitRetry (initWebSocket w))) = true)
        as Hctor' by (now rewrite Henv).
      destruct (awaitRetry_throws _ _ _ _ Hctor' Hretry)
        as (Hretry' & Henv' & _ & Hst').
      rewrite Nat.add_succ_r, Henv', Henv.
      split; [exact Hretry'|split; [reflexivity|exact Hst']]. }
  destruct Hn as ((Ha & Htimer & Hs & Hsk & Hws) & _ & Hst).
  repeat split; assumption.
Qed.

(** A page whose socket URL is malformed: after five retries the counter
    is 5 and the delay 30 s. *)
Lemma constructor_failure_is_retried_for_ever_witness :
  reconnectAttemptsRef
    (Nat.iter 5 awaitRetry
       (initWebSocket (initial_world (mkEnv true true true true))))
  = 5
  /\ socketsCreated
       (Nat.iter 5 awaitRetry
          (initWebSocket (initial_world (mkEnv true true true true))))
     = 0
  /\ status
       (st (Nat.iter 5 awaitRetry
              (initWebSocket (initial_world (mkEnv true true true true)))))
     = Str.reconnecting 30000.
Proof.
  destruct (constructor_failure_is_retried_for_ever 5
              (initial_world (mkEnv true true true true))
              eq_refl eq_refl)
    as (Ha & _ & Hs & _ & _ & Hst).
  split; [exact Ha|]. split; [exact Hs|exact Hst].
Defined.

Lemma filter_none {A} (f : A -> bool) (l : list A) :
  (forall x, In x l -> f x = false) -> List.filter f l = [].
Proof.
  induction l as [|x l IH]; intros Hall; [reflexivity|].
  cbn. rewrite (Hall x (or_introl eq_refl)).
  apply IH. intros y Hy. apply Hall. now right.
Qed.

(** What [cleanup] leaves of the channel. *)
Lemma cleanup_channel w :
  env (cleanup w) = env w /\ now (cleanup w) = now w
  /\ socketsCreated (cleanup w) = socketsCreated w
  /\ websocketRef (cleanup w) = websocketRef w
  /\ reconnectAttemptsRef (cleanup w) = reconnectAttemptsRef w
  /\ nextTimer (cleanup w) = nextTimer w
  /\ timers (cleanup w)
     = match reconnectTimeoutRef w with
       | Some id => List.filter (fun t => negb (Nat.eqb (t_id t) id)) (timers w)
       | None => timers w
       end.
Proof.
  unfold cleanup.
  destruct (recognitionRef w);
    cbn [reconnectTimeoutRef recognizer_stop put_recognizers];
    destruct (reconnectTimeoutRef w);
    cbn [abortControllerRef clearTimeout put_timers recognizer_stop
         put_recognizers];
    destruct (abortControllerRef w); repeat split.
Qed.

Lemma connectionLost_socket w :
  wsConstructorThrows (env w) = false -> timers w = [] ->
  websocketRef (connectionLost w) = Some (socketsCreated w).
Proof.
  intros Hctor Hnone. unfold connectionLost.
  destruct (ws_onclose_schedules w)
    as (Htimers & _ & _ & Hattempts & Hnow & Henv).
  rewrite Hnone in Htimers. cbn [app] in Htimers.
  pose proof (reconnectDelay_positive (reconnectAttemptsRef w)) as Hpos.
  destruct (N.to_nat (reconnectDelay (reconnectAttemptsRef w))) as [|k] eqn:Hk;
    [lia|].
  rewrite (elapse_single_fire _ k _ Htimers) by (cbn [t_due]; lia).
  cbn [t_due]. unfold fire. cbn [t_action t_id].
  unfold reconnectNow, initWebSocket. cbn [env put_reconnectAttemptsRef].
  change (env (clearTimeout (nextTimer w) (put_now _ (ws_onclose w))))
    with (env w).
  rewrite Hctor. reflexivity.
Qed.

(** X13.  [cleanup] closes the socket but leaves its [onclose] handler in
    place and the reconnect machinery armed: with no timer pending but the
    one in [reconnectTimeoutRef], teardown leaves no timer; when the close
    it asked for is reported, a reconnect is scheduled as after any close,
    and once the delay has passed a new socket has been constructed and
    stored in the ref. *)
Theorem teardown_does_not_stop_reconnecting w :
  wsConstructorThrows (env w) = false ->
  (forall t, In t (timers w) -> reconnectTimeoutRef w = Some (t_id t)) ->
  timers (cleanup w) = []
  /\ timers (ws_onclose (cleanup w))
     = [mkTimer (nextTimer w)
          (now w + reconnectDelay (reconnectAttemptsRef w)) TReconnect]
  /\ socketsCreated (connectionLost (cleanup w)) = S (socketsCreated w)
  /\ websocketRef (connectionLost (cleanup w)) = Some (socketsCreated w)
  /\ reconnectAttemptsRef (connectionLost (cleanup w))
     = S (reconnectAttemptsRef w).
Proof.
  intros Hctor Honly.
  destruct (cleanup_channel w) as (Henv & Hnow & Hs & Hsk & Ha & Hnext & Ht).
  assert (timers (cleanup w) = []) as Hnone.
  { rewrite Ht. destruct (reconnectTimeoutRef w) as [id|] eqn:Href.
    - apply filter_none. intros t Hin.
      specialize (Honly t Hin). injection Honly as ->.
      now rewrite Nat.eqb_refl.
    - destruct (timers w) as [|t ts]; [reflexivity|].
      now specialize (Honly t (or_introl eq_refl)). }
  assert (wsConstructorThrows (env (cleanup w)) = false) as Hctor'
    by (now rewrite Henv).
  split; [exact Hnone|]. split.
  { destruct (ws_onclose_schedules (cleanup w)) as (Hsched & _).
    now rewrite Hsched, Hnone, Hnext, Hnow, Ha. }
  destruct (connectionLost_retries _ Hctor' Hnone)
    as (Hattempts & _ & _ & _ & Hsockets).
  rewrite Hsockets, Hattempts, Hs, Ha.
  rewrite (connectionLost_socket _ Hctor' Hnone), Hs. repeat split.
Qed.

(** The mounted page is torn down; its socket reports the close and one
    second passes. *)
Lemma teardown_does_not_stop_reconnecting_witness :
  socketsCreated Scenario.page = 1
  /\ socketsCreated (connectionLost (cleanup Scenario.page)) = 2
  /\ websocketRef (connectionLost (cleanup Scenario.page)) = Some 1.
Proof.
  assert (forall t, In t (timers Scenario.page) ->
                    reconnectTimeoutRef Scenario.page = Some (t_id t))
    as Honly by (intros t Hin; vm_compute in Hin; destruct Hin).
  destruct (teardown_does_not_stop_reconnecting Scenario.page eq_refl Honly)
    as (_ & _ & Hsockets & Hsocket & _).
  split; [reflexivity|]. split; [exact Hsockets|exact Hsocket].
Defined.

(** * Manual mode and the text input *)

(** X14.  In a manual render [handleRoleChange] stores the role and sets
    the lang of the recognizer in the ref to the role's locale; the
    [recognitionLang] state is left as it was.  The next accepted call from
    the new render translates "RU" to "DE" for [user] and "DE" to "RU" for
    [steuerberater], and makes no detection request. *)
Theorem role_change_switches_language_pair role text w :
  translationMode (st w) = manual -> accepted text = true ->
  let w' := handleRoleChange (st w) role w in
  currentRole (st w') = role
  /\ recognitionLang (st w') = recognitionLang (st w)
  /\ (forall r x,
        recognitionRef w' = Some r -> recognizers w' !! r = Some x ->
        rec_lang x = match role with
                     | user => Str.ru_RU
                     | steuerberater => Str.de_DE
                     end)
  /\ fetchLog (performTranslation (st w') text w')
     = fetchLog w
       ++ [match role with
           | user => PostTranslate text Str.RU Str.DE (length (controllers w))
           | steuerberater =>
               PostTranslate text Str.DE Str.RU (length (controllers w))
           end].
Proof.
  intros Hmode Hacc w'.
  assert (st w' = with_currentRole role (st w)
          /\ fetchLog w' = fetchLog w /\ controllers w' = controllers w
          /\ recognitionRef w' = recognitionRef w) as (Hst & Hlog & Hctl & Href).
  { unfold w', handleRoleChange. rewrite Hmode. cbn [decide].
    destruct (decide (manual = manual)) as [_|Hne]; [|now destruct Hne].
    unfold setCurrentRole. cbn [recognitionRef put_st].
    destruct (recognitionRef w) eqn:Hr; repeat split; cbn; now rewrite ?Hr. }
  split; [now rewrite Hst|]. split; [now rewrite Hst|]. split.
  - intros r x. rewrite Href. unfold w', handleRoleChange. rewrite Hmode.
    destruct (decide (manual = manual)) as [_|Hne]; [|now destruct Hne].
    unfold setCurrentRole. cbn [recognitionRef put_st].
    intros Hr. rewrite Hr. cbn -[alter].
    intros (y & _ & ->)%lookup_alter_Some. now destruct role.
  - rewrite (performTranslation_first_request _ _ _ Hacc), Hlog, Hctl, Hst.
    cbn [translationMode currentRole with_currentRole]. rewrite Hmode.
    now destruct role.
Qed.

(** Manual mode, role switched to [steuerberater]: "Hallo" is sent as
    "DE" to "RU". *)
Lemma role_change_switches_language_pair_witness :
  fetchLog
    (performTranslation
       (st (handleRoleChange (st Scenario.manualPage) steuerberater
              Scenario.manualPage))
       Scenario.hallo
       (handleRoleChange (st Scenario.manualPage) steuerberater
          Scenario.manualPage))
  = [GetHealth; PostTranslate Scenario.hallo Str.DE Str.RU 0].
Proof.
  assert (translationMode (st Scenario.manualPage) = manual) as Hmode
    by (vm_compute; reflexivity).
  assert (accepted Scenario.hallo = true) as Hacc
    by (vm_compute; reflexivity).
  destruct (role_change_switches_language_pair steuerberater Scenario.hallo
              Scenario.manualPage Hmode Hacc) as (_ & _ & _ & Hlog).
  exact Hlog.
Defined.

(** [trimStart] removes nothing from a string that starts with a code
    unit that is not white space. *)
Lemma trimStart_fixed c s :
  Js.is_space c = false -> Js.trimStart (c :: s) = c :: s.
Proof. intros Hc. cbn [Js.trimStart]. now rewrite Hc. Qed.

Lemma trimStart_head s :
  Js.trimStart s = []
  \/ exists c s', Js.trimStart s = c :: s' /\ Js.is_space c = false.
Proof.
  induction s as [|c s IH]; [now left|]. cbn [Js.trimStart].
  destruct (Js.is_space c) eqn:Hc; [exact IH|]. right. eauto.
Qed.

(** [trimStart] keeps the last code unit of what it keeps. *)
Lemma trimStart_suffix s :
  exists spaces, s = spaces ++ Js.trimStart s.
Proof.
  induction s as [|c s [spaces IH]]; [now exists []|]. cbn [Js.trimStart].
  destruct (Js.is_space c).
  - exists (c :: spaces). cbn. now rewrite <- IH.
  - now exists [].
Qed.

(** [trim] is idempotent. *)
Lemma trim_trim s : Js.trim (Js.trim s) = Js.trim s.
Proof.
  unfold Js.trim.
  set (a := Js.trimStart s). set (b := Js.trimStart (rev a)).
  assert (Js.trimStart (rev b) = rev b) as Hfront.
  { destruct (trimStart_head (rev a)) as [Hb|(c & b0 & Hb & Hc)];
      fold b in Hb; [now rewrite Hb|].
    destruct (trimStart_suffix (rev a)) as [spaces Hsuf]. fold b in Hsuf.
    destruct (trimStart_head s) as [Ha|(d & a0 & Ha & Hd)]; fold a in Ha.
    - rewrite Ha in Hsuf. cbn in Hsuf. rewrite Hb in Hsuf.
      now destruct spaces.
    - rewrite Ha in Hsuf. cbn [rev] in Hsuf.
      destruct (rev b) as [|e rb] eqn:Hrev; [reflexivity|].
      apply (f_equal (@rev N)) in Hrev. rewrite rev_involutive in Hrev.
      cbn [rev] in Hrev. rewrite Hrev, app_assoc in Hsuf.
      apply app_inj_tail in Hsuf as [_ <-].
      now apply trimStart_fixed. }
  rewrite Hfront, rev_involutive.
  assert (Js.trimStart b = b) as Hback.
  { destruct (trimStart_head (rev a)) as [Hb|(c & b0 & Hb & Hc)];
      fold b in Hb; rewrite Hb; [reflexivity|now apply trimStart_fixed]. }
  now rewrite Hback.
Qed.

(** X15.  [translateText] sends the [inputText] of its render with the
    white space at both ends removed: the first request of the pipeline
    for the trimmed text when that has three or more code units, and
    nothing otherwise (the world is then unchanged).  It never touches
    the utterance or the input. *)
Theorem translateText_sends_trimmed_input snap w :
  let text := Js.trim (inputText snap) in
  fetchLog (translateText snap w)
  = fetchLog w
    ++ (if 3 <=? length text
        then [firstRequest (translationMode snap) (currentRole snap) text
                (length (controllers w))]
        else [])
  /\ (length text < 3 -> translateText snap w = w)
  /\ originalText (st (translateText snap w)) = originalText (st w)
  /\ inputText (st (translateText snap w)) = inputText (st w).
Proof.
  intros text.
  assert (accepted text = (3 <=? length text)) as Hacc.
  { unfold accepted, text. rewrite trim_trim. fold text.
    destruct text as [|c [|c' [|c'' t]]]; reflexivity. }
  assert (translateText snap w = performTranslation snap text w) as Hcall.
  { unfold translateText. fold text.
    destruct (Js.truthy text) eqn:Htext; [reflexivity|].
    rewrite performTranslation_rejected; [reflexivity|].
    rewrite Hacc. now destruct text. }
  rewrite Hcall. destruct (3 <=? length text) eqn:Hlen.
  - split; [now apply performTranslation_first_request|].
    split; [apply Nat.leb_le in Hlen; lia|].
    assert (originalText (st (started w)) = originalText (st w)
            /\ inputText (st (started w)) = inputText (st w)) as Hkept
      by (unfold started; destruct (abortControllerRef w); split;
          reflexivity).
    rewrite (performTranslation_accepted _ _ _ Hacc).
    destruct (translationMode snap).
    + now rewrite (sendTranslate_st _ _ _ _ (length (controllers w)))
        by apply started_abortControllerRef.
    + now rewrite put_task_st.
  - rewrite performTranslation_rejected by exact Hacc.
    rewrite app_nil_r. repeat split.
Qed.

(** The input "  Hallo " is sent for detection as "Hallo"; the input
    " Ha " is not sent. *)
Lemma translateText_sends_trimmed_input_witness :
  fetchLog
    (translateText (with_inputText (Js.lit "  Hallo ") (st Scenario.page))
       Scenario.page)
  = [GetHealth; PostDetect Scenario.hallo]
  /\ translateText (with_inputText (Js.lit " Ha ") (st Scenario.page))
       Scenario.page
     = Scenario.page.
Proof.
  split.
  - exact (proj1 (translateText_sends_trimmed_input
                    (with_inputText (Js.lit "  Hallo ") (st Scenario.page))
                    Scenario.page)).
  - apply (proj1 (proj2 (translateText_sends_trimmed_input
                           (with_inputText (Js.lit " Ha ")
                              (st Scenario.page))
                           Scenario.page))).
    vm_compute. lia.
Defined.

(** * The page *)

(** ** What the hook's events leave of mode, role, input and recognizer *)

(** A view that the timer callbacks leave alone is left alone by a
    tick. *)
Lemma tick_view {V} (view : World -> V) :
  (forall n w, view (put_now n w) = view w) ->
  (forall id w, view (clearTimeout id w) = view w) ->
  (forall snap text w, view (performTranslation snap text w) = view w) ->
  (forall w, view (reconnectNow w) = view w) ->
  forall w, view (tick w) = view w.
Proof.
  intros Hnow Hclear Hperform Hreconnect w.
  apply (tick_preserves (fun w' => view w' = view w)); [| |reflexivity].
  - intros n w' <-. apply Hnow.
  - intros t w' <-.
    apply (fire_preserves (fun w'' => view w'' = view w')); [| | |reflexivity].
    + intros id w'' <-. apply Hclear.
    + intros snap text w'' <-. apply Hperform.
    + intros w'' <-. apply Hreconnect.
Qed.

Lemma callback_settingsView c w :
  settingsView (handle (callbackEvent c) w) = settingsView w.
Proof.
  destruct c; cbn [handle callbackEvent]; try (walk; fail).
  apply (tick_view settingsView); intros; walk.
Qed.

Lemma callback_captureView c w :
  captureView (handle (callbackEvent c) w) = captureView w.
Proof.
  destruct c; cbn [handle callbackEvent]; try (walk; fail).
  apply (tick_view captureView); intros; walk.
Qed.

Lemma callback_speechReady c w :
  speechReady w = true -> speechReady (handle (callbackEvent c) w) = true.
Proof.
  intros Hready.
  destruct c; cbn [handle callbackEvent];
    try (rewrite <- Hready; walk; fail); [|reflexivity].
  rewrite <- Hready. apply (tick_view speechReady); intros; walk.
Qed.

(** No callback turns the capture flag on. *)
Lemma callback_capturing c w :
  capturing w = false -> capturing (handle (callbackEvent c) w) = false.
Proof.
  intros Hoff.
  destruct c; cbn [handle callbackEvent];
    try (rewrite <- Hoff; walk; fail).
  - rewrite <- Hoff. apply (tick_view capturing); intros; walk.
  - unfold recognition_onend.
    set (w1 := recognizer_ended r w).
    assert (capturing w1 = false) as Hoff1 by exact Hoff.
    destruct (recognizers w1 !! r) as [x|]; [|exact Hoff1].
    destruct (rec_onend_isRecording x); [|exact Hoff1].
    destruct throws; [reflexivity|exact Hoff1].
Qed.

(** The hook functions the page calls itself. *)
Lemma setOriginalText_settingsView text w :
  settingsView (setOriginalText text w) = settingsView w.
Proof. walk. Qed.

Lemma page_calls_settingsView snap throws l text w :
  settingsView (toggleRecording snap throws w) = settingsView w
  /\ settingsView (translateText snap w) = settingsView w
  /\ settingsView (setRecognitionLang l w) = settingsView w
  /\ settingsView (stopRecording w) = settingsView w
  /\ settingsView (setOriginalText text w) = settingsView w
  /\ settingsView (clearAll w)
     = (translationMode (st w), currentRole (st w), []).
Proof.
  split; [walk|]. split; [walk|]. split; [walk|]. split; [walk|].
  split; [walk|].
  unfold clearAll. cbv zeta.
  change (settingsView (setOriginalText [] (setInputText [] (stopRecording w)))
          = (translationMode (st w), currentRole (st w), [])).
  rewrite setOriginalText_settingsView. unfold stopRecording.
  now destruct (recognitionRef _).
Qed.

Lemma setOriginalText_captureView text w :
  captureView (setOriginalText text w) = captureView w.
Proof. walk. Qed.

Lemma page_calls_captureView snap throws l text w :
  captureView (toggleRecording snap throws w) = captureView w
  /\ captureView (translateText snap w) = captureView w
  /\ captureView (setRecognitionLang l w) = captureView w
  /\ captureView (stopRecording w) = captureView w
  /\ captureView (setOriginalText text w) = captureView w
  /\ captureView (clearAll w) = captureView w.
Proof.
  split; [walk|]. split; [walk|]. split; [walk|]. split; [walk|].
  split; [walk|].
  unfold clearAll. cbv zeta.
  change (captureView (setOriginalText [] (setInputText [] (stopRecording w)))
          = captureView w).
  rewrite setOriginalText_captureView. walk.
Qed.

Lemma setOriginalText_speechReady text w :
  speechReady (setOriginalText text w) = speechReady w.
Proof. walk. Qed.

Lemma page_calls_speechReady snap throws l text w :
  speechReady (toggleRecording snap throws w) = speechReady w
  /\ speechReady (translateText snap w) = speechReady w
  /\ speechReady (setRecognitionLang l w) = speechReady w
  /\ speechReady (stopRecording w) = speechReady w
  /\ speechReady (setOriginalText text w) = speechReady w
  /\ speechReady (clearAll w) = speechReady w.
Proof.
  split; [walk|]. split; [walk|]. split; [walk|]. split; [walk|].
  split; [walk|].
  unfold clearAll. cbv zeta.
  change (speechReady (setOriginalText [] (setInputText [] (stopRecording w)))
          = speechReady w).
  rewrite setOriginalText_speechReady. walk.
Qed.

Lemma setOriginalText_capturing text w :
  capturing (setOriginalText text w) = capturing w.
Proof. walk. Qed.

Lemma page_calls_capturing snap l text w :
  capturing (translateText snap w) = capturing w
  /\ capturing (setRecognitionLang l w) = capturing w
  /\ capturing (stopRecording w) = false
  /\ capturing (setOriginalText text w) = capturing w
  /\ capturing (clearAll w) = false.
Proof.
  split; [walk|]. split; [walk|]. split.
  { unfold stopRecording. now destruct (recognitionRef _). }
  split; [walk|].
  unfold clearAll. cbv zeta.
  change (capturing (setOriginalText [] (setInputText [] (stopRecording w)))
          = false).
  rewrite setOriginalText_capturing. unfold stopRecording.
  now destruct (recognitionRef _).
Qed.

(** ** The render *)

Lemma historyEffect_frame p :
  hook (historyEffect p) = hook p /\ dialect (historyEffect p) = dialect p
  /\ dialectIndex (historyEffect p) = dialectIndex p
  /\ keyRender (historyEffect p) = keyRender p
  /\ username (historyEffect p) = username p
  /\ isConnected (historyEffect p) = isConnected p.
Proof. unfold historyEffect. cbv zeta. destruct (_ && _); repeat split. Qed.

Lemma commit_frame before after :
  hook (commit before after) = hook after
  /\ dialectIndex (commit before after) = dialectIndex after
  /\ username (commit before after) = username after
  /\ isConnected (commit before after) = isConnected after
  /\ keyRender (commit before after)
     = (if bool_decide (dialectIndex after = dialectIndex before)
           && Bool.eqb (isRecording (st (hook after)))
                (isRecording (st (hook before)))
        then keyRender after else st (hook after))
  /\ dialect (commit before after)
     = (if bool_decide (recognitionLang (st (hook after))
                        = recognitionLang (st (hook before)))
        then dialect after else recognitionLang (st (hook after))).
Proof.
  unfold commit. cbv zeta.
  set (p1 := if _ && _ then after else _).
  assert (hook p1 = hook after /\ dialect p1 = dialect after
          /\ dialectIndex p1 = dialectIndex after
          /\ username p1 = username after
          /\ isConnected p1 = isConnected after
          /\ keyRender p1
             = (if bool_decide (dialectIndex after = dialectIndex before)
                   && Bool.eqb (isRecording (st (hook after)))
                        (isRecording (st (hook before)))
                then keyRender after else st (hook after)))
    as (Hh1 & Hd1 & Hi1 & Hu1 & Hc1 & Hk1)
    by (unfold p1; destruct (_ && _); repeat split).
  set (p2 := if bool_decide (translatedText _ = _) then p1 else _).
  assert (hook p2 = hook after /\ dialect p2 = dialect after
          /\ dialectIndex p2 = dialectIndex after
          /\ username p2 = username after
          /\ isConnected p2 = isConnected after
          /\ keyRender p2 = keyRender p1)
    as (Hh2 & Hd2 & Hi2 & Hu2 & Hc2 & Hk2).
  { unfold p2. destruct (bool_decide (translatedText _ = _)).
    - repeat split; assumption.
    - destruct (historyEffect_frame p1) as (-> & -> & -> & -> & -> & ->).
      repeat split; assumption. }
  destruct (bool_decide (recognitionLang _ = _));
    cbn [hook dialect dialectIndex username isConnected keyRender setDialect];
    rewrite ?Hh2, ?Hd2, ?Hi2, ?Hu2, ?Hc2, ?Hk2, ?Hk1; repeat split.
Qed.

(** What a handler does to the page before the render. *)
Lemma dispatch_keyRender ev p : keyRender (dispatch ev p) = keyRender p.
Proof.
  destruct ev; cbn [dispatch]; try reflexivity.
  - unfold handleKeyDown. cbv zeta.
    repeat (match goal with |- context [if ?b then _ else _] =>
                              destruct b end; try reflexivity).
  - now destruct (speech _).
  - unfold handleJoinRoom. cbv zeta. destruct (isConnected p); [reflexivity|].
    now destruct (match websocketRef _ with Some _ => _ | None => _ end).
Qed.

Lemma nextIndex_in_range i :
  exists l, dialects !! ((i + 1) mod length dialects) = Some l.
Proof.
  apply lookup_lt_is_Some_2, Nat.mod_upper_bound. discriminate.
Qed.

(** The hook under a page event: untouched, or one event of the hook. *)
Lemma dispatch_hook ev p :
  hook (dispatch ev p) = hook p
  \/ exists hev, hook (dispatch ev p) = handle hev (hook p).
Proof.
  destruct ev as [c|e throws|throws| |text|code name open]; cbn [dispatch].
  - right. now exists (callbackEvent c).
  - unfold handleKeyDown. cbv zeta.
    destruct (_ && negb _);
      [right; now exists (ToggleRecording (keyRender p) throws)|].
    destruct (_ && _ && k_shift e); [now left|].
    destruct (_ && _ && (_ || _));
      [right; now exists (TranslateText (keyRender p))|].
    destruct (_ && (_ || _)).
    { right.
      now exists (SetRecognitionLang
                    (default [] (dialects
                                   !! ((dialectIndex p + 1)
                                       mod length dialects)))). }
    destruct (bool_decide _); [right; now exists StopRecording|now left].
  - destruct (speech _); [right|now left].
    now exists (ToggleRecording (st (hook p)) throws).
  - right. now exists ClearAll.
  - right. now exists (SetOriginalText text).
  - left. destruct (isConnected p); [reflexivity|].
    unfold handleJoinRoom. cbv zeta.
    now destruct (match websocketRef _ with Some _ => _ | None => _ end).
Qed.

Lemma pageStep_hook ev p : hook (pageStep ev p) = hook (dispatch ev p).
Proof. unfold pageStep. apply commit_frame. Qed.

Lemma pageReachable_hook p : pageReachable p -> reachable (hook p).
Proof.
  intros (e & healthy & evs & ->).
  assert (forall p0, reachable (hook p0) -> reachable (hook (pageRun evs p0)))
    as Hrun.
  { induction evs as [|ev evs IH]; intros p0 Hp0; [exact Hp0|].
    cbn [pageRun fold_left]. apply IH. rewrite pageStep_hook.
    destruct (dispatch_hook ev p0) as [->|[hev ->]]; [exact Hp0|].
    destruct Hp0 as (e0 & h0 & hevs & ->).
    exists e0, h0, (hevs ++ [hev]). unfold run. now rewrite fold_left_app. }
  apply Hrun. now exists e, healthy, [].
Qed.

(** What a handler leaves of the page's invariant, before the render. *)
Lemma dispatch_pageOk ev p :
  pageOk p ->
  settingsView (hook (dispatch ev p)) = (auto, user, [])
  /\ (dialect (dispatch ev p) = recognitionLang (st (hook (dispatch ev p)))
      \/ dialect (dispatch ev p) = dialect p)
  /\ dialectIndex (dispatch ev p) < length dialects.
Proof.
  intros (Hset & Hin & Hrec & Hdia & Hidx).
  destruct ev as [c|e throws|throws| |text|code name open]; cbn [dispatch].
  - cbn. rewrite callback_settingsView. auto.
  - unfold handleKeyDown. cbv zeta.
    destruct (page_calls_settingsView (keyRender p) throws
                (default [] (dialects
                               !! ((dialectIndex p + 1) mod length dialects)))
                [] (hook p)) as (Htoggle & Htext & Hlang & Hstop & _).
    destruct (_ && negb _); [cbn; rewrite Htoggle; auto|].
    destruct (_ && _ && k_shift e); [auto|].
    destruct (_ && _ && (_ || _)); [cbn; rewrite Htext; auto|].
    destruct (_ && (_ || _)).
    { cbn [on_hook put_hook hook dialect dialectIndex setDialect
           setDialectIndex].
      rewrite Hlang. split; [exact Hset|]. split.
      - left. now rewrite setRecognitionLang_recognitionLang.
      - apply Nat.mod_upper_bound. discriminate. }
    destruct (bool_decide _); [cbn; rewrite Hstop; auto|auto].
  - destruct (speech _); [|auto].
    destruct (page_calls_settingsView (st (hook p)) throws [] [] (hook p))
      as (Htoggle & _).
    cbn. rewrite Htoggle. auto.
  - destruct (page_calls_settingsView (st (hook p)) false [] [] (hook p))
      as (_ & _ & _ & _ & _ & Hclear).
    cbn. rewrite Hclear.
    injection Hset as -> -> _. auto.
  - cbn. rewrite setOriginalText_settingsView. auto.
  - destruct (isConnected p); [auto|].
    unfold handleJoinRoom. cbv zeta.
    destruct (match websocketRef _ with Some _ => _ | None => _ end); auto.
Qed.

Lemma pageOk_step ev p : pageOk p -> pageOk (pageStep ev p).
Proof.
  intros Hok. destruct (dispatch_pageOk ev p Hok) as (Hset' & Hdia' & Hidx').
  destruct Hok as (Hset & Hin & Hrec & Hdia & Hidx).
  pose proof (dispatch_keyRender ev p) as Hkey.
  unfold pageStep. set (a := dispatch ev p) in *.
  destruct (commit_frame p a) as (Hh & Hi & _ & _ & Hk & Hd).
  unfold pageOk. rewrite Hh, Hi, Hk, Hd.
  split; [exact Hset'|]. split; [|split; [|split; [|exact Hidx']]].
  - destruct (_ && _); [now rewrite Hkey|].
    now injection Hset'.
  - destruct (bool_decide (dialectIndex a = dialectIndex p)); [|reflexivity].
    destruct (Bool.eqb _ _) eqn:Hsame; [|reflexivity].
    apply Bool.eqb_prop in Hsame. cbn [andb]. now rewrite Hkey, Hrec, Hsame.
  - case_bool_decide as Hsame; [|reflexivity].
    destruct Hdia' as [Heq|Heq]; [exact Heq|]. now rewrite Heq, Hdia, Hsame.
Qed.

Lemma pageOk_mounted e healthy : pageOk (mountedPage e healthy).
Proof.
  unfold pageOk, mountedPage. cbn [hook keyRender dialect dialectIndex].
  assert (settingsView (mounted e healthy) = (auto, user, [])
          /\ recognitionLang (st (mounted e healthy)) = Str.ru_RU
          /\ isRecording (st (mounted e healthy)) = false)
    as (Hset & Hlang & Hrec).
  { destruct e as [[] synthesis voices []]; repeat split. }
  rewrite Hset, Hlang, Hrec. repeat split. cbn. lia.
Qed.

Lemma pageReachable_pageOk p : pageReachable p -> pageOk p.
Proof.
  intros (e & healthy & evs & ->).
  assert (forall p0, pageOk p0 -> pageOk (pageRun evs p0)) as Hrun.
  { induction evs as [|ev evs IH]; intros p0 Hp0; [exact Hp0|].
    cbn [pageRun fold_left]. apply IH, pageOk_step, Hp0. }
  apply Hrun, pageOk_mounted.
Qed.

Lemma put_hook_same p : put_hook (hook p) p = p.
Proof. now destruct p. Qed.

(** A render in which nothing changed runs no effect. *)
Lemma commit_same p : commit p p = p.
Proof.
  unfold commit. cbv zeta.
  rewrite !bool_decide_eq_true_2 by reflexivity.
  now rewrite Bool.eqb_reflx.
Qed.

(** X16.  On the page the translator stays as the first render set it
    up: the mode is auto, the role is [user] and [inputText] is empty, for
    the component calls none of the functions that change them.  The
    dialect shown is the hook's recognition locale, the dialect index is
    within the cycle, the registered key handler holds the current capture
    flag, and the hook is in a world its own events can reach. *)
Theorem page_keeps_first_render_settings p :
  pageReachable p ->
  translationMode (st (hook p)) = auto
  /\ currentRole (st (hook p)) = user
  /\ inputText (st (hook p)) = []
  /\ dialect p = recognitionLang (st (hook p))
  /\ dialectIndex p < 3
  /\ isRecording (keyRender p) = isRecording (st (hook p))
  /\ reachable (hook p).
Proof.
  intros Hreach.
  destruct (pageReachable_pageOk p Hreach) as (Hset & _ & Hrec & Hdia & Hidx).
  injection Hset as Hmode Hrole Hinput.
  repeat split; try assumption. now apply pageReachable_hook.
Qed.

(** The mode is still auto after typing, a tick, the dialect hotkey, the
    Start button and the clear button. *)
Lemma page_keeps_first_render_settings_witness :
  translationMode
    (st (hook (pageRun PageScenario.busy
                 (mountedPage Scenario.browser true))))
  = auto
  /\ dialectIndex (pageRun PageScenario.busy
                     (mountedPage Scenario.browser true)) < 3.
Proof.
  assert (pageReachable
            (pageRun PageScenario.busy (mountedPage Scenario.browser true)))
    as Hreach by (eexists _, _, _; reflexivity).
  destruct (page_keeps_first_render_settings _ Hreach)
    as (Hmode & _ & _ & _ & Hindex & _).
  split; [exact Hmode|exact Hindex].
Defined.

(** X17.  Enter pressed in the textarea changes nothing, with any
    modifier: Shift+Enter is left to the browser, and Ctrl/Cmd+Enter calls
    [translateText], which finds the [inputText] of its render empty and
    sends nothing. *)
Theorem enter_in_textarea_changes_nothing e throws p :
  pageReachable p -> k_code e = Enter -> k_textarea e = true ->
  pageStep (KeyDown e throws) p = p
  /\ translateText (keyRender p) (hook p) = hook p.
Proof.
  intros Hreach Hcode Harea.
  destruct (pageReachable_pageOk p Hreach) as (_ & Hin & _).
  assert (translateText (keyRender p) (hook p) = hook p) as Hnothing
    by (unfold translateText; now rewrite Hin).
  split; [|exact Hnothing].
  unfold pageStep. cbn [dispatch]. unfold handleKeyDown. cbv zeta.
  rewrite Hcode, Harea. cbn [negb andb bool_decide decide_rel].
  rewrite bool_decide_eq_true_2 by reflexivity.
  rewrite (bool_decide_eq_false_2 (Enter = KeyL)) by discriminate.
  rewrite (bool_decide_eq_false_2 (Enter = Escape)) by discriminate.
  cbn [andb]. unfold on_hook. rewrite Hnothing, put_hook_same.
  destruct (k_shift e), (k_ctrl e || k_meta e); apply commit_same.
Qed.

(** "Hallo" is in the textarea when Ctrl+Enter is pressed there. *)
Lemma enter_in_textarea_changes_nothing_witness :
  pageStep (KeyDown pressCtrlEnterInTextarea false)
    (pageRun [Typed Scenario.hallo] (mountedPage Scenario.browser true))
  = pageRun [Typed Scenario.hallo] (mountedPage Scenario.browser true).
Proof.
  assert (pageReachable
            (pageRun [Typed Scenario.hallo]
               (mountedPage Scenario.browser true))) as Hreach
    by (eexists _, _, _; reflexivity).
  exact (proj1 (enter_in_textarea_changes_nothing
                  pressCtrlEnterInTextarea false _ Hreach eq_refl eq_refl)).
Defined.

(** ** The Enter hotkey *)

(** [toggleRecording] of the first render: its [isRecording] is false and
    its [connectionStatus.speech] is false. *)
Lemma toggleRecording_first_render throws w :
  toggleRecording initial_state throws w
  = setStatus match recognitionRef w with
              | Some _ => Str.speech_not_ready
              | None => Str.no_microphone
              end w.
Proof.
  unfold toggleRecording, startRecording. cbn.
  now destruct (recognitionRef w).
Qed.

Lemma firstHandler_mounted e healthy : firstHandler e (mountedPage e healthy).
Proof.
  destruct e as [[] synthesis voices []]; repeat split;
    first [discriminate | intros _; reflexivity].
Qed.

Ltac page_cbn :=
  cbn [on_hook put_hook hook dialect dialectIndex keyRender setDialect
       setDialectIndex setUsername setRoomCode setIsConnected put_joinsSent].

Lemma firstHandler_step e ev p :
  mayRebind ev = false -> firstHandler e p -> firstHandler e (pageStep ev p).
Proof.
  intros Hev (Hkey & Hoff & Hidx & Hview & Hready).
  assert (capturing (hook (dispatch ev p)) = false
          /\ captureView (hook (dispatch ev p)) = captureView (hook p)
          /\ (speechReady (hook p) = true ->
              speechReady (hook (dispatch ev p)) = true)
          /\ dialectIndex (dispatch ev p) = dialectIndex p)
    as (Hoff' & Hview' & Hready' & Hidx').
  { destruct ev as [c|k throws|throws| |text|code name open];
      cbn [dispatch]; try discriminate Hev.
    - page_cbn. rewrite callback_captureView.
      split; [now apply callback_capturing|].
      split; [reflexivity|]. split; [apply callback_speechReady|reflexivity].
    - cbn [mayRebind] in Hev. unfold handleKeyDown. cbv zeta. rewrite Hev.
      destruct (page_calls_captureView (keyRender p) throws [] [] (hook p))
        as (_ & Hv1 & _ & Hv2 & _).
      destruct (page_calls_speechReady (keyRender p) throws [] [] (hook p))
        as (_ & Hs1 & _ & Hs2 & _).
      destruct (page_calls_capturing (keyRender p) [] [] (hook p))
        as (Hc1 & _ & Hc2 & _).
      destruct (_ && negb _).
      { page_cbn. rewrite Hkey, toggleRecording_first_render.
        split; [exact Hoff|]. split; [reflexivity|].
        split; [exact (fun H => H)|reflexivity]. }
      destruct (_ && _ && k_shift k); [repeat split; auto|].
      destruct (_ && _ && (_ || _)).
      { page_cbn. rewrite Hv1, Hs1, Hc1. repeat split; auto. }
      destruct (bool_decide (k_code k = Escape)); [|repeat split; auto].
      page_cbn. rewrite Hv2, Hs2, Hc2. repeat split; auto.
    - destruct (page_calls_captureView (keyRender p) false [] [] (hook p))
        as (_ & _ & _ & _ & _ & Hv).
      destruct (page_calls_speechReady (keyRender p) false [] [] (hook p))
        as (_ & _ & _ & _ & _ & Hs).
      destruct (page_calls_capturing (keyRender p) [] [] (hook p))
        as (_ & _ & _ & _ & Hc).
      page_cbn. rewrite Hv, Hs, Hc. repeat split; auto.
    - page_cbn. rewrite setOriginalText_captureView, setOriginalText_speechReady,
        setOriginalText_capturing. repeat split; auto.
    - destruct (isConnected p); [repeat split; auto|].
      unfold handleJoinRoom. cbv zeta.
      destruct (match websocketRef _ with Some _ => _ | None => _ end);
        page_cbn; repeat split; auto. }
  pose proof (dispatch_keyRender ev p) as Hkey'.
  unfold pageStep. set (a := dispatch ev p) in *.
  destruct (commit_frame p a) as (Hh & Hi & _ & _ & Hk & _).
  unfold firstHandler. rewrite Hh, Hi, Hk, Hidx', Hview', Hoff'.
  unfold capturing in Hoff, Hoff'. rewrite Hoff, Hoff'.
  rewrite bool_decide_eq_true_2 by reflexivity. cbn.
  rewrite Hkey', Hkey. repeat split; try assumption. auto.
Qed.

Lemma firstHandler_run e evs p :
  Forall (fun ev => mayRebind ev = false) evs ->
  firstHandler e p -> firstHandler e (pageRun evs p).
Proof.
  intros Hevs. revert p.
  induction Hevs as [|ev evs Hev _ IH]; intros p Hp; [exact Hp|].
  cbn [pageRun fold_left]. apply IH, firstHandler_step; assumption.
Qed.

(** X18.  The Enter hotkey does not start capture on a mounted page: as
    long as neither the Start/Stop button nor the dialect hotkey was used,
    the handler on [window] is the one of the first render, whose
    [startRecording] reads [connectionStatus.speech] as false.  Enter
    outside the textarea then only publishes "❌ Speech recognition не
    готов" (or "❌ Микрофон недоступен" without speech recognition) and the
    handler stays.  After one press of the dialect hotkey the handler is
    that of the current render, and Enter starts the recognizer. *)
Theorem enter_hotkey_needs_a_new_handler e healthy evs k throws :
  Forall (fun ev => mayRebind ev = false) evs ->
  k_code k = Enter -> k_textarea k = false ->
  let p := pageRun evs (mountedPage e healthy) in
  let p' := pageStep (KeyDown k throws) p in
  let q := pageStep (KeyDown pressCtrlL throws) p in
  let q' := pageStep (KeyDown k false) q in
  keyRender p = initial_state
  /\ hook p'
     = setStatus (if hasSpeechRecognition e then Str.speech_not_ready
                  else Str.no_microphone) (hook p)
  /\ isRecording (st (hook p')) = false
  /\ keyRender p' = initial_state
  /\ (hasSpeechRecognition e = true ->
      keyRender q = st (hook q)
      /\ hook q'
         = recognizer_start 0
             (setStatus Str.recording (setIsRecording true (hook q)))
      /\ isRecording (st (hook q')) = true).
Proof.
  intros Hevs Hcode Harea p p' q q'.
  assert (firstHandler e p) as Hp
    by (apply firstHandler_run; [exact Hevs|apply firstHandler_mounted]).
  assert (mayRebind (KeyDown k throws) = false) as Hk
    by (cbn; now rewrite Hcode).
  pose proof (firstHandler_step e _ p Hk Hp) as Hp'. fold p' in Hp'.
  destruct Hp as (Hkey & Hoff & Hidx & Hview & Hready).
  assert (recognitionRef (hook p)
          = if hasSpeechRecognition e then Some 0 else None) as Href
    by (injection Hview as -> _; reflexivity).
  split; [exact Hkey|]. split.
  { unfold p', pageStep. rewrite (proj1 (commit_frame _ _)).
    cbn [dispatch]. unfold handleKeyDown. cbv zeta.
    rewrite Hcode, Harea, bool_decide_eq_true_2 by reflexivity.
    cbn. rewrite Hkey, toggleRecording_first_render, Href.
    now destruct (hasSpeechRecognition e). }
  split; [apply Hp'|]. split; [apply Hp'|].
  intros Hcap. rewrite Hcap in Href. specialize (Hready Hcap).
  (* the dialect hotkey *)
  set (a := dispatch (KeyDown pressCtrlL throws) p).
  assert (hook a = setRecognitionLang PageStr.de_AT (hook p)
          /\ dialectIndex a = 1) as (Hhook & Hindex).
  { unfold a. cbn [dispatch]. unfold handleKeyDown. cbv zeta. cbn.
    now rewrite Hidx. }
  destruct (page_calls_captureView initial_state false PageStr.de_AT []
              (hook p)) as (_ & _ & Hv & _).
  destruct (page_calls_speechReady initial_state false PageStr.de_AT []
              (hook p)) as (_ & _ & Hs & _).
  destruct (page_calls_capturing initial_state PageStr.de_AT [] (hook p))
    as (_ & Hc & _).
  destruct (commit_frame p a) as (Hh & _ & _ & _ & Hkq & _).
  change (commit p a) with q in Hh, Hkq.
  rewrite Hindex, Hidx in Hkq.
  rewrite bool_decide_eq_false_2 in Hkq by discriminate.
  cbn [andb] in Hkq. rewrite <- Hh in Hkq. rewrite Hhook in Hh.
  assert (recognitionRef (hook q) = Some 0) as Hrefq.
  { rewrite Hh. change (fst (captureView
                               (setRecognitionLang PageStr.de_AT (hook p)))
                        = Some 0).
    now rewrite Hv, Hview, Hcap. }
  assert (speechReady (hook q) = true) as Hreadyq by (now rewrite Hh, Hs).
  assert (capturing (hook q) = false) as Hoffq by (now rewrite Hh, Hc).
  split; [exact Hkq|].
  assert (hook q'
          = recognizer_start 0
              (setStatus Str.recording (setIsRecording true (hook q))))
    as Hstart.
  { unfold q', pageStep. rewrite (proj1 (commit_frame _ _)).
    cbn [dispatch]. unfold handleKeyDown. cbv zeta.
    rewrite Hcode, Harea, bool_decide_eq_true_2 by reflexivity.
    cbn [negb andb on_hook put_hook hook]. rewrite Hkq.
    unfold toggleRecording, startRecording.
    unfold capturing in Hoffq. unfold speechReady in Hreadyq.
    now rewrite Hoffq, Hrefq, Hreadyq. }
  split; [exact Hstart|]. now rewrite Hstart.
Qed.

(** Typing and a tick on the mounted page, then Enter: the status says
    speech recognition is not ready and capture is off. *)
Lemma enter_hotkey_needs_a_new_handler_witness :
  hook (pageStep (KeyDown pressEnter false)
          (pageRun [Typed Scenario.hallo; Platform TimePasses]
             (mountedPage Scenario.browser true)))
  = setStatus Str.speech_not_ready
      (hook (pageRun [Typed Scenario.hallo; Platform TimePasses]
               (mountedPage Scenario.browser true)))
  /\ isRecording
       (st (hook (pageStep (KeyDown pressEnter false)
                    (pageStep (KeyDown pressCtrlL false)
                       (pageRun [Typed Scenario.hallo; Platform TimePasses]
                          (mountedPage Scenario.browser true))))))
     = true.
Proof.
  assert (Forall (fun ev => mayRebind ev = false)
            [Typed Scenario.hallo; Platform TimePasses]) as Hevs
    by (repeat constructor).
  destruct (enter_hotkey_needs_a_new_handler Scenario.browser true
              [Typed Scenario.hallo; Platform TimePasses] pressEnter false
              Hevs eq_refl eq_refl)
    as (_ & Hdead & _ & _ & Hnew).
  split; [exact Hdead|]. exact (proj2 (proj2 (Hnew eq_refl))).
Defined.

(** ** The dialect hotkey *)

Lemma next_index_moves i : (i + 1) mod 3 <> i.
Proof.
  destruct (Nat.lt_ge_cases i 3) as [Hlt|Hge].
  - do 3 (destruct i as [|i]; [discriminate|]). lia.
  - pose proof (Nat.mod_upper_bound (i + 1) 3). lia.
Qed.

(** X19.  Ctrl+L or Cmd+L, in the textarea or outside, moves the dialect
    index one step round the cycle "de-DE", "de-AT", "ru-RU" and makes
    the dialect at the new index both the dialect shown and the hook's
    recognition locale; the key handler is registered anew for the render
    that follows.  Three presses bring the index back. *)
Theorem dialect_hotkey_cycles k throws p :
  k_code k = KeyL -> k_ctrl k || k_meta k = true ->
  let p' := pageStep (KeyDown k throws) p in
  dialectIndex p' = (dialectIndex p + 1) mod 3
  /\ dialects !! dialectIndex p' = Some (dialect p')
  /\ hook p' = setRecognitionLang (dialect p') (hook p)
  /\ recognitionLang (st (hook p')) = dialect p'
  /\ keyRender p' = st (hook p')
  /\ (dialectIndex p < 3 ->
      dialectIndex
        (pageStep (KeyDown k throws) (pageStep (KeyDown k throws) p'))
      = dialectIndex p).
Proof.
  intros Hcode Hmod.
  assert (forall p0,
            let a := dispatch (KeyDown k throws) p0 in
            dialectIndex a = (dialectIndex p0 + 1) mod 3
            /\ dialects !! dialectIndex a = Some (dialect a)
            /\ hook a = setRecognitionLang (dialect a) (hook p0)) as Hdispatch.
  { intros p0. cbn [dispatch]. unfold handleKeyDown. cbv zeta.
    rewrite Hcode, Hmod.
    rewrite (bool_decide_eq_false_2 (KeyL = Enter)) by discriminate.
    rewrite bool_decide_eq_true_2 by reflexivity.
    cbn [andb on_hook put_hook hook dialect dialectIndex setDialect
         setDialectIndex].
    change (length dialects) with 3.
    destruct (nextIndex_in_range (dialectIndex p0)) as [l Hl].
    change (length dialects) with 3 in Hl. rewrite Hl. repeat split. }
  assert (forall p0,
            dialectIndex (pageStep (KeyDown k throws) p0)
            = (dialectIndex p0 + 1) mod 3) as Hstep.
  { intros p0. unfold pageStep.
    rewrite (proj1 (proj2 (commit_frame _ _))). apply Hdispatch. }
  intros p'. destruct (Hdispatch p) as (Hi & Hd & Hh).
  set (a := dispatch (KeyDown k throws) p) in *.
  destruct (commit_frame p a) as (Hh' & Hi' & _ & _ & Hk' & Hd').
  change (commit p a) with p' in Hh', Hi', Hk', Hd'.
  assert (recognitionLang (st (hook a)) = dialect a) as Hlang
    by (rewrite Hh; apply setRecognitionLang_recognitionLang).
  assert (dialect p' = dialect a) as Hsame
    by (rewrite Hd'; destruct (bool_decide (recognitionLang _ = _));
        [reflexivity|exact Hlang]).
  rewrite Hsame, Hh', Hi'.
  split; [exact Hi|]. split; [exact Hd|]. split; [exact Hh|].
  split; [exact Hlang|]. split.
  - rewrite Hk', Hi.
    rewrite bool_decide_eq_false_2 by apply next_index_moves. reflexivity.
  - intros Hlt. rewrite !Hstep, Hi', Hi.
    destruct (dialectIndex p) as [|[|[|i]]]; [reflexivity..|lia].
Qed.

(** The first press on the mounted page selects "de-AT". *)
Lemma dialect_hotkey_cycles_witness :
  dialect (mountedPage Scenario.browser true) = Str.ru_RU
  /\ dialects
     !! dialectIndex
          (pageStep (KeyDown pressCtrlL false)
             (mountedPage Scenario.browser true))
     = Some PageStr.de_AT
  /\ recognitionLang
       (st (hook (pageStep (KeyDown pressCtrlL false)
                    (mountedPage Scenario.browser true))))
     = dialect (pageStep (KeyDown pressCtrlL false)
                  (mountedPage Scenario.browser true)).
Proof.
  destruct (dialect_hotkey_cycles pressCtrlL false
              (mountedPage Scenario.browser true) eq_refl eq_refl)
    as (Hindex & _ & _ & Hlang & _).
  split; [reflexivity|]. split; [|exact Hlang].
  rewrite Hindex. reflexivity.
Defined.

(** ** The conversation history *)

Lemma dispatch_history ev p :
  conversationHistory (dispatch ev p) = conversationHistory p.
Proof.
  destruct ev; cbn [dispatch]; try reflexivity.
  - unfold handleKeyDown. cbv zeta.
    repeat (match goal with |- context [if ?b then _ else _] =>
                              destruct b end; try reflexivity).
  - now destruct (speech _).
  - unfold handleJoinRoom. cbv zeta. destruct (isConnected p); [reflexivity|].
    now destruct (match websocketRef _ with Some _ => _ | None => _ end).
Qed.

Lemma historyEffect_historyOk p :
  historyOk (conversationHistory p) ->
  historyOk (conversationHistory (historyEffect p)).
Proof.
  intros (Hentries & Hneighbours). unfold historyEffect. cbv zeta.
  destruct (Js.truthy (translatedText _)) eqn:Htr; [|now split].
  case_bool_decide as Hph; [now split|].
  destruct (Js.truthy (originalText _)) eqn:Hor; [|now split].
  cbn [andb negb conversationHistory setConversationHistory].
  set (h := conversationHistory p) in *.
  set (text := originalText (st (hook p))) in *.
  set (entry := mkEntry _ _ _ _ _).
  destruct ((0 <? length h)
            && match h !! (length h - 1) with
               | Some last => bool_decide (e_text last = text)
               | None => false
               end) eqn:Hdup; [now split|].
  split.
  - apply Forall_app. split; [exact Hentries|].
    constructor; [|constructor]. unfold entryOk, entry. cbn.
    repeat split; try assumption.
    + unfold text. now destruct (originalText _).
    + now destruct (translatedText _).
  - intros i e1 e2 H1 H2.
    destruct (Nat.lt_ge_cases (S i) (length h)) as [Hin|Hout].
    + rewrite lookup_app_l in H1 by lia. rewrite lookup_app_l in H2 by lia.
      now apply (Hneighbours i).
    + assert (i < length h) as Hi.
      { apply lookup_lt_Some in H1. rewrite length_app in H1. cbn in H1.
        apply lookup_lt_Some in H2. rewrite length_app in H2. cbn in H2.
        lia. }
      assert (S i = length h) as Hlast by lia.
      rewrite lookup_app_l in H1 by lia.
      rewrite lookup_app_r in H2 by lia.
      rewrite Hlast, Nat.sub_diag in H2. injection H2 as <-.
      assert ((0 <? length h) = true) as Hpos by (apply Nat.ltb_lt; lia).
      rewrite Hpos in Hdup. cbn [andb] in Hdup.
      replace (length h - 1) with i in Hdup by lia.
      rewrite H1 in Hdup. apply bool_decide_eq_false in Hdup.
      exact Hdup.
Qed.

Lemma commit_historyOk before after :
  historyOk (conversationHistory after) ->
  historyOk (conversationHistory (commit before after)).
Proof.
  intros Hok. unfold commit. cbv zeta.
  set (p1 := if _ && _ then after else _).
  assert (historyOk (conversationHistory p1)) as Hok1
    by (unfold p1; now destruct (_ && _)).
  set (p2 := if bool_decide (translatedText _ = _) then p1 else _).
  assert (historyOk (conversationHistory p2)) as Hok2.
  { unfold p2. destruct (bool_decide (translatedText _ = _)); [exact Hok1|].
    now apply historyEffect_historyOk. }
  now destruct (bool_decide (recognitionLang _ = _)).
Qed.

(** X20.  In the conversation history of every page the mounted
    component can reach, no entry has the text of the entry before it, and
    every entry pairs a non-empty text with a non-empty translation that
    is not the placeholder. *)
Theorem history_has_no_repeated_neighbour p :
  pageReachable p ->
  Forall entryOk (conversationHistory p)
  /\ (forall i e1 e2,
        conversationHistory p !! i = Some e1 ->
        conversationHistory p !! S i = Some e2 ->
        e_text e1 <> e_text e2).
Proof.
  intros (e & healthy & evs & ->).
  assert (forall p0, historyOk (conversationHistory p0) ->
                     historyOk (conversationHistory (pageRun evs p0)))
    as Hrun.
  { induction evs as [|ev evs IH]; intros p0 Hp0; [exact Hp0|].
    cbn [pageRun fold_left]. apply IH. unfold pageStep.
    apply commit_historyOk. now rewrite dispatch_history. }
  apply (Hrun (mountedPage e healthy)). split; [constructor|].
  intros i e1 e2 H1. destruct i; discriminate.
Qed.

(** "Hallo" was typed and translated: the history holds the one entry,
    spoken by "DE" in "de-DE" at 500 ms. *)
Lemma history_has_no_repeated_neighbour_witness :
  conversationHistory PageScenario.translatedHallo
  = [mkEntry Str.DE Str.de_DE Scenario.hallo Scenario.privet 500]
  /\ Forall entryOk (conversationHistory PageScenario.translatedHallo).
Proof.
  assert (pageReachable PageScenario.translatedHallo) as Hreach
    by (eexists _, _, _; reflexivity).
  split; [vm_compute; reflexivity|].
  exact (proj1 (history_has_no_repeated_neighbour _ Hreach)).
Defined.

(** * Stale renders *)

(** One debounce timer pending: it fires 500 ms after it was set and calls
    [performTranslation] of the render that set it. *)
Lemma elapse_single_debounce id snap text d w :
  timers w = [mkTimer id (now w + 500) (TDebounce snap text)] ->
  fetchLog (elapse d w)
  = fetchLog w
    ++ (if (500 <=? d) && accepted text
        then [firstRequest (translationMode snap) (currentRole snap) text
                (length (controllers w))]
        else []).
Proof.
  intros Hone. destruct (Nat.leb_spec 500 d) as [Hd|Hd].
  - assert (exists e, d = e + 500) as (e & ->) by (exists (d - 500); lia).
    rewrite elapse_add.
    rewrite (elapse_single_fire _ 499 _ Hone) by (cbn [t_due]; lia).
    cbn [t_due]. unfold fire. cbn [t_action t_id].
    set (w1 := clearTimeout id (put_now (now w + 500) w)).
    assert (timers w1 = []) as Hnone1.
    { unfold w1. cbn. rewrite Hone. cbn. now rewrite Nat.eqb_refl. }
    rewrite elapse_idle by (now rewrite performTranslation_timers).
    change (fetchLog (put_now ?a ?x)) with (fetchLog x).
    cbn [andb]. destruct (accepted text) eqn:Hacc.
    + now rewrite (performTranslation_first_request _ _ _ Hacc).
    + rewrite (performTranslation_rejected _ _ _ Hacc).
      now rewrite app_nil_r.
  - rewrite (elapse_single_wait _ _ _ Hone) by (cbn [t_due]; lia).
    cbn [andb]. now rewrite app_nil_r.
Qed.

Lemma toggleTranslationMode_flips w :
  translationMode (st (toggleTranslationMode (st w) w))
  = match translationMode (st w) with manual => auto | auto => manual end.
Proof.
  rewrite toggleTranslationMode_unfold. cbv zeta.
  match goal with
  | |- context [if ?b then ?x else recognitionLang_effect ?x] =>
      replace (st (if b then x else recognitionLang_effect x)) with (st x)
        by (destruct b; [reflexivity|];
            symmetry; apply recognitionLang_effect_st)
  end.
  rewrite initSpeechRecognition_st.
  now destruct (recognitionRef w).
Qed.

(** X21.  The debounced call is made by the render in which the text
    changed.  When the mode is toggled, or in manual mode the role changed,
    after the text changed and before the 500 ms have passed, the request
    that goes out is still the one for the mode and role of the render of
    the text change: the effect depends on [originalText] only, so the
    timer is not set again. *)
Theorem debounced_call_uses_render_of_text_change text role d w :
  timers w = [] -> originalText (st w) <> text -> 3 <= length text ->
  let w1 := setOriginalText text w in
  let request :=
    if (500 <=? d) && accepted text
    then [firstRequest (translationMode (st w)) (currentRole (st w)) text
            (length (controllers w))]
    else [] in
  translationMode (st (toggleTranslationMode (st w1) w1))
  <> translationMode (st w)
  /\ fetchLog (elapse d (toggleTranslationMode (st w1) w1))
     = fetchLog w ++ request
  /\ (translationMode (st w) = manual ->
      currentRole (st (handleRoleChange (st w1) role w1)) = role)
  /\ fetchLog (elapse d (handleRoleChange (st w1) role w1))
     = fetchLog w ++ request.
Proof.
  intros Hnone Hchange Hlong w1 request.
  destruct (setOriginalText_restarts_timer text w Hchange Hlong)
    as (snap & Htimers & _ & Hmode & Hrole).
  fold w1 in Htimers.
  assert (timers w1
          = [mkTimer (nextTimer w) (now w + 500) (TDebounce snap text)])
    as Hone.
  { rewrite Htimers. destruct (debounceCleanup w); [|now rewrite Hnone].
    unfold clearTimeout. cbn [timers put_timers]. now rewrite Hnone. }
  assert (pipelineView w1 = pipelineView w /\ now w1 = now w
          /\ translationMode (st w1) = translationMode (st w))
    as (Hview1 & Hnow1 & Hmode1).
  { split; [apply setOriginalText_pipelineView|].
    destruct (setOriginalText_debouncing w text w) as ((_ & _ & Hm & _) & _);
      [repeat split|exact Hchange|now left|].
    split; [|exact Hm].
    unfold w1, setOriginalText. rewrite decide_False by exact Hchange.
    unfold originalText_effect. cbv zeta.
    set (w0 := put_st _ w).
    destruct (debounceCleanup w0);
      destruct (negb _ || _); try destruct (_ =? 0); reflexivity. }
  assert (forall ev,
            timerView (handle ev w1) = timerView w1 ->
            pipelineView (handle ev w1) = pipelineView w1 ->
            now (handle ev w1) = now w1 ->
            fetchLog (elapse d (handle ev w1)) = fetchLog w ++ request)
    as Hlater.
  { intros ev Htv Hpv Hnow.
    assert (timers (handle ev w1) = timers w1) as Ht
      by exact (f_equal (fun v => fst (fst (fst v))) Htv).
    assert (fetchLog (handle ev w1) = fetchLog w) as Hlog.
    { transitivity (fetchLog w1).
      - exact (f_equal (fun v => snd (fst v)) Hpv).
      - exact (f_equal (fun v => snd (fst v)) Hview1). }
    assert (controllers (handle ev w1) = controllers w) as Hctl.
    { transitivity (controllers w1).
      - exact (f_equal (fun v => fst (fst (fst (fst v)))) Hpv).
      - exact (f_equal (fun v => fst (fst (fst (fst v)))) Hview1). }
    rewrite (elapse_single_debounce (nextTimer w) snap text d)
      by (now rewrite Ht, Hone, Hnow, Hnow1).
    unfold request. now rewrite Hlog, Hctl, Hmode, Hrole. }
  split.
  { rewrite toggleTranslationMode_flips, Hmode1.
    now destruct (translationMode (st w)). }
  split.
  { apply (Hlater (ToggleTranslationMode (st w1))).
    - exact (handle_timerView (ToggleTranslationMode (st w1)) w1).
    - exact (handle_pipelineView (ToggleTranslationMode (st w1)) w1).
    - cbn [handle]. walk. }
  split.
  { intros Hmanual. apply handleRoleChange_manual. now rewrite Hmode1. }
  apply (Hlater (HandleRoleChange (st w1) role)).
  - exact (handle_timerView (HandleRoleChange (st w1) role) w1).
  - exact (handle_pipelineView (HandleRoleChange (st w1) role) w1).
  - cbn [handle]. walk.
Qed.

(** "Hallo" is typed in auto mode and the mode is toggled to manual before
    the timer fires: "Hallo" is still sent for detection. *)
Lemma debounced_call_uses_render_of_text_change_witness :
  translationMode
    (st (toggleTranslationMode
           (st (setOriginalText Scenario.hallo Scenario.page))
           (setOriginalText Scenario.hallo Scenario.page)))
  = manual
  /\ fetchLog
       (elapse 500
          (toggleTranslationMode
             (st (setOriginalText Scenario.hallo Scenario.page))
             (setOriginalText Scenario.hallo Scenario.page)))
     = [GetHealth; PostDetect Scenario.hallo].
Proof.
  assert (originalText (st Scenario.page) <> Scenario.hallo) as Hchange
    by (vm_compute; discriminate).
  assert (3 <= length Scenario.hallo) as Hlong by (vm_compute; lia).
  destruct (debounced_call_uses_render_of_text_change Scenario.hallo user 500
              Scenario.page eq_refl Hchange Hlong) as (_ & Hlog & _).
  split; [vm_compute; reflexivity|exact Hlog].
Defined.

(** * Mount *)

(** X22.  When [initSystem] has run, the status is "🟢 Готов" whatever
    failed: [connectionStatus] holds the outcome of the health probe, a
    socket flag that is off until the socket opens, and whether speech
    recognition exists; one health request was sent.  With speech
    recognition a recognizer for "ru-RU" is in the ref, not started.  A
    socket was constructed, or the constructor threw and one reconnect is
    due after a second, its announcement overwritten by the ready
    status. *)
Theorem mount_publishes_ready e healthy :
  let w := mounted e healthy in
  status (st w) = Str.ready
  /\ connectionStatus (st w) = mkConn healthy false (hasSpeechRecognition e)
  /\ fetchLog w = [GetHealth]
  /\ recognitionRef w = (if hasSpeechRecognition e then Some 0 else None)
  /\ recognizers w
     = (if hasSpeechRecognition e
        then [mkRecognizer Str.ru_RU false false false] else [])
  /\ websocketRef w = (if wsConstructorThrows e then None else Some 0)
  /\ socketsCreated w = (if wsConstructorThrows e then 0 else 1)
  /\ timers w
     = (if wsConstructorThrows e then [mkTimer 0 1000 TReconnect] else [])
  /\ tasks w = [] /\ controllers w = [] /\ isRecording (st w) = false.
Proof.
  destruct e as [[] synthesis voices []]; repeat split.
Qed.

(** * The room *)

Lemma commit_room before after :
  joinsSent (commit before after) = joinsSent after
  /\ roomCode (commit before after) = roomCode after
  /\ username (commit before after) = username after
  /\ isConnected (commit before after) = isConnected after.
Proof.
  unfold commit, historyEffect. cbv zeta.
  repeat (match goal with |- context [if ?b then _ else _] =>
                            destruct b end); repeat split.
Qed.

Lemma dispatch_room ev p :
  roomOk p -> roomOk (dispatch ev p).
Proof.
  unfold roomOk. intros Hok.
  destruct ev as [c|k throws|throws| |text|code name open];
    cbn [dispatch]; try exact Hok.
  - unfold handleKeyDown. cbv zeta.
    repeat (match goal with |- context [if ?b then _ else _] =>
                              destruct b end; try exact Hok).
  - destruct (speech _); exact Hok.
  - destruct (isConnected p) eqn:Hcon; [now rewrite Hcon|].
    unfold handleJoinRoom. cbv zeta.
    cbn [hook setUsername setRoomCode joinsSent].
    destruct (match websocketRef _ with Some _ => _ | None => _ end).
    + cbn. now rewrite Hok.
    + cbn. now rewrite Hcon.
Qed.

(** X23.  At most one [join_room] message is ever sent.  On every
    reachable page, if the page shows itself connected, exactly one message
    was sent, for the room and the name on display; otherwise none was
    sent.  A join attempted while the socket is not open sends nothing and
    leaves the page unconnected, but stores room and name. *)
Theorem at_most_one_join_is_sent p :
  pageReachable p ->
  joinsSent p = (if isConnected p then [(roomCode p, username p)] else [])
  /\ (forall code name,
        isConnected p = false ->
        let p' := pageStep (JoinRoom code name false) p in
        joinsSent p' = [] /\ isConnected p' = false
        /\ roomCode p' = code /\ username p' = name).
Proof.
  intros (e & healthy & evs & ->).
  assert (forall p0, roomOk p0 -> roomOk (pageRun evs p0)) as Hrun.
  { induction evs as [|ev evs IH]; intros p0 Hp0; [exact Hp0|].
    cbn [pageRun fold_left]. apply IH. unfold pageStep.
    pose proof (dispatch_room ev p0 Hp0) as Hd. unfold roomOk in *.
    destruct (commit_room p0 (dispatch ev p0)) as (-> & -> & -> & ->).
    exact Hd. }
  specialize (Hrun (mountedPage e healthy) eq_refl).
  set (p := pageRun evs (mountedPage e healthy)) in *.
  split; [exact Hrun|].
  intros code name Hcon p'. unfold p', pageStep.
  destruct (commit_room p (dispatch (JoinRoom code name false) p))
    as (-> & -> & -> & ->).
  cbn [dispatch]. rewrite Hcon. unfold handleJoinRoom. cbv zeta.
  cbn [hook setUsername setRoomCode].
  assert (match websocketRef (hook p) with
          | Some _ => false
          | None => false
          end = false) as -> by (now destruct (websocketRef _)).
  cbn. unfold roomOk in Hrun. rewrite Hcon in Hrun. now rewrite Hrun.
Qed.

(** A join while the socket is connecting, then one when it is open, then
    a third try. *)
Lemma at_most_one_join_is_sent_witness :
  joinsSent
    (pageRun [JoinRoom (Js.lit "42") (Js.lit "Anna") false;
              JoinRoom (Js.lit "42") (Js.lit "Anna") true;
              JoinRoom (Js.lit "7") (Js.lit "Otto") true]
       (mountedPage Scenario.browser true))
  = [(Js.lit "42", Js.lit "Anna")].
Proof.
  assert (pageReachable
            (pageRun [JoinRoom (Js.lit "42") (Js.lit "Anna") false;
                      JoinRoom (Js.lit "42") (Js.lit "Anna") true;
                      JoinRoom (Js.lit "7") (Js.lit "Otto") true]
               (mountedPage Scenario.browser true))) as Hreach
    by (eexists _, _, _; reflexivity).
  exact (proj1 (at_most_one_join_is_sent _ Hreach)).
Defined.

(** * Detection comes first on the page *)

Lemma detectsFirst_view w w' :
  pipelineView w' = pipelineView w -> timers w' = timers w ->
  translationMode (st w') = translationMode (st w) ->
  detectsFirst w -> detectsFirst w'.
Proof.
  intros Hview Htimers Hmode (Hauto & Hsnaps & Hsent & Hwaiting).
  assert (tasks w' = tasks w) as Htasks
    by exact (f_equal (fun v => snd (fst (fst v))) Hview).
  assert (fetchLog w' = fetchLog w) as Hlog
    by exact (f_equal (fun v => snd (fst v)) Hview).
  unfold detectsFirst. rewrite Hmode, Htimers, Htasks, Hlog. now repeat split.
Qed.

(** An event that leaves pipeline, timers and settings alone. *)
Lemma detectsFirst_frame ev w :
  pipelineView (handle ev w) = pipelineView w ->
  timerView (handle ev w) = timerView w ->
  settingsView (handle ev w) = settingsView w ->
  detectsFirst w -> detectsFirst (handle ev w).
Proof.
  intros Hp Ht Hs. apply detectsFirst_view; [exact Hp| |].
  - exact (f_equal (fun v => fst (fst (fst v))) Ht).
  - exact (f_equal (fun v => fst (fst v)) Hs).
Qed.

Lemma Forall_filter_keeps {A} (P : A -> Prop) (f : A -> bool) (l : list A) :
  Forall P l -> Forall P (List.filter f l).
Proof.
  induction 1 as [|x l Hx _ IH]; [constructor|]. cbn.
  destruct (f x); [constructor|]; assumption.
Qed.

Lemma detectsFirst_clearTimeout id w :
  detectsFirst w -> detectsFirst (clearTimeout id w).
Proof.
  intros (Hauto & Hsnaps & Hrest). split; [exact Hauto|].
  split; [|exact Hrest]. now apply Forall_filter_keeps.
Qed.

Lemma detectsFirst_setOriginalText text w :
  detectsFirst w -> detectsFirst (setOriginalText text w).
Proof.
  intros Hok. pose proof Hok as (Hauto & Hsnaps & Hsent & Hwaiting).
  pose proof (setOriginalText_pipelineView text w) as Hview.
  pose proof (setOriginalText_settingsView text w) as Hset.
  assert (Forall autoRender (timers (setOriginalText text w))) as Hsnaps'.
  { unfold setOriginalText. case_decide; [exact Hsnaps|].
    unfold originalText_effect.
    set (w0 := put_st (with_originalText text (st w)) w).
    set (w1 := match debounceCleanup w0 with Some _ => _ | None => _ end).
    assert (Forall autoRender (timers w1)
            /\ translationMode (st w1) = auto) as (Hsnaps1 & Hauto1).
    { unfold w1. destruct (debounceCleanup w0); [|now split].
      split; [|exact Hauto].
      now apply (Forall_filter_keeps autoRender). }
    cbv zeta. destruct (negb _ || _).
    - now destruct (_ =? 0).
    - cbn [setTimeout timers put_debounceCleanup put_nextTimer put_timers].
      apply Forall_app. split; [exact Hsnaps1|].
      constructor; [exact Hauto1|constructor]. }
  assert (tasks (setOriginalText text w) = tasks w) as Htasks
    by exact (f_equal (fun v => snd (fst (fst v))) Hview).
  assert (fetchLog (setOriginalText text w) = fetchLog w) as Hlog
    by exact (f_equal (fun v => snd (fst v)) Hview).
  assert (translationMode (st (setOriginalText text w)) = auto) as Hauto'
    by (rewrite <- Hauto; exact (f_equal (fun v => fst (fst v)) Hset)).
  unfold detectsFirst. rewrite Htasks, Hlog. now repeat split.
Qed.

Lemma performTranslation_settingsView snap text w :
  settingsView (performTranslation snap text w) = settingsView w.
Proof. walk. Qed.

Lemma detectsFirst_performTranslation snap text w :
  translationMode snap = auto ->
  detectsFirst w -> detectsFirst (performTranslation snap text w).
Proof.
  intros Hsnap Hok. destruct (accepted text) eqn:Hacc;
    [|now rewrite performTranslation_rejected].
  destruct Hok as (Hauto & Hsnaps & Hsent & Hwaiting).
  pose proof (performTranslation_pipelineView snap text w Hacc) as Hview.
  rewrite Hsnap in Hview. cbn [firstRequest] in Hview.
  unfold pipelineView in Hview. injection Hview as _ _ Ht Hl _.
  pose proof (performTranslation_settingsView snap text w) as Hset.
  unfold detectsFirst.
  rewrite Ht, Hl, performTranslation_timers.
  split; [rewrite <- Hauto; exact (f_equal (fun v => fst (fst v)) Hset)|].
  split; [exact Hsnaps|]. split.
  - intros t0 source target signal Hin. apply in_app_iff.
    apply in_app_iff in Hin as [Hin|[Hin|[]]]; [|discriminate].
    left. eapply Hsent, Hin.
  - intros tid t0 Htask. apply in_app_iff.
    destruct (decide (tid < length (tasks w))) as [Hlt|Hge].
    + rewrite lookup_app_l in Htask by exact Hlt. left. eapply Hwaiting, Htask.
    + rewrite lookup_app_r in Htask by lia.
      destruct (tid - length (tasks w)) as [|k]; [|discriminate].
      injection Htask as <-. right. now left.
Qed.

Lemma detectsFirst_detectSettled tid r w :
  tokensOk w -> detectsFirst w -> detectsFirst (detectSettled tid r w).
Proof.
  intros (_ & _ & Hwaits & _) Hok.
  destruct (tasks w !! tid) as [[[text|text fromLang toLang signal]|]|]
    eqn:Htask;
    try (rewrite detectSettled_idle; [exact Hok|now rewrite Htask]).
  destruct (Hwaits _ _ Htask) as (c & Href).
  pose proof (detectSettled_pipelineView tid text r c w Htask Href) as Hview.
  unfold pipelineView in Hview. injection Hview as _ _ Ht Hl _.
  pose proof (handle_timerView (DetectSettled tid r) w) as Htv.
  pose proof (callback_settingsView (Detected tid r) w) as Hset.
  cbn [handle callbackEvent] in Htv, Hset.
  destruct Hok as (Hauto & Hsnaps & Hsent & Hwaiting).
  unfold detectsFirst. rewrite Ht, Hl.
  replace (timers (detectSettled tid r w)) with (timers w)
    by (symmetry; exact (f_equal (fun v => fst (fst (fst v))) Htv)).
  split; [rewrite <- Hauto; exact (f_equal (fun v => fst (fst v)) Hset)|].
  split; [exact Hsnaps|]. split.
  - intros t0 source target signal Hin. apply in_app_iff. left.
    apply in_app_iff in Hin as [Hin|[Hin|[]]]; [eapply Hsent, Hin|].
    injection Hin as <- _ _ _. eapply Hwaiting, Htask.
  - intros tid' t0 Htask'. apply in_app_iff. left.
    destruct (decide (tid' = tid)) as [->|Hne].
    + rewrite list_lookup_insert_eq in Htask'
        by (apply lookup_lt_Some in Htask; exact Htask).
      discriminate.
    + rewrite list_lookup_insert_ne in Htask' by congruence.
      eapply Hwaiting, Htask'.
Qed.

Lemma detectsFirst_translateSettled tid r w :
  detectsFirst w -> detectsFirst (translateSettled tid r w).
Proof.
  intros Hok.
  destruct (tasks w !! tid) as [[[text|text fromLang toLang signal]|]|]
    eqn:Htask;
    try (rewrite translateSettled_idle; [exact Hok|now rewrite Htask]).
  destruct (translateSettled_fields tid text fromLang toLang signal r w Htask)
    as (_ & _ & Ht & Hl & _).
  pose proof (handle_timerView (TranslateSettled tid r) w) as Htv.
  pose proof (callback_settingsView (Translated tid r) w) as Hset.
  cbn [handle callbackEvent] in Htv, Hset.
  destruct Hok as (Hauto & Hsnaps & Hsent & Hwaiting).
  unfold detectsFirst. rewrite Ht, Hl.
  replace (timers (translateSettled tid r w)) with (timers w)
    by (symmetry; exact (f_equal (fun v => fst (fst (fst v))) Htv)).
  split; [rewrite <- Hauto; exact (f_equal (fun v => fst (fst v)) Hset)|].
  split; [exact Hsnaps|]. split; [exact Hsent|].
  intros tid' t0 Htask'.
  destruct (decide (tid' = tid)) as [->|Hne].
  - rewrite list_lookup_insert_eq in Htask'
      by (apply lookup_lt_Some in Htask; exact Htask).
    discriminate.
  - rewrite list_lookup_insert_ne in Htask' by congruence.
    eapply Hwaiting, Htask'.
Qed.

Lemma detectsFirst_reconnectNow w :
  detectsFirst w -> detectsFirst (reconnectNow w).
Proof.
  intros (Hauto & Hsnaps & Hsent & Hwaiting).
  unfold reconnectNow, initWebSocket. cbn [env put_reconnectAttemptsRef].
  destruct (wsConstructorThrows (env w)).
  - split; [exact Hauto|]. split; [|split; [exact Hsent|exact Hwaiting]].
    cbn. apply Forall_app. split; [exact Hsnaps|].
    constructor; [exact I|constructor].
  - now repeat split.
Qed.

Lemma detectsFirst_tick w : detectsFirst w -> detectsFirst (tick w).
Proof.
  intros Hok. unfold tick, runDue.
  set (w0 := put_now (now w + 1) w).
  assert (detectsFirst w0) as Hok0 by exact Hok.
  assert (Forall autoRender
            (List.filter (fun t => (t_due t <=? now w0)%N) (timers w0)))
    as Hdue by (apply Forall_filter_keeps, Hok).
  revert Hdue.
  generalize (List.filter (fun t => (t_due t <=? now w0)%N) (timers w0)).
  intros due Hdue. clearbody w0. clear w Hok. revert w0 Hok0.
  induction Hdue as [|t due Ht _ IH]; intros w1 Hok1; [exact Hok1|].
  cbn [fold_left]. apply IH.
  destruct (timer_pending (t_id t) w1); [|exact Hok1].
  unfold fire. unfold autoRender in Ht.
  destruct (t_action t) as [snap text|].
  - apply detectsFirst_performTranslation; [exact Ht|].
    now apply detectsFirst_clearTimeout.
  - now apply detectsFirst_reconnectNow, detectsFirst_clearTimeout.
Qed.

Lemma callback_detectsFirst c w :
  tokensOk w -> detectsFirst w -> detectsFirst (handle (callbackEvent c) w).
Proof.
  intros Htok Hok.
  pose proof (handle_pipelineView (callbackEvent c) w) as Hp.
  pose proof (handle_timerView (callbackEvent c) w) as Ht.
  pose proof (callback_settingsView c w) as Hs.
  destruct c; cbn [callbackEvent] in *;
    try (apply detectsFirst_frame; assumption); cbn [handle].
  - now apply detectsFirst_tick.
  - now apply detectsFirst_detectSettled.
  - now apply detectsFirst_translateSettled.
  - destruct Hok as (Hauto & Hsnaps & Hsent & Hwaiting).
    destruct (ws_onclose_schedules w) as (Htimers & _).
    assert (tasks (ws_onclose w) = tasks w) as Htasks
      by exact (f_equal (fun v => snd (fst (fst v))) Hp).
    assert (fetchLog (ws_onclose w) = fetchLog w) as Hlog
      by exact (f_equal (fun v => snd (fst v)) Hp).
    unfold detectsFirst. rewrite Htimers, Htasks, Hlog.
    split; [exact Hauto|]. split; [|now split].
    apply Forall_app. split; [exact Hsnaps|].
    constructor; [exact I|constructor].
  - unfold recognition_onresult. cbv zeta.
    destruct (Js.truthy _); [|exact Hok].
    now apply detectsFirst_setOriginalText.
Qed.

Lemma clearAll_detectsFirst w : detectsFirst w -> detectsFirst (clearAll w).
Proof.
  intros Hok.
  set (w1 := setInputText [] (stopRecording w)).
  assert (detectsFirst w1) as Hok1.
  { apply (detectsFirst_view w); [| | |exact Hok].
    - unfold w1. walk.
    - unfold w1, stopRecording. now destruct (recognitionRef _).
    - unfold w1, stopRecording. now destruct (recognitionRef _). }
  apply (detectsFirst_view (setOriginalText [] w1));
    [reflexivity..|now apply detectsFirst_setOriginalText].
Qed.

Lemma dispatch_detectsFirst ev p :
  pageOk p -> tokensOk (hook p) -> detectsFirst (hook p) ->
  detectsFirst (hook (dispatch ev p)).
Proof.
  intros (_ & Hin & _) Htok Hok.
  assert (forall hev,
            match hev with
            | ToggleRecording _ _ | SetRecognitionLang _ | StopRecording =>
                detectsFirst (handle hev (hook p))
            | _ => True
            end) as Hframe.
  { intros hev.
    pose proof (handle_pipelineView hev (hook p)) as Hp.
    pose proof (handle_timerView hev (hook p)) as Ht.
    destruct hev; try exact I;
      (apply detectsFirst_frame; [exact Hp|exact Ht| |exact Hok]);
      cbn [handle]; walk. }
  destruct ev as [c|k throws|throws| |text|code name open]; cbn [dispatch].
  - now apply callback_detectsFirst.
  - unfold handleKeyDown. cbv zeta.
    destruct (_ && negb _);
      [exact (Hframe (ToggleRecording (keyRender p) throws))|].
    destruct (_ && _ && k_shift k); [exact Hok|].
    destruct (_ && _ && (_ || _)).
    { cbn [on_hook put_hook hook]. unfold translateText. now rewrite Hin. }
    destruct (_ && (_ || _)); [apply (Hframe (SetRecognitionLang _))|].
    destruct (bool_decide (k_code k = Escape)); [|exact Hok].
    exact (Hframe StopRecording).
  - destruct (speech _); [|exact Hok].
    exact (Hframe (ToggleRecording (st (hook p)) throws)).
  - now apply clearAll_detectsFirst.
  - now apply detectsFirst_setOriginalText.
  - destruct (isConnected p); [exact Hok|].
    unfold handleJoinRoom. cbv zeta.
    now destruct (match websocketRef _ with Some _ => _ | None => _ end).
Qed.

Lemma pageReachable_step ev p : pageReachable p -> pageReachable (pageStep ev p).
Proof.
  intros (e & healthy & evs & ->). exists e, healthy, (evs ++ [ev]).
  unfold pageRun. now rewrite fold_left_app.
Qed.

Lemma detectsFirst_mounted e healthy : detectsFirst (mounted e healthy).
Proof.
  destruct e as [[] synthesis voices []]; repeat split;
    try discriminate; try (now intros ? ? ? ? [|[]]);
    try (intros [|?] ?; discriminate); repeat constructor.
Qed.

(** X24.  On the page every translate request follows a detection
    request for the same text: the component never leaves auto mode, and
    a debounce timer carries the render that set it. *)
Theorem page_detects_before_it_translates p text source target signal :
  pageReachable p ->
  In (PostTranslate text source target signal) (fetchLog (hook p)) ->
  In (PostDetect text) (fetchLog (hook p)).
Proof.
  intros Hreach.
  assert (detectsFirst (hook p)) as (_ & _ & Hsent & _).
  { destruct Hreach as (e & healthy & evs & ->).
    assert (forall p0, pageReachable p0 -> detectsFirst (hook p0) ->
                       detectsFirst (hook (pageRun evs p0))) as Hrun.
    { induction evs as [|ev evs IH]; intros p0 Hp0 Hok; [exact Hok|].
      cbn [pageRun fold_left].
      apply IH; [now apply pageReachable_step|].
      rewrite pageStep_hook. apply dispatch_detectsFirst; [| |exact Hok].
      - now apply pageReachable_pageOk.
      - now apply reachable_pipelineOk, pageReachable_hook. }
    apply Hrun; [now exists e, healthy, []|apply detectsFirst_mounted]. }
  apply Hsent.
Qed.

(** "Hallo" was typed and translated on the page. *)
Lemma page_detects_before_it_translates_witness :
  In (PostTranslate Scenario.hallo Str.DE Str.RU 0)
    (fetchLog (hook PageScenario.translatedHallo))
  /\ In (PostDetect Scenario.hallo)
       (fetchLog (hook PageScenario.translatedHallo)).
Proof.
  assert (pageReachable PageScenario.translatedHallo) as Hreach
    by (eexists _, _, _; reflexivity).
  assert (In (PostTranslate Scenario.hallo Str.DE Str.RU 0)
            (fetchLog (hook PageScenario.translatedHallo))) as Hsent
    by (vm_compute; tauto).
  split; [exact Hsent|].
  exact (page_detects_before_it_translates _ _ _ _ _ Hreach Hsent).
Defined.

(** * Recognizers on the page *)

Lemma map_alter_same {A B} (g : A -> B) (f : A -> A) (i : nat) (l : list A) :
  (forall x, g (f x) = g x) -> map g (alter f i l) = map g l.
Proof.
  intros Hsame. revert i.
  induction l as [|x l IH]; intros [|i]; cbn; [reflexivity..| |].
  - now rewrite Hsame.
  - f_equal. apply IH.
Qed.

Lemma onendFlags_altered r w :
  onendFlags (recognizer_start r w) = onendFlags w
  /\ onendFlags (recognizer_stop r w) = onendFlags w
  /\ onendFlags (recognizer_ended r w) = onendFlags w.
Proof.
  unfold onendFlags, recognizer_start, recognizer_stop, recognizer_ended.
  cbn [recognizers put_recognizers].
  repeat split; now apply map_alter_same.
Qed.

Lemma onendFlags_setRecognitionLang l w :
  onendFlags (setRecognitionLang l w) = onendFlags w.
Proof.
  unfold setRecognitionLang, recognitionLang_effect.
  case_decide; [reflexivity|]. cbn [recognitionRef put_st].
  destruct (recognitionRef w); [|reflexivity].
  unfold onendFlags. cbn [recognizers put_recognizers put_st].
  now apply map_alter_same.
Qed.

Lemma onendFlags_setOriginalText text w :
  onendFlags (setOriginalText text w) = onendFlags w.
Proof. walk. Qed.

Lemma onendFlags_stopRecording w :
  onendFlags (stopRecording w) = onendFlags w.
Proof.
  unfold stopRecording. cbv zeta. cbn [recognitionRef setStatus put_st
                                       setIsRecording].
  destruct (recognitionRef w); [|reflexivity].
  now rewrite (proj1 (proj2 (onendFlags_altered _ _))).
Qed.

Lemma onendFlags_toggleRecording snap throws w :
  onendFlags (toggleRecording snap throws w) = onendFlags w.
Proof.
  unfold toggleRecording.
  destruct (isRecording snap); [apply onendFlags_stopRecording|].
  unfold startRecording. destruct (recognitionRef w); [|reflexivity].
  destruct (negb _); [reflexivity|]. cbv zeta.
  destruct throws; [reflexivity|].
  now rewrite (proj1 (onendFlags_altered _ _)).
Qed.

Lemma onendFlags_clearAll w : onendFlags (clearAll w) = onendFlags w.
Proof.
  unfold clearAll. cbv zeta.
  change (onendFlags (setOriginalText [] (setInputText [] (stopRecording w)))
          = onendFlags w).
  rewrite onendFlags_setOriginalText.
  change (onendFlags (stopRecording w) = onendFlags w).
  apply onendFlags_stopRecording.
Qed.

Lemma onendFlags_callback c w :
  onendFlags (handle (callbackEvent c) w) = onendFlags w.
Proof.
  destruct c; cbn [handle callbackEvent]; try (walk; fail).
  - apply (tick_view onendFlags); intros; walk.
  - destruct (tasks w !! tid) as [[[text|text fromLang toLang signal]|]|]
      eqn:Htask;
      try (rewrite detectSettled_idle; [reflexivity|now rewrite Htask]).
    rewrite (detectSettled_awaiting _ _ _ _ Htask). cbv zeta.
    set (l := if decide _ then _ else _).
    transitivity (onendFlags (setRecognitionLang l w));
      [walk|apply onendFlags_setRecognitionLang].
  - unfold recognition_onend.
    destruct (onendFlags_altered r w) as (_ & _ & Hended).
    destruct (recognizers (recognizer_ended r w) !! r) as [x|];
      [|exact Hended].
    destruct (rec_onend_isRecording x); [|exact Hended].
    destruct throws; [exact Hended|].
    now rewrite (proj1 (onendFlags_altered _ _)).
Qed.

Lemma dispatch_onendFlags ev p :
  inputText (keyRender p) = [] ->
  onendFlags (hook (dispatch ev p)) = onendFlags (hook p).
Proof.
  intros Hin.
  destruct ev as [c|k throws|throws| |text|code name open]; cbn [dispatch].
  - apply onendFlags_callback.
  - unfold handleKeyDown. cbv zeta.
    destruct (_ && negb _); [apply onendFlags_toggleRecording|].
    destruct (_ && _ && k_shift k); [reflexivity|].
    destruct (_ && _ && (_ || _)).
    { cbn [on_hook put_hook hook]. unfold translateText. now rewrite Hin. }
    destruct (_ && (_ || _)); [apply onendFlags_setRecognitionLang|].
    destruct (bool_decide (k_code k = Escape)); [|reflexivity].
    apply onendFlags_stopRecording.
  - destruct (speech _); [|reflexivity]. apply onendFlags_toggleRecording.
  - apply onendFlags_clearAll.
  - apply onendFlags_setOriginalText.
  - destruct (isConnected p); [reflexivity|].
    unfold handleJoinRoom. cbv zeta.
    now destruct (match websocketRef _ with Some _ => _ | None => _ end).
Qed.

(** X25.  On the page no recognizer restarts itself.  The only recognizer
    is the one [initSystem] built from the first render, so the [onend]
    handler of every recognizer holds [isRecording] as false: when a
    recognizer ends, whatever the capture flag says, the handler attempts
    no restart, the flag is left as it is and the recognizer is left
    stopped. *)
Theorem page_recognizer_never_restarts p r throws :
  pageReachable p ->
  (forall x, recognizers (hook p) !! r = Some x ->
             rec_onend_isRecording x = false)
  /\ recognition_onend r throws (hook p) = recognizer_ended r (hook p)
  /\ isRecording (st (recognition_onend r throws (hook p)))
     = isRecording (st (hook p))
  /\ (forall x, recognizers (recognition_onend r throws (hook p)) !! r
                = Some x -> rec_started x = false).
Proof.
  intros Hreach.
  assert (Forall (fun b => b = false) (onendFlags (hook p))) as Hflags.
  { destruct Hreach as (e & healthy & evs & ->).
    assert (forall p0, pageReachable p0 ->
                       onendFlags (hook (pageRun evs p0))
                       = onendFlags (hook p0)) as Hrun.
    { induction evs as [|ev evs IH]; intros p0 Hp0; [reflexivity|].
      cbn [pageRun fold_left].
      rewrite IH by (now apply pageReachable_step).
      rewrite pageStep_hook. apply dispatch_onendFlags.
      now destruct (pageReachable_pageOk p0 Hp0) as (_ & Hin & _). }
    rewrite Hrun by (now exists e, healthy, []).
    destruct e as [[] synthesis voices []]; repeat constructor. }
  assert (forall x, recognizers (hook p) !! r = Some x ->
                    rec_onend_isRecording x = false) as Hoff.
  { intros x Hx. rewrite Forall_forall in Hflags. apply Hflags.
    unfold onendFlags. apply list_elem_of_In, in_map, list_elem_of_In.
    now apply list_elem_of_lookup_2 in Hx. }
  assert (recognition_onend r throws (hook p) = recognizer_ended r (hook p))
    as Hend.
  { destruct (recognizers (hook p) !! r) as [x|] eqn:Hx.
    - rewrite (recognition_onend_closure _ _ _ _ Hx). now rewrite (Hoff x).
    - unfold recognition_onend. cbv zeta.
      unfold recognizer_ended at 1. cbn [recognizers put_recognizers].
      rewrite list_lookup_alter_eq, Hx. reflexivity. }
  split; [exact Hoff|]. split; [exact Hend|]. rewrite Hend.
  split; [reflexivity|].
  intros x. unfold recognizer_ended. cbn [recognizers put_recognizers].
  intros (y & _ & ->)%lookup_alter_Some. reflexivity.
Qed.

(** The Start button was clicked and the recognizer reported its start;
    then the recognizer ends: the page still shows capture as on. *)
Lemma page_recognizer_never_restarts_witness :
  isRecording
    (st (hook (pageRun [ClickToggle false; Platform CaptureStart;
                        Platform (CaptureEnd 0 false)]
                 (mountedPage Scenario.browser true))))
  = true
  /\ recognition_onend 0 false
       (hook (pageRun [ClickToggle false; Platform CaptureStart]
                (mountedPage Scenario.browser true)))
     = recognizer_ended 0
         (hook (pageRun [ClickToggle false; Platform CaptureStart]
                  (mountedPage Scenario.browser true))).
Proof.
  assert (pageReachable
            (pageRun [ClickToggle false; Platform CaptureStart]
               (mountedPage Scenario.browser true))) as Hreach
    by (eexists _, _, _; reflexivity).
  split; [vm_compute; reflexivity|].
  exact (proj1 (proj2 (page_recognizer_never_restarts _ 0 false Hreach))).
Defined.
